(** * Glyph: text-to-image rendering pipeline

    A shallow embedding of [scripts/word2png_function.py] and
    [simple_text2img/text_to_image.py]: text normalisation, configuration
    layering, page cropping, output naming and the batch orchestrator.

    The typesetting engine (reportlab), the rasteriser (pdf2image) and the
    image library (Pillow) are outside the repository; they enter the model
    through the [Backend] interface and through a small geometric model of
    images. *)

From Stdlib Require Import ZArith NArith List Ascii String Lia Bool.
From stdpp Require Import gmap strings list fin_maps.

Local Open Scope Z_scope.

(* ===================================================================== *)
(** * Text normalisation *)
(* ===================================================================== *)

Module Text.

(** A Python [str] is a sequence of Unicode code points. *)
Abbreviation codepoint := N.
Abbreviation pystr := (list codepoint).

(** An ASCII literal read as a Python string. *)
Definition lit (s : string) : pystr :=
  map N_of_ascii (list_ascii_of_string s).

Definition SOFT_HYPHEN : codepoint := 0xAD%N.
Definition ZERO_WIDTH_SPACE : codepoint := 0x200B%N.
Definition SPACE : codepoint := 32%N.
Definition NEWLINE : codepoint := 10%N.
Definition AMP : codepoint := 38%N.
Definition LT : codepoint := 60%N.
Definition GT : codepoint := 62%N.

Definition NBSP : pystr := lit "&nbsp;".

(** [s.replace(old, new)] for a one-character [old]. *)
Definition replace_char (old : codepoint) (new : pystr) (s : pystr) : pystr :=
  flat_map (fun c => if N.eqb c old then new else [c]) s.

(** [xml.sax.saxutils.escape]: three replacements, the ampersand first. *)
Definition escape (data : pystr) : pystr :=
  let data := replace_char AMP (lit "&amp;") data in
  let data := replace_char GT (lit "&gt;") data in
  let data := replace_char LT (lit "&lt;") data in
  data.

(** ['&nbsp;' * n]. *)
Definition nbsp_run (n : nat) : pystr := concat (replicate n NBSP).

(** What [re.sub(r' {2,}', lambda m: '&nbsp;'*len(m.group()), s)] emits for
    a maximal run of [n] spaces: the pattern matches (greedily) only when
    the run has two spaces or more. *)
Definition emit_run (n : nat) : pystr :=
  if (2 <=? n)%nat then nbsp_run n else replicate n SPACE.

(** The scan of [re.sub]: [run] counts the spaces of the run being read. *)
Fixpoint replace_spaces_from (run : nat) (s : pystr) : pystr :=
  match s with
  | [] => emit_run run
  | c :: rest =>
      if N.eqb c SPACE then replace_spaces_from (S run) rest
      else emit_run run ++ c :: replace_spaces_from 0 rest
  end.

Definition replace_spaces (s : pystr) : pystr := replace_spaces_from 0 s.

(** [s.split(sep)] for a one-character separator. *)
Fixpoint split (sep : codepoint) (s : pystr) : list pystr :=
  match s with
  | [] => [[]]
  | c :: rest =>
      if N.eqb c sep then [] :: split sep rest
      else match split sep rest with
           | [] => [[c]]
           | l :: ls => (c :: l) :: ls
           end
  end.

(** [sep.join(parts)]. *)
Fixpoint join (sep : pystr) (parts : list pystr) : pystr :=
  match parts with
  | [] => []
  | [p] => p
  | p :: ps => p ++ sep ++ join sep ps
  end.

(** The text processing of [text_to_images] and [convert_text_to_images]:
<<
    text = text.replace('\xad', '').replace('\u200b', '')
    processed_text = replace_spaces(escape(text))
    parts = processed_text.split('\n')
>> *)
Definition strip_invisible (text : pystr) : pystr :=
  replace_char ZERO_WIDTH_SPACE [] (replace_char SOFT_HYPHEN [] text).

Definition processed_text (text : pystr) : pystr :=
  replace_spaces (escape (strip_invisible text)).

Definition normalize (text : pystr) : list pystr :=
  split NEWLINE (processed_text text).

(** The same steps told one code point at a time, as the specification
    words them. *)
Definition invisible (c : codepoint) : bool :=
  N.eqb c SOFT_HYPHEN || N.eqb c ZERO_WIDTH_SPACE.

Definition escape_char (c : codepoint) : pystr :=
  if N.eqb c AMP then lit "&amp;"
  else if N.eqb c LT then lit "&lt;"
  else if N.eqb c GT then lit "&gt;"
  else [c].

(** The story of paragraphs: groups of [turns] consecutive lines joined by
    the new-line markup.
<<
    for i in range(0, len(parts), turns):
        tmp_text = newline_markup.join(parts[i:i+turns])
>> *)
Fixpoint chunks_fuel (fuel : nat) (n : nat) (l : list pystr) : list (list pystr) :=
  match fuel with
  | O => []
  | S fuel' =>
      match l with
      | [] => []
      | _ => take n l :: chunks_fuel fuel' n (drop n l)
      end
  end.

Definition story (newline_markup : pystr) (turns : nat) (parts : list pystr) : list pystr :=
  map (join newline_markup) (chunks_fuel (length parts) turns parts).

(** ** Facts about the normaliser *)

Lemma replace_char_app old new (a b : pystr) :
  replace_char old new (a ++ b) = replace_char old new a ++ replace_char old new b.
Proof. unfold replace_char. apply flat_map_app. Qed.

Lemma replace_char_nil_filter old (s : pystr) :
  replace_char old [] s = List.filter (fun c => negb (N.eqb c old)) s.
Proof.
  induction s as [|c s IH]; [reflexivity|].
  cbn. destruct (N.eqb c old); cbn; now rewrite <- IH.
Qed.

Lemma strip_invisible_filter (text : pystr) :
  strip_invisible text = List.filter (fun c => negb (invisible c)) text.
Proof.
  unfold strip_invisible. rewrite !replace_char_nil_filter.
  induction text as [|c text IH]; [reflexivity|].
  cbn. unfold invisible.
  destruct (N.eqb c SOFT_HYPHEN); cbn; [exact IH|].
  destruct (N.eqb c ZERO_WIDTH_SPACE); cbn; now rewrite IH.
Qed.

Lemma escape_cons c (data : pystr) :
  escape (c :: data) = escape_char c ++ escape data.
Proof.
  unfold escape, escape_char.
  change (c :: data) with ([c] ++ data).
  rewrite (replace_char_app AMP), (replace_char_app GT), (replace_char_app LT).
  f_equal.
  destruct (N.eqb_spec c AMP) as [->|Ha]; [reflexivity|].
  destruct (N.eqb_spec c LT) as [->|Hl]; [reflexivity|].
  destruct (N.eqb_spec c GT) as [->|Hg]; [reflexivity|].
  cbn. rewrite (proj2 (N.eqb_neq c AMP) Ha). cbn.
  rewrite (proj2 (N.eqb_neq c GT) Hg). cbn.
  rewrite (proj2 (N.eqb_neq c LT) Hl). reflexivity.
Qed.

Lemma escape_flat_map (data : pystr) : escape data = flat_map escape_char data.
Proof.
  induction data as [|c data IH]; [reflexivity|].
  rewrite escape_cons, IH. reflexivity.
Qed.

Lemma replace_spaces_from_spaces k n (post : pystr) :
  replace_spaces_from k (replicate n SPACE ++ post) = replace_spaces_from (k + n) post.
Proof.
  revert k. induction n as [|n IH]; intros k; cbn.
  - now rewrite Nat.add_0_r.
  - rewrite IH. f_equal. lia.
Qed.

Lemma replace_spaces_from_head k (s : pystr) :
  head s ≠ Some SPACE ->
  replace_spaces_from k s = emit_run k ++ replace_spaces_from 0 s.
Proof.
  destruct s as [|c rest]; intros H.
  - cbn. now rewrite app_nil_r.
  - cbn [replace_spaces_from].
    destruct (N.eqb_spec c SPACE) as [->|Hc]; [now elim H|reflexivity].
Qed.

Lemma replace_spaces_from_app k (pre tl : pystr) :
  last pre ≠ Some SPACE -> (pre ≠ [] \/ k = 0%nat) ->
  replace_spaces_from k (pre ++ tl) =
  replace_spaces_from k pre ++ replace_spaces_from 0 tl.
Proof.
  revert k. induction pre as [|c pre IH]; intros k Hlast Hk.
  - destruct Hk as [Hk| ->]; [congruence|reflexivity].
  - cbn [app replace_spaces_from].
    assert (Hlast' : pre ≠ [] -> last pre ≠ Some SPACE).
    { intros Hne. destruct pre; [congruence|exact Hlast]. }
    destruct (N.eqb_spec c SPACE) as [->|Hc].
    + destruct pre as [|d pre]; [now elim Hlast|].
      apply IH; [now apply Hlast'|now left].
    + rewrite <- app_assoc. cbn [app]. do 2 f_equal.
      destruct pre as [|d pre]; [reflexivity|].
      apply IH; [now apply Hlast'|now right].
Qed.

Lemma replace_spaces_run (pre post : pystr) n :
  last pre ≠ Some SPACE -> head post ≠ Some SPACE ->
  replace_spaces (pre ++ replicate n SPACE ++ post) =
  replace_spaces pre ++ emit_run n ++ replace_spaces post.
Proof.
  intros Hpre Hpost. unfold replace_spaces.
  rewrite replace_spaces_from_app by (auto).
  rewrite replace_spaces_from_spaces. cbn [Nat.add].
  rewrite (replace_spaces_from_head n post Hpost). reflexivity.
Qed.

Lemma replace_spaces_no_space (s : pystr) :
  SPACE ∉ s -> replace_spaces s = s.
Proof.
  unfold replace_spaces. induction s as [|c s IH]; intros H; [reflexivity|].
  cbn. destruct (N.eqb_spec c SPACE) as [->|Hc].
  - exfalso. apply H. left.
  - cbn. f_equal. apply IH. intros Hin. apply H. now right.
Qed.

Lemma split_nonempty sep (s : pystr) : split sep s ≠ [].
Proof.
  induction s as [|c s IH]; cbn; [discriminate|].
  destruct (N.eqb c sep); [discriminate|].
  destruct (split sep s); discriminate.
Qed.

Lemma join_cons_cons sep (p q : pystr) ps :
  join sep (p :: q :: ps) = p ++ sep ++ join sep (q :: ps).
Proof. reflexivity. Qed.

Lemma join_split sep (s : pystr) : join [sep] (split sep s) = s.
Proof.
  induction s as [|c s IH]; [reflexivity|].
  cbn [split]. destruct (N.eqb_spec c sep) as [->|Hc].
  - pose proof (split_nonempty sep s) as Hne.
    destruct (split sep s) as [|q ps]; [congruence|].
    rewrite join_cons_cons, IH. reflexivity.
  - destruct (split sep s) as [|l ls]; [cbn in IH; now subst|].
    destruct ls as [|q ps].
    + cbn in *. now f_equal.
    + rewrite join_cons_cons in *. cbn. now f_equal.
Qed.

Lemma split_no_sep sep (s : pystr) : Forall (fun l => sep ∉ l) (split sep s).
Proof.
  induction s as [|c s IH]; cbn.
  - constructor; [apply not_elem_of_nil|constructor].
  - destruct (N.eqb_spec c sep) as [->|Hc].
    + constructor; [apply not_elem_of_nil|exact IH].
    + destruct (split sep s) as [|l ls].
      * constructor; [|constructor].
        intros Hin. apply list_elem_of_singleton in Hin. congruence.
      * inversion IH as [|? ? Hl Hls]; subst. constructor; [|exact Hls].
        intros Hin. apply elem_of_cons in Hin. destruct Hin; congruence.
Qed.

(** Code points with a property keep it through each step, as long as the
    inserted entities have it too. *)
Section Preservation.
Variable P : codepoint -> Prop.

Lemma replace_char_Forall old new (s : pystr) :
  Forall P s -> Forall P new -> Forall P (replace_char old new s).
Proof.
  intros Hs Hnew. induction Hs as [|c s Hc Hs IH]; cbn; [constructor|].
  apply Forall_app. split; [|exact IH].
  destruct (N.eqb c old); [exact Hnew|now constructor].
Qed.

Lemma nbsp_run_Forall n : Forall P NBSP -> Forall P (nbsp_run n).
Proof.
  intros H. unfold nbsp_run.
  induction n as [|n IH]; cbn [replicate concat]; [constructor|].
  apply Forall_app. now split.
Qed.

Lemma emit_run_Forall n : P SPACE -> Forall P NBSP -> Forall P (emit_run n).
Proof.
  intros Hsp Hnb. unfold emit_run. destruct (2 <=? n)%nat.
  - now apply nbsp_run_Forall.
  - now apply Forall_replicate.
Qed.

Lemma replace_spaces_from_Forall k (s : pystr) :
  P SPACE -> Forall P NBSP -> Forall P s -> Forall P (replace_spaces_from k s).
Proof.
  intros Hsp Hnb Hs. revert k.
  induction Hs as [|c s Hc Hs IH]; intros k; cbn [replace_spaces_from].
  - now apply emit_run_Forall.
  - destruct (N.eqb c SPACE); [apply IH|].
    apply Forall_app. split; [now apply emit_run_Forall|].
    constructor; [exact Hc|apply IH].
Qed.

Lemma split_Forall sep (s : pystr) :
  Forall P s -> Forall (Forall P) (split sep s).
Proof.
  intros Hs. induction Hs as [|c s Hc Hs IH]; cbn.
  - repeat constructor.
  - destruct (N.eqb c sep); [constructor; [constructor|exact IH]|].
    destruct (split sep s) as [|l ls]; [repeat constructor; exact Hc|].
    inversion IH; subst. constructor; [now constructor|assumption].
Qed.
End Preservation.

Lemma strip_invisible_clean (text : pystr) :
  Forall (fun c => invisible c = false) (strip_invisible text).
Proof.
  rewrite strip_invisible_filter. apply Forall_forall. intros c Hc.
  apply list_elem_of_In, filter_In in Hc. destruct Hc as [_ Hc].
  now destruct (invisible c).
Qed.

Lemma normalize_clean (text : pystr) :
  Forall (Forall (fun c => invisible c = false)) (normalize text).
Proof.
  unfold normalize, processed_text, escape. apply split_Forall.
  apply replace_spaces_from_Forall; [reflexivity|repeat constructor|].
  do 3 (apply replace_char_Forall; [|repeat constructor]).
  apply strip_invisible_clean.
Qed.

(** C8. Text normalisation is a function of the text alone that, in this
    order, drops every soft hyphen (U+00AD) and zero-width space (U+200B),
    escapes [&], [<] and [>], turns each maximal run of two or more spaces
    into as many [&nbsp;] markers while a single space stays a space, and
    splits the result at the line breaks; ["a  b   c"] gives two and then
    three markers. *)
Theorem normalize_spec (text : pystr) :
  normalize text =
    split NEWLINE
      (replace_spaces
         (flat_map escape_char
            (List.filter (fun c => negb (invisible c)) text)))
  /\ Forall (Forall (fun c => c <> SOFT_HYPHEN /\ c <> ZERO_WIDTH_SPACE)) (normalize text)
  /\ (forall (pre post : pystr) n,
        last pre <> Some SPACE -> head post <> Some SPACE ->
        replace_spaces (pre ++ replicate n SPACE ++ post) =
        replace_spaces pre
          ++ (if (2 <=? n)%nat then nbsp_run n else replicate n SPACE)
          ++ replace_spaces post)
  /\ (forall s : pystr, SPACE ∉ s -> replace_spaces s = s)
  /\ join [NEWLINE] (normalize text) = processed_text text
  /\ Forall (fun line => NEWLINE ∉ line) (normalize text)
  /\ normalize (lit "a  b   c") = [lit "a&nbsp;&nbsp;b&nbsp;&nbsp;&nbsp;c"]
  /\ normalize (lit "a b") = [lit "a b"].
Proof.
  split; [|split; [|split; [|split; [|split; [|split; [|split]]]]]].
  - unfold normalize, processed_text.
    now rewrite escape_flat_map, strip_invisible_filter.
  - eapply Forall_impl; [apply normalize_clean|].
    intros line Hline. eapply Forall_impl; [exact Hline|].
    intros c Hc. unfold invisible in Hc. apply orb_false_elim in Hc.
    destruct Hc as [H1 H2]. split; now apply N.eqb_neq.
  - intros pre post n Hpre Hpost. now apply replace_spaces_run.
  - apply replace_spaces_no_space.
  - apply join_split.
  - apply split_no_sep.
  - reflexivity.
  - reflexivity.
Qed.

(** The run property of [normalize_spec] at ["x"], three spaces, ["y"]. *)
Lemma normalize_spec_witness :
  last (lit "x") <> Some SPACE /\ head (lit "y") <> Some SPACE /\
  replace_spaces (lit "x" ++ replicate 3 SPACE ++ lit "y") =
  replace_spaces (lit "x") ++ nbsp_run 3 ++ replace_spaces (lit "y").
Proof.
  assert (H1 : last (lit "x") <> Some SPACE) by (cbv; discriminate).
  assert (H2 : head (lit "y") <> Some SPACE) by (cbv; discriminate).
  split; [exact H1|]. split; [exact H2|].
  exact (proj1 (proj2 (proj2 (normalize_spec []))) (lit "x") (lit "y") 3%nat H1 H2).
Defined.

(** ** Lines, space runs and paragraphs *)

(** Two spaces next to each other somewhere in [s]. *)
Fixpoint adjacent_spaces (s : pystr) : bool :=
  match s with
  | [] => false
  | c :: rest =>
      match rest with
      | [] => false
      | d :: _ => (N.eqb c SPACE && N.eqb d SPACE) || adjacent_spaces rest
      end
  end.

(** [s.count(c)]. *)
Definition count (c : codepoint) (s : pystr) : nat :=
  length (List.filter (N.eqb c) s).

Lemma count_app c (a b : pystr) : count c (a ++ b) = (count c a + count c b)%nat.
Proof. unfold count. now rewrite List.filter_app, length_app. Qed.

Lemma count_flat_map c (f : codepoint -> pystr) (s : pystr) :
  (forall d, count c (f d) = count c [d]) -> count c (flat_map f s) = count c s.
Proof.
  intros Hf. induction s as [|d s IH]; [reflexivity|].
  cbn [flat_map]. change (d :: s) with ([d] ++ s).
  now rewrite !count_app, Hf, IH.
Qed.

Lemma count_none c (s : pystr) : Forall (fun d => d <> c) s -> count c s = 0%nat.
Proof.
  unfold count. induction 1 as [|d s Hd Hs IH]; [reflexivity|].
  cbn. now rewrite (proj2 (N.eqb_neq c d)) by congruence.
Qed.

Lemma count_replace_char c old new (s : pystr) :
  old <> c -> Forall (fun d => d <> c) new ->
  count c (replace_char old new s) = count c s.
Proof.
  intros Hold Hnew. apply count_flat_map. intros d.
  destruct (N.eqb_spec d old) as [->|Hd]; [|reflexivity].
  rewrite (count_none c new Hnew). unfold count. cbn.
  now rewrite (proj2 (N.eqb_neq c old)) by congruence.
Qed.

Lemma count_emit_run c k :
  c <> SPACE -> Forall (fun d => d <> c) NBSP -> count c (emit_run k) = 0%nat.
Proof.
  intros Hc Hnb. apply count_none.
  apply (emit_run_Forall (fun d => d <> c)); [congruence|exact Hnb].
Qed.

Lemma count_replace_spaces_from c k (s : pystr) :
  c <> SPACE -> Forall (fun d => d <> c) NBSP ->
  count c (replace_spaces_from k s) = count c s.
Proof.
  intros Hc Hnb. revert k.
  induction s as [|d s IH]; intros k; cbn [replace_spaces_from].
  - now apply count_emit_run.
  - destruct (N.eqb_spec d SPACE) as [->|Hd].
    + rewrite IH. unfold count. cbn.
      now rewrite (proj2 (N.eqb_neq c SPACE)) by congruence.
    + change (d :: replace_spaces_from 0 s) with ([d] ++ replace_spaces_from 0 s).
      change (d :: s) with ([d] ++ s).
      rewrite !count_app, IH, count_emit_run by assumption. reflexivity.
Qed.

Lemma length_split sep (s : pystr) : length (split sep s) = S (count sep s).
Proof.
  unfold count. induction s as [|c s IH]; [reflexivity|].
  cbn [split List.filter]. rewrite (N.eqb_sym sep c).
  destruct (N.eqb c sep); cbn [length]; [now rewrite IH|].
  pose proof (split_nonempty sep s) as Hne.
  destruct (split sep s) as [|l ls]; [congruence|exact IH].
Qed.

Lemma split_app_sep sep (u v : pystr) :
  split sep (u ++ sep :: v) = split sep u ++ split sep v.
Proof.
  induction u as [|c u IH]; cbn [app split].
  - now rewrite N.eqb_refl.
  - destruct (N.eqb c sep); [now rewrite IH|].
    rewrite IH. pose proof (split_nonempty sep u) as Hne.
    destruct (split sep u) as [|l ls]; [congruence|reflexivity].
Qed.

Lemma replace_spaces_from_sep k (x : pystr) c (y : pystr) :
  c <> SPACE ->
  replace_spaces_from k (x ++ c :: y) =
  replace_spaces_from k x ++ c :: replace_spaces_from 0 y.
Proof.
  intros Hc. revert k.
  induction x as [|d x IH]; intros k; cbn [app replace_spaces_from].
  - now rewrite (proj2 (N.eqb_neq c SPACE) Hc).
  - destruct (N.eqb d SPACE); [apply IH|].
    rewrite IH, <- app_assoc. reflexivity.
Qed.

Lemma escape_app (a b : pystr) : escape (a ++ b) = escape a ++ escape b.
Proof. rewrite !escape_flat_map. apply flat_map_app. Qed.

Lemma strip_invisible_app (a b : pystr) :
  strip_invisible (a ++ b) = strip_invisible a ++ strip_invisible b.
Proof. unfold strip_invisible. now rewrite !replace_char_app. Qed.

Lemma processed_text_line_break (a b : pystr) :
  processed_text (a ++ NEWLINE :: b) =
  processed_text a ++ NEWLINE :: processed_text b.
Proof.
  unfold processed_text, replace_spaces.
  change (NEWLINE :: b) with ([NEWLINE] ++ b).
  rewrite !strip_invisible_app, !escape_app.
  change (escape (strip_invisible [NEWLINE])) with [NEWLINE].
  cbn [app]. apply replace_spaces_from_sep. discriminate.
Qed.

(** X1. Lines are normalised one by one: the lines of a text with a
    line break in it are the lines of the part before the break followed
    by the lines of the part after it. No run of spaces, and no
    replacement, reaches across a line break. *)
Theorem normalize_lines_independent (a b : pystr) :
  normalize (a ++ NEWLINE :: b) = normalize a ++ normalize b.
Proof.
  unfold normalize. rewrite processed_text_line_break. apply split_app_sep.
Qed.

(** X2. The normaliser hands on as many lines as the text has line
    breaks, plus one: no line is added, dropped or merged, and the empty
    text still gives one (empty) line. *)
Theorem normalize_line_count (text : pystr) :
  length (normalize text) = S (count NEWLINE text)
  /\ normalize [] = [[]].
Proof.
  split; [|reflexivity].
  unfold normalize, processed_text, replace_spaces, escape, strip_invisible.
  rewrite length_split. f_equal.
  rewrite count_replace_spaces_from by (try discriminate; repeat constructor; discriminate).
  rewrite !count_replace_char by (try discriminate; repeat constructor; discriminate).
  reflexivity.
Qed.

(** ** No markup and no space run survives *)

Lemma escape_char_no_markup c :
  Forall (fun d => d <> LT /\ d <> GT) (escape_char c).
Proof.
  unfold escape_char.
  destruct (N.eqb_spec c AMP); [repeat constructor; discriminate|].
  destruct (N.eqb_spec c LT); [repeat constructor; discriminate|].
  destruct (N.eqb_spec c GT); [repeat constructor; discriminate|].
  repeat constructor; assumption.
Qed.

Lemma escape_no_markup (data : pystr) :
  Forall (fun d => d <> LT /\ d <> GT) (escape data).
Proof.
  rewrite escape_flat_map. induction data as [|c data IH]; [constructor|].
  cbn [flat_map]. apply Forall_app. split; [apply escape_char_no_markup|exact IH].
Qed.

(** X3. No line handed to the typesetting engine holds a raw [<] or
    [>]: whatever the text, the only markup in a line is what the
    normaliser put there ([&amp;], [&lt;], [&gt;], [&nbsp;]). *)
Theorem normalize_no_raw_markup (text : pystr) :
  Forall (Forall (fun c => c <> LT /\ c <> GT)) (normalize text).
Proof.
  unfold normalize, processed_text. apply split_Forall.
  apply replace_spaces_from_Forall;
    [split; discriminate|repeat constructor; discriminate|].
  apply escape_no_markup.
Qed.

Lemma adjacent_spaces_no_space (s : pystr) :
  Forall (fun d => d <> SPACE) s -> adjacent_spaces s = false.
Proof.
  induction 1 as [|c s Hc Hs IH]; [reflexivity|].
  cbn [adjacent_spaces]. destruct s as [|d s]; [reflexivity|].
  now rewrite (proj2 (N.eqb_neq c SPACE) Hc).
Qed.

Lemma adjacent_spaces_cons c (s : pystr) :
  adjacent_spaces (c :: s) =
  (N.eqb c SPACE && match s with d :: _ => N.eqb d SPACE | [] => false end)
  || adjacent_spaces s.
Proof. destruct s; [now rewrite andb_false_r|reflexivity]. Qed.

Lemma adjacent_spaces_sep (a : pystr) c (b : pystr) :
  c <> SPACE ->
  adjacent_spaces (a ++ c :: b) = adjacent_spaces a || adjacent_spaces b.
Proof.
  intros Hc. apply N.eqb_neq in Hc.
  induction a as [|d a IH]; cbn [app].
  - rewrite adjacent_spaces_cons, Hc. reflexivity.
  - rewrite (adjacent_spaces_cons d (a ++ c :: b)), (adjacent_spaces_cons d a), IH.
    rewrite orb_assoc. do 2 f_equal.
    destruct a as [|e a]; cbn [app]; [now rewrite Hc|reflexivity].
Qed.

Lemma adjacent_spaces_emit_run k : adjacent_spaces (emit_run k) = false.
Proof.
  unfold emit_run. destruct k as [|[|k]]; [reflexivity|reflexivity|].
  cbn [Nat.leb]. apply adjacent_spaces_no_space.
  apply (nbsp_run_Forall (fun d => d <> SPACE)). repeat constructor; discriminate.
Qed.

Lemma adjacent_spaces_replace_spaces_from k (s : pystr) :
  adjacent_spaces (replace_spaces_from k s) = false.
Proof.
  revert k. induction s as [|c s IH]; intros k; cbn [replace_spaces_from].
  - apply adjacent_spaces_emit_run.
  - destruct (N.eqb_spec c SPACE) as [->|Hc]; [apply IH|].
    rewrite adjacent_spaces_sep by exact Hc.
    now rewrite adjacent_spaces_emit_run, IH.
Qed.

Lemma adjacent_spaces_tail c (s : pystr) :
  adjacent_spaces (c :: s) = false -> adjacent_spaces s = false.
Proof.
  cbn [adjacent_spaces]. destruct s as [|d s]; [reflexivity|].
  intros H. now apply orb_false_elim in H.
Qed.

Lemma adjacent_spaces_suffix (a b : pystr) :
  adjacent_spaces (a ++ b) = false -> adjacent_spaces b = false.
Proof.
  induction a as [|c a IH]; [auto|].
  intros H. apply IH. now apply (adjacent_spaces_tail c).
Qed.

Lemma replace_spaces_from_fixed k (s : pystr) :
  adjacent_spaces (replicate k SPACE ++ s) = false ->
  replace_spaces_from k s = replicate k SPACE ++ s.
Proof.
  revert k. induction s as [|c s IH]; intros k H.
  - cbn [replace_spaces_from]. rewrite app_nil_r in *.
    destruct k as [|[|k]]; [reflexivity|reflexivity|].
    cbn [replicate adjacent_spaces] in H. now rewrite N.eqb_refl in H.
  - cbn [replace_spaces_from]. destruct (N.eqb_spec c SPACE) as [->|Hc].
    + rewrite IH.
      * clear. induction k as [|k IHk]; [reflexivity|].
        cbn [replicate app] in *. now rewrite IHk.
      * replace (replicate (S k) SPACE ++ s) with (replicate k SPACE ++ SPACE :: s);
          [exact H|].
        clear. induction k as [|k IHk]; [reflexivity|].
        cbn [replicate app] in *. now rewrite IHk.
    + rewrite (IH 0%nat)
        by (apply (adjacent_spaces_tail c), (adjacent_spaces_suffix _ _ H)).
      cbn [replicate app]. f_equal.
      destruct k as [|[|k]]; [reflexivity|reflexivity|].
      cbn [replicate app adjacent_spaces] in H. now rewrite N.eqb_refl in H.
Qed.

(** X4. After the space rewriting no two spaces stand next to each
    other, and the rewriting leaves a text alone exactly when it has no
    two adjacent spaces to begin with. *)
Theorem replace_spaces_no_run (s : pystr) :
  adjacent_spaces (replace_spaces s) = false
  /\ (replace_spaces s = s <-> adjacent_spaces s = false).
Proof.
  split; [apply adjacent_spaces_replace_spaces_from|]. split.
  - intros H. rewrite <- H. apply adjacent_spaces_replace_spaces_from.
  - intros H. apply (replace_spaces_from_fixed 0 s H).
Qed.

(** ** The story *)

Lemma chunks_fuel_spec n :
  (0 < n)%nat ->
  forall fuel (l : list pystr),
    (length l <= fuel)%nat ->
    concat (chunks_fuel fuel n l) = l
    /\ Forall (fun g => (1 <= length g <= n)%nat) (chunks_fuel fuel n l)
    /\ length (chunks_fuel fuel n l) = ((length l + n - 1) / n)%nat.
Proof.
  intros Hn. induction fuel as [|fuel IH]; intros l Hl.
  - destruct l; [|cbn in Hl; lia]. cbn.
    split; [reflexivity|]. split; [constructor|].
    symmetry. apply Nat.div_small. lia.
  - destruct l as [|x l].
    { cbn. split; [reflexivity|]. split; [constructor|].
      symmetry. apply Nat.div_small. lia. }
    cbn [chunks_fuel]. set (l0 := x :: l) in *.
    assert (Hlen : (1 <= length l0)%nat) by (subst l0; cbn; lia).
    destruct (IH (drop n l0)) as (Hc & Hf & Hk).
    { rewrite length_drop. lia. }
    split; [|split].
    + cbn [concat]. rewrite Hc. apply take_drop.
    + constructor; [|exact Hf]. rewrite length_take. lia.
    + cbn [length]. rewrite Hk, length_drop.
      destruct (Nat.le_gt_cases (length l0) n) as [Hle|Hgt].
      * replace (length l0 - n + n - 1)%nat with (n - 1)%nat by lia.
        rewrite (Nat.div_small (n - 1) n) by lia.
        replace (length l0 + n - 1)%nat with ((length l0 - 1) + 1 * n)%nat by lia.
        rewrite Nat.div_add by lia. rewrite Nat.div_small by lia. reflexivity.
      * replace (length l0 + n - 1)%nat
          with ((length l0 - n + n - 1) + 1 * n)%nat by lia.
        rewrite Nat.div_add by lia. lia.
Qed.

(** X5. The story takes the lines in groups of [turns] (30 in both
    renderers): every line is in exactly one paragraph and the order is
    kept, no paragraph is empty or longer than [turns] lines, and there
    are [ceil(len(parts) / turns)] paragraphs, each the lines of its group
    joined by the new-line markup. *)
Theorem story_groups (newline_markup : pystr) (turns : nat) (parts : list pystr) :
  (0 < turns)%nat ->
  let groups := chunks_fuel (length parts) turns parts in
  story newline_markup turns parts = map (join newline_markup) groups
  /\ concat groups = parts
  /\ Forall (fun g => (1 <= length g <= turns)%nat) groups
  /\ length (story newline_markup turns parts)
     = ((length parts + turns - 1) / turns)%nat.
Proof.
  intros Hn groups.
  destruct (chunks_fuel_spec turns Hn (length parts) parts (le_n _))
    as (Hc & Hf & Hk).
  split; [reflexivity|]. split; [exact Hc|]. split; [exact Hf|].
  unfold story. now rewrite length_map.
Qed.

Lemma story_groups_witness :
  (0 < 30)%nat
  /\ story (lit "<br/>") 30 (replicate 31 (lit "x"))
     = [join (lit "<br/>") (replicate 30 (lit "x")); lit "x"].
Proof.
  split; [lia|].
  destruct (story_groups (lit "<br/>") 30 (replicate 31 (lit "x")))
    as (Hs & _); [lia|].
  rewrite Hs. vm_compute. reflexivity.
Defined.

End Text.

(* ===================================================================== *)
(** * Rasterised pages and the crop policies *)
(* ===================================================================== *)

Module Raster.

(** A Pillow image, as far as the crop code looks at it: its size and its
    pixels, [px img y x] being the pixel in row [y] and column [x]. *)
Record image (pixel : Type) := Image {
  width : Z;
  height : Z;
  px : Z -> Z -> pixel
}.
Arguments Image {pixel} _ _ _.
Arguments width {pixel} _.
Arguments height {pixel} _.
Arguments px {pixel} _ _ _.

(** [range(n)]. *)
Definition zrange (n : Z) : list Z := map Z.of_nat (seq 0 (Z.to_nat n)).

Fixpoint insert_sorted (x : Z) (l : list Z) : list Z :=
  match l with
  | [] => [x]
  | y :: l' => if x <=? y then x :: l else y :: insert_sorted x l'
  end.

Definition sort (l : list Z) : list Z := fold_right insert_sorted [] l.

(** Twice [np.median(l)]: the middle value counted twice, or the sum of
    the two middle values; doubling keeps the half-integers exact. *)
Definition median2 (l : list Z) : Z :=
  let s := sort l in
  let n := length s in
  if Nat.even n
  then nth (n / 2 - 1) s 0 + nth (n / 2) s 0
  else 2 * nth (n / 2) s 0.

Section Crop.
Context {pixel : Type}.
(** [img.convert("L")] on one pixel. *)
Variable luma : pixel -> Z.

Implicit Types img : image pixel.

(** [img.crop((left, upper, right, lower))]: columns [left..right-1] and
    rows [upper..lower-1] of the image. *)
Definition crop img (left upper right lower : Z) : image pixel :=
  {| width := right - left;
     height := lower - upper;
     px := fun y x => px img (y + upper) (x + left) |}.

(** [gray = np.array(img.convert("L"))]. *)
Definition gray img (y x : Z) : Z := luma (px img y x).

(** [gray[:k, :k]], flattened. *)
Definition corner_patch (k : Z) img : list Z :=
  flat_map (fun y => map (fun x => gray img y x) (zrange (Z.min k (width img))))
           (zrange (Z.min k (height img))).

(** [mask = np.abs(gray - bg_gray) > tolerance] with
    [bg_gray = np.median(gray[:k, :k])]. *)
Definition mask (k tolerance : Z) img : Z -> Z -> bool :=
  let bg_gray2 := median2 (corner_patch k img) in
  fun y x => 2 * tolerance <? Z.abs (2 * gray img y x - bg_gray2).

(** [np.where(mask.any(axis=1))[0]] and [np.where(mask.any(axis=0))[0]]. *)
Definition rows_of (m : Z -> Z -> bool) img : list Z :=
  List.filter (fun y => existsb (fun x => m y x) (zrange (width img)))
              (zrange (height img)).

Definition cols_of (m : Z -> Z -> bool) img : list Z :=
  List.filter (fun x => existsb (fun y => m y x) (zrange (height img)))
              (zrange (width img)).

(** The content crop of [convert_text_to_images]:
<<
  gray = np.array(img.convert("L"))
  bg_gray = np.median(gray[:10, :10])
  tolerance = 8
  mask = np.abs(gray - bg_gray) > tolerance
  rows = np.where(mask.any(axis=1))[0]
  cols = np.where(mask.any(axis=0))[0]
  if rows.size and cols.size:
      top = max(0, rows[0] - 10)
      bottom = min(img.height, rows[-1] + 10)
      left = max(0, cols[0] - 10)
      right = min(img.width, cols[-1] + 10)
      if bottom > top and right > left:
          img = img.crop((left, top, right, bottom))
>> *)
Definition content_box img : option (Z * Z * Z * Z) :=
  let m := mask 10 8 img in
  let rows := rows_of m img in
  let cols := cols_of m img in
  match head rows, last rows, head cols, last cols with
  | Some r0, Some r1, Some c0, Some c1 =>
      let top := Z.max 0 (r0 - 10) in
      let bottom := Z.min (height img) (r1 + 10) in
      let left := Z.max 0 (c0 - 10) in
      let right := Z.min (width img) (c1 + 10) in
      if (top <? bottom) && (left <? right)
      then Some (left, top, right, bottom)
      else None
  | _, _, _, _ => None
  end.

Definition content_crop img : image pixel :=
  match content_box img with
  | Some (x0, y0, x1, y1) => crop img x0 y0 x1 y1
  | None => img
  end.

(** The axis crop of [text_to_images] and [convert_text_to_images]:
<<
  if auto_crop_width or (auto_crop_last_page and offset == num_pages):
      gray = np.array(img.convert("L"))
      bg_gray = np.median(gray[:2, :2])
      tolerance = 5
      mask = np.abs(gray - bg_gray) > tolerance
      if auto_crop_width:
          cols = np.where(mask.any(axis=0))[0]
          if cols.size:
              rightmost_col = cols[-1] + 1
              right = min(img.width, rightmost_col + margin_x)
              img = img.crop((0, 0, right, img.height))
      if auto_crop_last_page and offset == num_pages:
          rows = np.where(mask.any(axis=1))[0]
          if rows.size:
              last_row = rows[-1]
              lower = min(img.height, last_row + margin_y)
              img = img.crop((0, 0, img.width, lower))
>>
    The mask is computed once, before the width trim. *)
Definition width_trim (m : Z -> Z -> bool) (margin_x : Z) img0 img : image pixel :=
  match last (cols_of m img0) with
  | Some c =>
      let rightmost_col := c + 1 in
      let right := Z.min (width img) (rightmost_col + margin_x) in
      crop img 0 0 right (height img)
  | None => img
  end.

Definition vertical_trim (m : Z -> Z -> bool) (margin_y : Z) img0 img : image pixel :=
  match last (rows_of m img0) with
  | Some last_row =>
      let lower := Z.min (height img) (last_row + margin_y) in
      crop img 0 0 (width img) lower
  | None => img
  end.

Definition axis_crop (auto_crop_width auto_crop_last_page : bool)
    (margin_x margin_y : Z) (offset num_pages : Z) img : image pixel :=
  if auto_crop_width || (auto_crop_last_page && (offset =? num_pages)) then
    let m := mask 2 5 img in
    let img1 := if auto_crop_width then width_trim m margin_x img img else img in
    if auto_crop_last_page && (offset =? num_pages)
    then vertical_trim m margin_y img img1
    else img1
  else img.

(** The crop step of one page in [convert_text_to_images]: [if
    auto_crop_to_content: ... elif ...: ...]. *)
Definition crop_page (auto_crop_to_content auto_crop_width auto_crop_last_page : bool)
    (margin_x margin_y : Z) (offset num_pages : Z) img : image pixel :=
  if auto_crop_to_content then content_crop img
  else axis_crop auto_crop_width auto_crop_last_page margin_x margin_y offset num_pages img.

(** The mask the chosen policy looks at. *)
Definition policy_mask (auto_crop_to_content : bool) img : Z -> Z -> bool :=
  if auto_crop_to_content then mask 10 8 img else mask 2 5 img.

(** Pixel [(y, x)] of the page is a foreground pixel of mask [m]. *)
Definition is_foreground (m : Z -> Z -> bool) img (y x : Z) : Prop :=
  0 <= y < height img /\ 0 <= x < width img /\ m y x = true.

(** A blank page: no pixel of the page is in the mask. *)
Definition blank (m : Z -> Z -> bool) img : Prop :=
  forall y x, 0 <= y < height img -> 0 <= x < width img -> m y x = false.

(** Column [c] is the rightmost column, row [r] the bottommost row, with
    a foreground pixel (both counted from 0, as numpy does). *)
Definition rightmost (m : Z -> Z -> bool) img (c : Z) : Prop :=
  (exists y, is_foreground m img y c) /\
  (forall y x, is_foreground m img y x -> x <= c).

Definition bottommost (m : Z -> Z -> bool) img (r : Z) : Prop :=
  (exists x, is_foreground m img r x) /\
  (forall y x, is_foreground m img y x -> y <= r).

End Crop.

(** ** Ranges and filters *)

Lemma in_zrange n x : In x (zrange n) <-> 0 <= x < n.
Proof.
  unfold zrange. rewrite in_map_iff. split.
  - intros (k & <- & Hk). apply in_seq in Hk. lia.
  - intros H. exists (Z.to_nat x). split; [lia|]. apply in_seq. lia.
Qed.

Lemma existsb_zrange (g : Z -> bool) n :
  existsb g (zrange n) = true <-> exists x, 0 <= x < n /\ g x = true.
Proof.
  rewrite existsb_exists. split; intros (x & H1 & H2); exists x.
  - split; [now apply in_zrange|exact H2].
  - split; [now apply in_zrange|exact H2].
Qed.

Lemma last_filter_upto (f : Z -> bool) k c :
  last (List.filter f (map Z.of_nat (seq 0 k))) = Some c ->
  0 <= c < Z.of_nat k /\ f c = true /\
  (forall x, 0 <= x < Z.of_nat k -> f x = true -> x <= c).
Proof.
  induction k as [|k IH]; [discriminate|].
  rewrite seq_S, List.map_app, List.filter_app, last_app.
  cbn [map List.filter Nat.add].
  destruct (f (Z.of_nat k)) eqn:Hk; cbn [last].
  - intros [= <-]. repeat split; try lia. exact Hk.
  - intros Hl. destruct (IH Hl) as (Hc & Hf & Hmax).
    repeat split; try lia; [exact Hf|].
    intros x Hx Hfx. destruct (Z.eq_dec x (Z.of_nat k)) as [->|Hne].
    + congruence.
    + apply Hmax; [lia|exact Hfx].
Qed.

Lemma head_filter_from (f : Z -> bool) s k c :
  head (List.filter f (map Z.of_nat (seq s k))) = Some c ->
  Z.of_nat s <= c < Z.of_nat (s + k) /\ f c = true /\
  (forall x, Z.of_nat s <= x < Z.of_nat (s + k) -> f x = true -> c <= x).
Proof.
  revert s. induction k as [|k IH]; intros s; [discriminate|].
  cbn [seq map List.filter].
  destruct (f (Z.of_nat s)) eqn:Hs; cbn [head].
  - intros [= <-]. repeat split; try lia. exact Hs.
  - intros Hh. destruct (IH (S s) Hh) as (Hc & Hf & Hmin).
    repeat split; try lia; [exact Hf|].
    intros x Hx Hfx. destruct (Z.eq_dec x (Z.of_nat s)) as [->|Hne].
    + congruence.
    + apply Hmin; [lia|exact Hfx].
Qed.

Lemma last_filter_zrange (f : Z -> bool) n c :
  last (List.filter f (zrange n)) = Some c ->
  0 <= c < n /\ f c = true /\ (forall x, 0 <= x < n -> f x = true -> x <= c).
Proof.
  intros H. apply last_filter_upto in H. destruct H as (Hc & Hf & Hmax).
  repeat split; try lia; [exact Hf|]. intros x Hx. apply Hmax. lia.
Qed.

Lemma head_filter_zrange (f : Z -> bool) n c :
  head (List.filter f (zrange n)) = Some c ->
  0 <= c < n /\ f c = true /\ (forall x, 0 <= x < n -> f x = true -> c <= x).
Proof.
  intros H. apply head_filter_from in H. destruct H as (Hc & Hf & Hmin).
  repeat split; try lia; [exact Hf|]. intros x Hx. apply Hmin. lia.
Qed.

Lemma filter_zrange_has (f : Z -> bool) n x :
  0 <= x < n -> f x = true ->
  exists a b, head (List.filter f (zrange n)) = Some a /\
              last (List.filter f (zrange n)) = Some b.
Proof.
  intros Hx Hf.
  assert (Hin : In x (List.filter f (zrange n))).
  { apply filter_In. split; [now apply in_zrange|exact Hf]. }
  destruct (List.filter f (zrange n)) as [|a l] eqn:E; [destruct Hin|].
  exists a. destruct (last (a :: l)) as [b|] eqn:El.
  - exists b. now split.
  - apply last_None in El. discriminate.
Qed.

Lemma filter_zrange_none (f : Z -> bool) n :
  (forall x, 0 <= x < n -> f x = false) -> List.filter f (zrange n) = [].
Proof.
  intros H. destruct (List.filter f (zrange n)) as [|a l] eqn:E; [reflexivity|].
  assert (Hin : In a (List.filter f (zrange n))) by (rewrite E; now left).
  apply filter_In in Hin. destruct Hin as [Hin Hf].
  apply in_zrange in Hin. rewrite (H a Hin) in Hf. discriminate.
Qed.

(** ** Facts about the crop policies *)

Section CropFacts.
Context {pixel : Type}.
Variable luma : pixel -> Z.
Implicit Types img : image pixel.
Implicit Types m : Z -> Z -> bool.

Lemma row_has_foreground m img y :
  existsb (fun x => m y x) (zrange (width img)) = true <->
  exists x, 0 <= x < width img /\ m y x = true.
Proof. apply existsb_zrange. Qed.

Lemma col_has_foreground m img x :
  existsb (fun y => m y x) (zrange (height img)) = true <->
  exists y, 0 <= y < height img /\ m y x = true.
Proof. apply (existsb_zrange (fun y => m y x)). Qed.

Lemma last_rows_bottommost m img r :
  last (rows_of m img) = Some r <-> bottommost m img r.
Proof.
  unfold rows_of, bottommost, is_foreground. split.
  - intros H. apply last_filter_zrange in H. destruct H as (Hr & Hf & Hmax).
    apply row_has_foreground in Hf. destruct Hf as (x & Hx & Hm). split.
    + exists x. auto.
    + intros y x' (Hy & Hx' & Hm'). apply Hmax; [exact Hy|].
      apply row_has_foreground. eauto.
  - intros [(x & Hr & Hx & Hm) Hmax].
    destruct (filter_zrange_has
                (fun y => existsb (fun x => m y x) (zrange (width img)))
                (height img) r Hr) as (a & b & _ & Hb).
    { apply row_has_foreground. eauto. }
    rewrite Hb. f_equal.
    apply last_filter_zrange in Hb. destruct Hb as (Hb & Hf & Hmax').
    apply row_has_foreground in Hf. destruct Hf as (x' & Hx' & Hm').
    assert (b <= r) by (apply (Hmax b x'); auto).
    assert (r <= b) by (apply Hmax'; [exact Hr|apply row_has_foreground; eauto]).
    lia.
Qed.

Lemma last_cols_rightmost m img c :
  last (cols_of m img) = Some c <-> rightmost m img c.
Proof.
  unfold cols_of, rightmost, is_foreground. split.
  - intros H. apply last_filter_zrange in H. destruct H as (Hc & Hf & Hmax).
    apply col_has_foreground in Hf. destruct Hf as (y & Hy & Hm). split.
    + exists y. auto.
    + intros y' x (Hy' & Hx & Hm'). apply Hmax; [exact Hx|].
      apply col_has_foreground. eauto.
  - intros [(y & Hy & Hc & Hm) Hmax].
    destruct (filter_zrange_has
                (fun x => existsb (fun y => m y x) (zrange (height img)))
                (width img) c Hc) as (a & b & _ & Hb).
    { apply col_has_foreground. eauto. }
    rewrite Hb. f_equal.
    apply last_filter_zrange in Hb. destruct Hb as (Hb & Hf & Hmax').
    apply col_has_foreground in Hf. destruct Hf as (y' & Hy' & Hm').
    assert (b <= c) by (apply (Hmax y' b); auto).
    assert (c <= b) by (apply Hmax'; [exact Hc|apply col_has_foreground; eauto]).
    lia.
Qed.

Lemma blank_rows m img : blank m img -> rows_of m img = [].
Proof.
  intros Hb. apply filter_zrange_none. intros y Hy.
  destruct (existsb _ _) eqn:E; [|reflexivity].
  apply row_has_foreground in E. destruct E as (x & Hx & Hm).
  rewrite (Hb y x Hy Hx) in Hm. discriminate.
Qed.

Lemma blank_cols m img : blank m img -> cols_of m img = [].
Proof.
  intros Hb. apply filter_zrange_none. intros x Hx.
  destruct (existsb _ _) eqn:E; [|reflexivity].
  apply col_has_foreground in E. destruct E as (y & Hy & Hm).
  rewrite (Hb y x Hy Hx) in Hm. discriminate.
Qed.

Lemma axis_crop_blank acw aclp mx my offset num img :
  blank (mask luma 2 5 img) img ->
  axis_crop luma acw aclp mx my offset num img = img.
Proof.
  intros Hb. unfold axis_crop, width_trim, vertical_trim.
  rewrite (blank_rows _ _ Hb), (blank_cols _ _ Hb). cbn [last].
  destruct acw, aclp, (offset =? num); reflexivity.
Qed.

Lemma content_crop_blank img :
  blank (mask luma 10 8 img) img -> content_crop luma img = img.
Proof.
  intros Hb. unfold content_crop, content_box.
  now rewrite (blank_rows _ _ Hb).
Qed.

(** C7. On a page without any foreground pixel no crop is applied, under
    whichever policy is chosen (content crop, width trim, last-page
    vertical trim, in both renderers): the page comes out as it went in. *)
Theorem blank_page_uncropped
    (content acw aclp : bool) (mx my offset num : Z) img :
  blank (policy_mask luma content img) img ->
  crop_page luma content acw aclp mx my offset num img = img
  /\ (content = false ->
      axis_crop luma acw aclp mx my offset num img = img).
Proof.
  intros Hb. unfold crop_page. destruct content; cbn in Hb.
  - split; [now apply content_crop_blank|discriminate].
  - split; [|intros _]; now apply axis_crop_blank.
Qed.

(** C3. With the content-crop flag set the page gets the content crop and
    nothing else: the result does not depend on the two axis-crop flags,
    the margins or the page index. *)
Theorem content_crop_exclusive
    (acw aclp : bool) (mx my offset num : Z) img :
  crop_page luma true acw aclp mx my offset num img = content_crop luma img
  /\ crop_page luma true acw aclp mx my offset num img
     = crop_page luma true false false 0 0 0 0 img.
Proof. split; reflexivity. Qed.

(** What the axis crop does to a page with foreground pixels, [c] being the
    index of the rightmost foreground column and [r] the index of the
    bottommost foreground row. *)
Lemma axis_crop_geometry (acw aclp : bool) (mx my offset num : Z) img c r :
  rightmost (mask luma 2 5 img) img c ->
  bottommost (mask luma 2 5 img) img r ->
  let out := axis_crop luma acw aclp mx my offset num img in
  width out = (if acw then Z.min (width img) (c + 1 + mx) else width img)
  /\ height out = (if aclp && (offset =? num)
                   then Z.min (height img) (r + my) else height img)
  /\ (forall y x, px out y x = px img y x).
Proof.
  intros Hc Hr. apply last_cols_rightmost in Hc. apply last_rows_bottommost in Hr.
  unfold axis_crop, width_trim, vertical_trim. rewrite Hc, Hr.
  destruct acw, aclp, (offset =? num); cbn;
    repeat split; try lia; intros; now rewrite ?Z.add_0_r.
Qed.

(** A decision procedure for blank pages. *)
Definition blankb m img : bool :=
  forallb (fun y => forallb (fun x => negb (m y x)) (zrange (width img)))
          (zrange (height img)).

Lemma blankb_blank m img : blankb m img = true -> blank m img.
Proof.
  unfold blankb, blank. intros H y x Hy Hx.
  rewrite forallb_forall in H. specialize (H y (proj2 (in_zrange _ _) Hy)).
  rewrite forallb_forall in H. specialize (H x (proj2 (in_zrange _ _) Hx)).
  now destruct (m y x).
Qed.

(** The box of the content crop on a page with a foreground pixel at
    [(y, x)]: it lies within the page and keeps, around that pixel, ten
    rows above and ten columns to the left, but only nine rows below and
    nine columns to the right (the box ends before [lower] and [right]). *)
Lemma content_box_spec img y x :
  is_foreground (mask luma 10 8 img) img y x ->
  exists x0 y0 x1 y1,
    content_box luma img = Some (x0, y0, x1, y1)
    /\ content_crop luma img = crop img x0 y0 x1 y1
    /\ 0 <= x0 < x1 /\ x1 <= width img
    /\ 0 <= y0 < y1 /\ y1 <= height img
    /\ x0 <= Z.max 0 (x - 10) /\ Z.min (width img) (x + 10) <= x1
    /\ y0 <= Z.max 0 (y - 10) /\ Z.min (height img) (y + 10) <= y1.
Proof.
  intros (Hy & Hx & Hm). unfold content_crop, content_box.
  set (m := mask luma 10 8 img) in *.
  destruct (filter_zrange_has
              (fun y => existsb (fun x => m y x) (zrange (width img)))
              (height img) y Hy) as (r0 & r1 & Hr0 & Hr1).
  { apply row_has_foreground. eauto. }
  destruct (filter_zrange_has
              (fun x => existsb (fun y => m y x) (zrange (height img)))
              (width img) x Hx) as (c0 & c1 & Hc0 & Hc1).
  { apply col_has_foreground. eauto. }
  fold (rows_of m img) in Hr0, Hr1. fold (cols_of m img) in Hc0, Hc1.
  rewrite Hr0, Hr1, Hc0, Hc1.
  apply head_filter_zrange in Hr0. destruct Hr0 as (Hr0 & _ & Hmin_r).
  apply last_filter_zrange in Hr1. destruct Hr1 as (Hr1 & _ & Hmax_r).
  apply head_filter_zrange in Hc0. destruct Hc0 as (Hc0 & _ & Hmin_c).
  apply last_filter_zrange in Hc1. destruct Hc1 as (Hc1 & _ & Hmax_c).
  assert (r0 <= y) by (apply Hmin_r; [exact Hy|apply row_has_foreground; eauto]).
  assert (y <= r1) by (apply Hmax_r; [exact Hy|apply row_has_foreground; eauto]).
  assert (c0 <= x) by (apply Hmin_c; [exact Hx|apply col_has_foreground; eauto]).
  assert (x <= c1) by (apply Hmax_c; [exact Hx|apply col_has_foreground; eauto]).
  assert (Ht : (Z.max 0 (r0 - 10) <? Z.min (height img) (r1 + 10)) = true)
    by (apply Z.ltb_lt; lia).
  assert (Hl : (Z.max 0 (c0 - 10) <? Z.min (width img) (c1 + 10)) = true)
    by (apply Z.ltb_lt; lia).
  rewrite Ht, Hl. cbn [andb].
  eexists _, _, _, _. split; [reflexivity|]. split; [reflexivity|].
  apply Z.ltb_lt in Ht, Hl. lia.
Qed.

(** The sizes the axis crop gives, for integer margins. On a page with
    foreground pixels, [c] being the index of the rightmost foreground
    column and [r] the index of the bottommost foreground row: the width
    trim, on every page, keeps the columns up to [c] and [margin_x] more,
    so the new width is [min(width, c + 1 + margin_x)], and leaves the
    height alone; the vertical trim, on the last page only, cuts the
    height to [min(height, r + margin_y)], one row less than the width
    trim keeps columns, and leaves the width alone; a page that is not
    the last one keeps its height. Both trims keep the top-left part of
    the page. *)
Lemma axis_crop_sizes (acw aclp : bool) (mx my offset num : Z) img c r :
  rightmost (mask luma 2 5 img) img c ->
  bottommost (mask luma 2 5 img) img r ->
  let out := axis_crop luma acw aclp mx my offset num img in
  width out = (if acw then Z.min (width img) (c + 1 + mx) else width img)
  /\ height out = (if aclp && (offset =? num)
                   then Z.min (height img) (r + my) else height img)
  /\ (offset <> num -> height out = height img)
  /\ (forall y x, px out y x = px img y x).
Proof.
  intros Hc Hr out.
  destruct (axis_crop_geometry acw aclp mx my offset num img c r Hc Hr)
    as (Hw & Hh & Hpx).
  fold out in Hw, Hh, Hpx. repeat split; try assumption.
  intros Hne. rewrite Hh. apply Z.eqb_neq in Hne. rewrite Hne.
  now rewrite andb_false_r.
Qed.

End CropFacts.

(** ** Concrete pages *)

(** A grey-scale page, white except where [ink] says so. *)
Definition page_of (w h : Z) (ink : Z -> Z -> bool) : image Z :=
  Image w h (fun y x => if ink y x then 0 else 255).

Definition luma_id (g : Z) : Z := g.

Definition dot_page : image Z :=
  page_of 10 10 (fun y x => (y =? 3) && (x =? 4)).

Definition white_page : image Z := page_of 4 3 (fun _ _ => false).

(** The page of the specification's example: foreground confined to rows
    10..50 and columns 5..90, here on a page of 120 by 120 pixels. *)
Definition example_page : image Z :=
  page_of 120 120 (fun y x => ((y =? 10) && (x =? 5)) || ((y =? 50) && (x =? 90))).

Lemma dot_page_rightmost : rightmost (mask luma_id 2 5 dot_page) dot_page 4.
Proof. apply last_cols_rightmost. vm_compute. reflexivity. Qed.

Lemma dot_page_bottommost : bottommost (mask luma_id 2 5 dot_page) dot_page 3.
Proof. apply last_rows_bottommost. vm_compute. reflexivity. Qed.

(** C6. The width trim does what the claim says, the vertical trim is
    one row short of it. Page of 10 by 10 pixels, one foreground pixel in
    row 3 and column 4 (the fourth row and the fifth column), last page.
    With margins 2 the page keeps the five columns up to the foreground
    pixel and two more (width 7), but of the rows only the four up to
    the foreground pixel and one more (height 5, not 6). With margins 0
    the foreground column is kept (width 5) and the foreground row is
    cut off (height 3). *)
Theorem vertical_trim_margin_short :
  let out := axis_crop luma_id true true 2 2 1 1 dot_page in
  let tight := axis_crop luma_id true true 0 0 1 1 dot_page in
  rightmost (mask luma_id 2 5 dot_page) dot_page 4
  /\ bottommost (mask luma_id 2 5 dot_page) dot_page 3
  /\ width out = Z.min (width dot_page) ((4 + 1) + 2)
  /\ height out = 5
  /\ height out <> Z.min (height dot_page) ((3 + 1) + 2)
  /\ width tight = 5
  /\ height tight = 3
  /\ is_foreground (mask luma_id 2 5 dot_page) dot_page 3 4.
Proof.
  cbv zeta.
  split; [exact dot_page_rightmost|]. split; [exact dot_page_bottommost|].
  assert (Hh : height (axis_crop luma_id true true 2 2 1 1 dot_page) = 5)
    by (vm_compute; reflexivity).
  split; [vm_compute; reflexivity|]. split; [exact Hh|].
  split; [rewrite Hh; cbn; discriminate|].
  split; [vm_compute; reflexivity|]. split; [vm_compute; reflexivity|].
  unfold is_foreground. change (height dot_page) with 10.
  change (width dot_page) with 10.
  split; [lia|]. split; [lia|]. vm_compute. reflexivity.
Qed.

Lemma blank_page_uncropped_witness :
  blank (policy_mask luma_id false white_page) white_page
  /\ crop_page luma_id false true true 5 5 1 1 white_page = white_page.
Proof.
  assert (Hb : blank (policy_mask luma_id false white_page) white_page)
    by (apply blankb_blank; vm_compute; reflexivity).
  split; [exact Hb|].
  exact (proj1 (blank_page_uncropped luma_id false true true 5 5 1 1 white_page Hb)).
Defined.

(** C4 at the specification's own example: the foreground spans rows 10..50
    and columns 5..90, so with a margin of 10 pixels on every side the crop
    should keep rows 0..60 and columns 0..100 (61 rows, 101 columns, all on
    the page); the code keeps rows 0..59 and columns 0..99. *)
Theorem content_crop_margin_short :
  is_foreground (mask luma_id 10 8 example_page) example_page 10 5
  /\ is_foreground (mask luma_id 10 8 example_page) example_page 50 90
  /\ rows_of (mask luma_id 10 8 example_page) example_page = [10; 50]
  /\ cols_of (mask luma_id 10 8 example_page) example_page = [5; 90]
  /\ content_box luma_id example_page = Some (0, 0, 100, 60)
  /\ width (content_crop luma_id example_page) = 100
  /\ height (content_crop luma_id example_page) = 60
  /\ 50 + 10 < height example_page
  /\ 90 + 10 < width example_page.
Proof.
  assert (Hbox : content_box luma_id example_page = Some (0, 0, 100, 60))
    by (vm_compute; reflexivity).
  assert (Hdim : height example_page = 120 /\ width example_page = 120)
    by (split; reflexivity).
  destruct Hdim as [Hh Hw].
  split; [unfold is_foreground; rewrite Hh, Hw;
          repeat split; try lia; vm_compute; reflexivity|].
  split; [unfold is_foreground; rewrite Hh, Hw;
          repeat split; try lia; vm_compute; reflexivity|].
  split; [vm_compute; reflexivity|].
  split; [vm_compute; reflexivity|].
  split; [exact Hbox|].
  unfold content_crop. rewrite Hbox, Hh, Hw. cbn [crop width height].
  repeat split; lia.
Qed.

(** ** What the crops keep *)

Section KeepFacts.
Context {pixel : Type}.
Variable luma : pixel -> Z.
Implicit Types img : image pixel.

(** Every pixel of the page has the grey level [g]. *)
Definition uniform img (g : Z) : Prop :=
  forall y x, 0 <= y < height img -> 0 <= x < width img -> luma (px img y x) = g.

(** X6. The content crop never cuts into the content: on a page with a
    foreground pixel the crop is made, the pixel lies inside the box, and
    it is found in the cropped page at its position relative to the
    corner of the box. *)
Theorem content_crop_keeps_foreground img y x :
  is_foreground (mask luma 10 8 img) img y x ->
  exists x0 y0 x1 y1,
    content_box luma img = Some (x0, y0, x1, y1)
    /\ x0 <= x < x1 /\ y0 <= y < y1
    /\ width (content_crop luma img) = x1 - x0
    /\ height (content_crop luma img) = y1 - y0
    /\ px (content_crop luma img) (y - y0) (x - x0) = px img y x.
Proof.
  intros Hfg. pose proof Hfg as (Hy & Hx & _).
  destruct (content_box_spec luma img y x Hfg)
    as (x0 & y0 & x1 & y1 & Hbox & Hcrop & Hx0 & Hx1 & Hy0 & Hy1 & Hl & Hr & Ht & Hb).
  exists x0, y0, x1, y1. rewrite Hcrop. cbn [crop width height px].
  split; [exact Hbox|]. split; [lia|]. split; [lia|].
  split; [reflexivity|]. split; [reflexivity|].
  f_equal; lia.
Qed.

(** X7. With a horizontal margin of at least 0 and a vertical margin of
    at least 1, the axis crop keeps every foreground pixel, at its place.
    (The width trim keeps the column after the rightmost foreground
    column, the vertical trim does not keep the row after the bottommost
    one: with a vertical margin of 0 that row is cut.) *)
Theorem axis_crop_keeps_foreground
    (acw aclp : bool) (mx my offset num : Z) img y x :
  0 <= mx -> 1 <= my ->
  is_foreground (mask luma 2 5 img) img y x ->
  let out := axis_crop luma acw aclp mx my offset num img in
  0 <= x < width out /\ 0 <= y < height out /\ px out y x = px img y x.
Proof.
  intros Hmx Hmy Hfg out. pose proof Hfg as (Hy & Hx & Hm).
  set (m := mask luma 2 5 img) in *.
  destruct (filter_zrange_has
              (fun x => existsb (fun y => m y x) (zrange (height img)))
              (width img) x Hx) as (c0 & c & _ & Hc).
  { apply (col_has_foreground m img). eauto. }
  destruct (filter_zrange_has
              (fun y => existsb (fun x => m y x) (zrange (width img)))
              (height img) y Hy) as (r0 & r & _ & Hr).
  { apply (row_has_foreground m img). eauto. }
  fold (cols_of m img) in Hc. fold (rows_of m img) in Hr.
  apply last_cols_rightmost in Hc. apply last_rows_bottommost in Hr.
  destruct (axis_crop_geometry luma acw aclp mx my offset num img c r Hc Hr)
    as (Hw & Hh & Hpx).
  fold out in Hw, Hh, Hpx.
  assert (x <= c) by (apply (proj2 Hc y x Hfg)).
  assert (y <= r) by (apply (proj2 Hr y x Hfg)).
  rewrite Hw, Hh, Hpx. split; [|split; [|reflexivity]].
  - destruct acw; lia.
  - destruct (aclp && (offset =? num)); lia.
Qed.

Lemma sort_const g (l : list Z) : Forall (eq g) l -> sort l = l.
Proof.
  induction 1 as [|x l Hx Hl IH]; [reflexivity|].
  cbn [sort fold_right]. fold (sort l). rewrite IH. subst x.
  destruct Hl as [|y l' Hy Hl']; [reflexivity|].
  subst y. cbn [insert_sorted]. now rewrite Z.leb_refl.
Qed.

Lemma nth_const g (l : list Z) i :
  Forall (eq g) l -> (i < length l)%nat -> nth i l 0 = g.
Proof.
  intros Hl Hi. rewrite Forall_forall in Hl.
  symmetry. apply Hl, list_elem_of_In, nth_In, Hi.
Qed.

Lemma median2_const g (l : list Z) :
  l <> [] -> Forall (eq g) l -> median2 l = 2 * g.
Proof.
  intros Hne Hl. unfold median2. rewrite (sort_const g l Hl).
  assert (Hpos : (0 < length l)%nat) by (destruct l; [congruence|cbn; lia]).
  assert (Hhalf : (length l / 2 < length l)%nat) by (apply Nat.div_lt; lia).
  destruct (Nat.even (length l)).
  - rewrite !(nth_const g) by (assumption || lia). lia.
  - now rewrite (nth_const g) by assumption.
Qed.

Lemma corner_patch_uniform k img g :
  uniform img g -> Forall (eq g) (corner_patch luma k img).
Proof.
  intros Hu. apply Forall_forall. intros v Hv.
  apply list_elem_of_In, in_flat_map in Hv. destruct Hv as (y & Hy & Hv).
  apply in_map_iff in Hv. destruct Hv as (x & <- & Hx).
  apply in_zrange in Hy, Hx. symmetry. apply Hu; lia.
Qed.

Lemma corner_patch_nonempty k img :
  0 < k -> 0 < width img -> 0 < height img -> corner_patch luma k img <> [].
Proof.
  intros Hk Hw Hh Hnil.
  assert (Hin : In (gray luma img 0 0) (corner_patch luma k img)).
  { apply in_flat_map. exists 0. split; [apply in_zrange; lia|].
    apply in_map_iff. exists 0. split; [reflexivity|apply in_zrange; lia]. }
  rewrite Hnil in Hin. destruct Hin.
Qed.

Lemma uniform_blank k tolerance img g :
  0 < k -> 0 <= tolerance -> uniform img g ->
  blank (mask luma k tolerance img) img.
Proof.
  intros Hk Htol Hu y x Hy Hx. unfold mask, gray.
  rewrite (median2_const g).
  - rewrite (Hu y x Hy Hx). apply Z.ltb_ge. lia.
  - apply corner_patch_nonempty; lia.
  - now apply corner_patch_uniform.
Qed.

(** X8. A page of one grey level (an empty page of any background
    colour) is never cropped, whichever policy and margins are chosen:
    the median of its corner is that grey level, so no pixel is
    foreground. *)
Theorem uniform_page_uncropped
    (content acw aclp : bool) (mx my offset num : Z) img g :
  uniform img g ->
  crop_page luma content acw aclp mx my offset num img = img.
Proof.
  intros Hu. unfold crop_page. destruct content.
  - apply content_crop_blank. apply (uniform_blank 10 8 img g); [lia|lia|exact Hu].
  - apply axis_crop_blank. apply (uniform_blank 2 5 img g); [lia|lia|exact Hu].
Qed.

(** X9. Whatever the policy, the margins and the page, the cropped page
    is a window of the page: it is no wider and no higher than the page,
    and each of its pixels is the pixel of the page at the same place
    relative to the corner of the window. *)
Theorem crop_page_is_window
    (content acw aclp : bool) (mx my offset num : Z) img :
  let out := crop_page luma content acw aclp mx my offset num img in
  exists x0 y0,
    0 <= x0 /\ 0 <= y0
    /\ x0 + width out <= width img /\ y0 + height out <= height img
    /\ forall y x, px out y x = px img (y + y0) (x + x0).
Proof.
  cbv zeta. unfold crop_page. destruct content.
  - unfold content_crop, content_box. cbv zeta.
    set (m := mask luma 10 8 img).
    destruct (head (rows_of m img)) as [r0|], (last (rows_of m img)) as [r1|],
      (head (cols_of m img)) as [c0|], (last (cols_of m img)) as [c1|];
      try (exists 0, 0; repeat split; try lia; intros; now rewrite !Z.add_0_r).
    destruct ((Z.max 0 (r0 - 10) <? Z.min (height img) (r1 + 10))
              && (Z.max 0 (c0 - 10) <? Z.min (width img) (c1 + 10)));
      [|exists 0, 0; repeat split; try lia; intros; now rewrite !Z.add_0_r].
    exists (Z.max 0 (c0 - 10)), (Z.max 0 (r0 - 10)).
    cbn [crop width height px]. repeat split; lia.
  - exists 0, 0. unfold axis_crop, width_trim, vertical_trim. cbv zeta.
    set (m := mask luma 2 5 img).
    destruct acw, (aclp && (offset =? num)),
      (last (cols_of m img)) as [c|], (last (rows_of m img)) as [r|];
      cbn [orb crop width height px];
      repeat split; try lia; intros; now rewrite !Z.add_0_r.
Qed.

End KeepFacts.

Lemma content_crop_keeps_foreground_witness :
  is_foreground (mask luma_id 10 8 example_page) example_page 50 90
  /\ exists x0 y0 x1 y1,
       content_box luma_id example_page = Some (x0, y0, x1, y1)
       /\ x0 <= 90 < x1 /\ y0 <= 50 < y1.
Proof.
  assert (Hfg : is_foreground (mask luma_id 10 8 example_page) example_page 50 90).
  { unfold is_foreground. change (height example_page) with 120.
    change (width example_page) with 120.
    split; [lia|]. split; [lia|]. vm_compute. reflexivity. }
  split; [exact Hfg|].
  destruct (content_crop_keeps_foreground luma_id example_page 50 90 Hfg)
    as (x0 & y0 & x1 & y1 & Hbox & Hx & Hy & _).
  exists x0, y0, x1, y1. auto.
Defined.

Lemma axis_crop_keeps_foreground_witness :
  0 <= 0 /\ 1 <= 1
  /\ is_foreground (mask luma_id 2 5 dot_page) dot_page 3 4
  /\ 0 <= 4 < width (axis_crop luma_id true true 0 1 1 1 dot_page)
  /\ 0 <= 3 < height (axis_crop luma_id true true 0 1 1 1 dot_page).
Proof.
  assert (Hfg : is_foreground (mask luma_id 2 5 dot_page) dot_page 3 4).
  { unfold is_foreground. change (height dot_page) with 10.
    change (width dot_page) with 10.
    split; [lia|]. split; [lia|]. vm_compute. reflexivity. }
  assert (H0 : 0 <= 0) by lia. assert (H1 : 1 <= 1) by lia.
  split; [exact H0|]. split; [exact H1|]. split; [exact Hfg|].
  destruct (axis_crop_keeps_foreground luma_id true true 0 1 1 1 dot_page 3 4
              H0 H1 Hfg) as (Hx & Hy & _).
  split; [exact Hx|exact Hy].
Defined.

Lemma white_page_uniform : uniform luma_id white_page 255.
Proof. intros y x _ _. reflexivity. Qed.

Lemma uniform_page_uncropped_witness :
  uniform luma_id white_page 255
  /\ crop_page luma_id true true true 5 5 1 1 white_page = white_page.
Proof.
  split; [exact white_page_uniform|].
  exact (uniform_page_uncropped luma_id true true true 5 5 1 1 white_page 255
           white_page_uniform).
Defined.

End Raster.

(* ===================================================================== *)
(** * Configuration layers *)
(* ===================================================================== *)

Module Config.

(** Page sizes: the three named sizes of [PAGE_SIZE_MAP] and the tuple
    [tuple(map(float, s.split(',')))] read from a ["W,H"] token. *)
Inductive pagesize :=
| A4
| LETTER
| A3
| ParsedWH (token : string).

(** The values a configuration dict holds: JSON values, and the objects
    the loaders put in their place ([colors.HexColor(token)], a page
    size). A float is held as its [repr], a converted colour or page size
    keeps the token it was read from. *)
Inductive value :=
| VNull
| VBool (b : bool)
| VNum (z : Z)
| VFloat (repr : string)
| VStr (s : string)
| VColor (hex : string)
| VPageSize (ps : pagesize).

Abbreviation dict := (gmap string value).

(** Python truthiness, as [if auto_crop_width:] and [assert font_path] use
    it. *)
Definition truthy (v : value) : bool :=
  match v with
  | VNull => false
  | VBool b => b
  | VNum z => negb (z =? 0)
  | VFloat r => negb (String.eqb r "0.0" || String.eqb r "-0.0")
  | VStr s => negb (String.eqb s "")
  | VColor _ => true
  | VPageSize _ => true
  end.

(** [base.update(d)] and [{**base, **d}]: the entries of [d] win. *)
Definition update (base d : dict) : dict := d ∪ base.

(** [d.get(k, default)]. *)
Definition get (d : dict) (k : string) (default : value) : value :=
  match d !! k with
  | Some v => v
  | None => default
  end.

Definition TA_LEFT : Z := 0.
Definition TA_CENTER : Z := 1.
Definition TA_RIGHT : Z := 2.
Definition TA_JUSTIFY : Z := 4.

Definition ALIGN_MAP : gmap string Z :=
  list_to_map [("LEFT", TA_LEFT); ("CENTER", TA_CENTER);
               ("RIGHT", TA_RIGHT); ("JUSTIFY", TA_JUSTIFY)]%string.

Definition PAGE_SIZE_MAP : gmap string pagesize :=
  list_to_map [("A4", A4); ("LETTER", LETTER); ("A3", A3)]%string.

(** [ALIGN_MAP.get(token, TA_JUSTIFY)]. *)
Definition align_of (token : string) : value :=
  VNum (default TA_JUSTIFY (ALIGN_MAP !! token)).

(** [PAGE_SIZE_MAP.get(token, A4)]. *)
Definition named_page_size (token : string) : value :=
  VPageSize (default A4 (PAGE_SIZE_MAP !! token)).

(** The capital of an ASCII letter; any other character is kept. *)
Definition upper_ascii (c : ascii) : ascii :=
  let n := nat_of_ascii c in
  if ((97 <=? n) && (n <=? 122))%nat then ascii_of_nat (n - 32) else c.

Fixpoint ascii_upper (s : string) : string :=
  match s with
  | EmptyString => EmptyString
  | String c s' => String (upper_ascii c) (ascii_upper s')
  end.

(** The string has ASCII characters alone (a string is held as the bytes
    of its UTF-8 form). *)
Fixpoint ascii_only (s : string) : bool :=
  match s with
  | EmptyString => true
  | String c s' => (nat_of_ascii c <? 128)%nat && ascii_only s'
  end.

(** What the libraries outside the repository do with a string. *)
Class Library := {
  (** [s.upper()], which follows Unicode; on a string of ASCII characters
      it is the capitals of a-z. *)
  str_upper : string -> string;
  str_upper_ascii : forall s, ascii_only s = true -> str_upper s = ascii_upper s;
  (** Whether [colors.HexColor(token)] returns; it raises [ValueError] on
      a token it cannot read. *)
  hex_color : string -> bool;
  (** Whether [float(token)] returns; it raises [ValueError] otherwise. *)
  parses_float : string -> bool
}.

Fixpoint contains_comma (s : string) : bool :=
  match s with
  | EmptyString => false
  | String c s' => Ascii.eqb c "," || contains_comma s'
  end.

(** [s.split(',')]. *)
Fixpoint split_comma (s : string) : list string :=
  match s with
  | EmptyString => [EmptyString]
  | String c s' =>
      if Ascii.eqb c "," then EmptyString :: split_comma s'
      else match split_comma s' with
           | piece :: pieces => String c piece :: pieces
           | [] => [String c EmptyString]
           end
  end.

(** [if k in d and isinstance(d[k], str): d[k] = f(d[k])]. *)
Definition convert_str (f : string -> value) (k : string) (d : dict) : dict :=
  match d !! k with
  | Some (VStr s) => <[k := f s]> d
  | _ => d
  end.

(** The same with a conversion that can raise [ValueError]: [None] then. *)
Definition convert_checked (f : string -> option value) (k : string) (d : dict)
    : option dict :=
  match d !! k with
  | Some (VStr s) => (fun v => <[k := v]> d) <$> f s
  | _ => Some d
  end.

(** The conversion of one field, as [convert_str] applies it. *)
Definition converted (f : string -> value) (v : value) : value :=
  match v with
  | VStr s => f s
  | _ => v
  end.

(** What the conversions of [scripts/word2png_function.py] make of a
    field when none of them raises. *)
Definition item_field (k : string) (v : value) : value :=
  if String.eqb k "page-size" then converted (fun s => VPageSize (ParsedWH s)) v
  else if String.eqb k "page-bg-color" then converted VColor v
  else if String.eqb k "font-color" then converted VColor v
  else if String.eqb k "para-bg-color" then converted VColor v
  else if String.eqb k "para-border-color" then converted VColor v
  else if String.eqb k "alignment" then converted align_of v
  else v.

(** The dict they make of a configuration when none of them raises. *)
Definition converted_config (config : dict) : dict :=
  let config := convert_str VColor "page-bg-color" config in
  let config := convert_str VColor "font-color" config in
  let config := convert_str VColor "para-bg-color" config in
  let config := convert_str VColor "para-border-color" config in
  let config := convert_str align_of "alignment" config in
  let config := convert_str (fun s => VPageSize (ParsedWH s)) "page-size" config in
  config.

Definition overwrite_from (item_config : dict) (f : string -> value) (k : string)
    (config : dict) : dict :=
  match item_config !! k with
  | Some (VStr s) => <[k := f s]> config
  | _ => config
  end.

(** [if k in item_config and isinstance(item_config[k], str):
    config[k] = f(item_config[k])], [None] when [f] raises. *)
Definition overwrite_checked (item_config : dict) (f : string -> option value)
    (k : string) (config : dict) : option dict :=
  match item_config !! k with
  | Some (VStr s) => (fun v => <[k := v]> config) <$> f s
  | _ => Some config
  end.

(** The configuration of an item when no conversion raises. *)
Definition merged_config (GLOBAL_CONFIG item_config : dict) : dict :=
  let config := update GLOBAL_CONFIG item_config in
  let config := overwrite_from item_config (fun s => VPageSize (ParsedWH s)) "page-size" config in
  let config := overwrite_from item_config VColor "page-bg-color" config in
  let config := overwrite_from item_config VColor "font-color" config in
  let config := overwrite_from item_config VColor "para-bg-color" config in
  let config := overwrite_from item_config VColor "para-border-color" config in
  let config := overwrite_from item_config align_of "alignment" config in
  config.

(** The keyword arguments of [convert_text_to_images] that enter the
    configuration, as a call gives them: [None] for an argument the caller
    left out, which then takes the default of the signature. [font_path]
    is the font path after the checks at the head of the function. *)
Record call := Call {
  font_path : string;
  font_size : option value;
  dpi : option value;
  page_size : option string;
  margin : option value;
  text_color : option string;
  bg_color : option string;
  alignment : option string;
  auto_crop : option value
}.

Definition override_field (k : string) (v : value) : value :=
  if String.eqb k "font-color" then converted VColor v
  else if String.eqb k "page-bg-color" then converted VColor v
  else if String.eqb k "alignment" then converted align_of v
  else v.

Section Loaders.
Context `{L : Library}.

(** ** [scripts/word2png_function.py] *)

(** [colors.HexColor(token)]. *)
Definition HexColor (token : string) : option value :=
  if hex_color token then Some (VColor token) else None.

(** [tuple(map(float, token.split(',')))]. *)
Definition float_tuple (token : string) : option value :=
  if forallb parses_float (split_comma token)
  then Some (VPageSize (ParsedWH token))
  else None.

(** [ALIGN_MAP.get(token, TA_JUSTIFY)], which never raises. *)
Definition alignment_of (token : string) : option value := Some (align_of token).

(** The conversions [load_config] applies to the dict read from the file,
    and [text_to_images] to a copy of [config_dict]: the four colours, the
    alignment, the page size, in this order; [None] when one of them
    raises [ValueError]. *)
Definition convert_special (config : dict) : option dict :=
  config ← convert_checked HexColor "page-bg-color" config;
  config ← convert_checked HexColor "font-color" config;
  config ← convert_checked HexColor "para-bg-color" config;
  config ← convert_checked HexColor "para-border-color" config;
  config ← convert_checked alignment_of "alignment" config;
  convert_checked float_tuple "page-size" config.

(** [load_config(config_path)] on the dict the file holds. *)
Definition load_config (file : dict) : option dict := convert_special file.

(** The configuration of one item in [process_one]:
<<
    item_config = item.get('config', {}) or {}
    config = {**GLOBAL_CONFIG, **item_config}
    if 'page-size' in item_config and isinstance(item_config['page-size'], str):
        config['page-size'] = tuple(map(float, item_config['page-size'].split(',')))
    ... (the four colours, the alignment)
>>
    [None] when a conversion raises [ValueError]. *)
Definition item_config_of (GLOBAL_CONFIG item_config : dict) : option dict :=
  let config := update GLOBAL_CONFIG item_config in
  config ← overwrite_checked item_config float_tuple "page-size" config;
  config ← overwrite_checked item_config HexColor "page-bg-color" config;
  config ← overwrite_checked item_config HexColor "font-color" config;
  config ← overwrite_checked item_config HexColor "para-bg-color" config;
  config ← overwrite_checked item_config HexColor "para-border-color" config;
  overwrite_checked item_config alignment_of "alignment" config.

(** ** [simple_text2img/text_to_image.py] *)

(** This renderer is followed for the layer a field comes from: its
    colour tokens are kept as they are, whether or not [HexColor] reads
    them. *)

(** The conversions of [load_config_from_file]. *)
Definition file_page_size (s : string) : value :=
  if contains_comma s then VPageSize (ParsedWH s) else named_page_size (str_upper s).

Definition load_config_from_file (file : dict) : dict :=
  let config := convert_str file_page_size "page-size" file in
  let config := convert_str align_of "alignment" config in
  let config := convert_str VColor "font-color" config in
  let config := convert_str VColor "page-bg-color" config in
  let config := convert_str VColor "para-bg-color" config in
  let config := convert_str VColor "para-border-color" config in
  config.

(** The dict of the second [base_config.update({...})], with the defaults
    of the signature: [font_size=9, dpi=72, page_size='A4', margin=5,
    text_color='#000000', bg_color='#FFFFFF', alignment='JUSTIFY',
    auto_crop=False]. *)
Definition explicit_layer (c : call) : dict :=
  let font_size := default (VNum 9) (font_size c) in
  let dpi := default (VNum 72) (dpi c) in
  let page_size := default "A4"%string (page_size c) in
  let margin := default (VNum 5) (margin c) in
  let text_color := default "#000000"%string (text_color c) in
  let bg_color := default "#FFFFFF"%string (bg_color c) in
  let alignment := default "JUSTIFY"%string (alignment c) in
  let auto_crop := default (VBool false) (auto_crop c) in
  list_to_map [
    ("font-path", VStr (font_path c));
    ("font-size", font_size);
    ("dpi", dpi);
    ("page-size", named_page_size (str_upper page_size));
    ("margin-x", margin);
    ("margin-y", margin);
    ("font-color", VColor text_color);
    ("page-bg-color", VColor bg_color);
    ("para-bg-color", VColor bg_color);
    ("para-border-color", VColor bg_color);
    ("alignment", align_of (str_upper alignment));
    ("auto-crop-last-page", auto_crop);
    ("auto-crop-width", auto_crop);
    ("horizontal-scale", VFloat "1.0")
  ]%string.

(** The value a call passes for a configuration key, if it passes one. *)
Definition passed (c : call) (k : string) : option value :=
  if String.eqb k "font-path" then Some (VStr (font_path c))
  else if String.eqb k "font-size" then font_size c
  else if String.eqb k "dpi" then dpi c
  else if String.eqb k "page-size"
       then (fun s => named_page_size (str_upper s)) <$> page_size c
  else if String.eqb k "margin-x" then margin c
  else if String.eqb k "margin-y" then margin c
  else if String.eqb k "font-color" then VColor <$> text_color c
  else if String.eqb k "page-bg-color" then VColor <$> bg_color c
  else if String.eqb k "para-bg-color" then VColor <$> bg_color c
  else if String.eqb k "para-border-color" then VColor <$> bg_color c
  else if String.eqb k "alignment" then (fun s => align_of (str_upper s)) <$> alignment c
  else if String.eqb k "auto-crop-last-page" then auto_crop c
  else if String.eqb k "auto-crop-width" then auto_crop c
  else None.

(** The conversions applied to the [config] argument before it is merged. *)
Definition convert_override (config : dict) : dict :=
  let config := convert_str VColor "font-color" config in
  let config := convert_str VColor "page-bg-color" config in
  let config := convert_str align_of "alignment" config in
  config.

(** The base configuration of [convert_text_to_images]:
<<
    # 优先级：显式参数 > config参数 > 配置文件 > 默认值
    base_config = {}
    if file_config:
        base_config.update(file_config)
    base_config.update({'font-path': font_path, 'font-size': font_size, ...})
    if config:
        ... (convert the colours and the alignment of config)
        base_config.update(config)
>>
    The comment gives the order explicit arguments, [config], configuration
    file, defaults. [file_config] is [{}] when no file is given, [config]
    is [None] by default; an empty dict is falsy, and updating with it
    changes nothing. *)
Definition resolve (file_config : dict) (c : call) (config : option dict) : dict :=
  let base_config : dict := ∅ in
  let base_config := update base_config file_config in
  let base_config := update base_config (explicit_layer c) in
  match config with
  | Some config => update base_config (convert_override config)
  | None => base_config
  end.

(** The call with its page size and alignment keywords in upper case. *)
Definition upper_keywords (c : call) : call :=
  {| font_path := font_path c; font_size := font_size c; dpi := dpi c;
     page_size := str_upper <$> page_size c; margin := margin c;
     text_color := text_color c; bg_color := bg_color c;
     alignment := str_upper <$> alignment c; auto_crop := auto_crop c |}.

End Loaders.

(** A call that passes [font_size=9] together with
    [config={'font-size': 12}]. *)
Definition sized_call : call :=
  Call "font.ttf" (Some (VNum 9)) None None None None None None None.

Definition size_override : dict := {[ "font-size"%string := VNum 12 ]}.

(** A call that leaves every optional argument out, and a configuration
    file that sets the font size and the horizontal scale. *)
Definition plain_call : call :=
  Call "font.ttf" None None None None None None None None.

Definition sized_file : dict :=
  {[ "font-size"%string := VNum 20; "horizontal-scale"%string := VFloat "0.8" ]}.

(** The fields whose value may come as a token. *)
Definition special_keys : list string :=
  ["page-size"; "page-bg-color"; "font-color"; "para-bg-color";
   "para-border-color"; "alignment"]%string.

(** The keys [convert_text_to_images] reads with a subscript
    ([base_config['page-size']] and the like), which raises on a missing
    key. *)
Definition subscripted_keys : list string :=
  ["page-size"; "margin-x"; "margin-y"; "font-size"; "font-color";
   "para-bg-color"; "para-border-color"; "alignment"; "page-bg-color";
   "dpi"; "auto-crop-width"; "auto-crop-last-page"]%string.

(** ** A library for the concrete runs *)

Definition is_digit (c : ascii) : bool :=
  ((48 <=? nat_of_ascii c) && (nat_of_ascii c <=? 57))%nat.

Definition is_hex_digit (c : ascii) : bool :=
  let n := nat_of_ascii c in
  (((48 <=? n) && (n <=? 57)) || ((65 <=? n) && (n <=? 70))
   || ((97 <=? n) && (n <=? 102)))%nat.

Fixpoint string_forallb (p : ascii -> bool) (s : string) : bool :=
  match s with
  | EmptyString => true
  | String c s' => p c && string_forallb p s'
  end.

(** [#] and six hexadecimal digits. *)
Definition six_digit_colour (s : string) : bool :=
  match s with
  | String "#" digits => string_forallb is_hex_digit digits && (String.length digits =? 6)%nat
  | _ => false
  end.

(** Digits, with at most one point among them. *)
Fixpoint plain_decimal (seen_digit seen_point : bool) (s : string) : bool :=
  match s with
  | EmptyString => seen_digit
  | String c s' =>
      if is_digit c then plain_decimal true seen_point s'
      else if Ascii.eqb c "." then negb seen_point && plain_decimal seen_digit true s'
      else false
  end.

(** The library as far as these tokens go: capitals of a-z, colours
    written [#RRGGBB], numbers written with digits and a point (the real
    library reads more spellings). *)
Definition ascii_library : Library :=
  {| str_upper := ascii_upper;
     str_upper_ascii := fun s _ => eq_refl;
     hex_color := six_digit_colour;
     parses_float := plain_decimal false false |}.

(** ** Which layer wins *)

Lemma lookup_update (base d : dict) k :
  update base d !! k = match d !! k with Some v => Some v | None => base !! k end.
Proof.
  unfold update. rewrite lookup_union.
  destruct (d !! k), (base !! k); reflexivity.
Qed.

Lemma lookup_convert_str f k (d : dict) j :
  convert_str f k d !! j =
  if decide (k = j) then converted f <$> d !! j else d !! j.
Proof.
  unfold convert_str. destruct (decide (k = j)) as [->|Hne].
  - destruct (d !! j) as [[]|] eqn:E; rewrite ?E; try reflexivity.
    now rewrite lookup_insert_eq.
  - destruct (d !! k) as [[]|] eqn:E; try reflexivity.
    now rewrite lookup_insert_ne.
Qed.

Lemma lookup_overwrite_from (item_config : dict) f k (config : dict) j :
  overwrite_from item_config f k config !! j =
  if decide (k = j)
  then match item_config !! j with
       | Some (VStr s) => Some (f s)
       | _ => config !! j
       end
  else config !! j.
Proof.
  unfold overwrite_from. destruct (decide (k = j)) as [->|Hne].
  - destruct (item_config !! j) as [[]|]; try reflexivity.
    now rewrite lookup_insert_eq.
  - destruct (item_config !! k) as [[]|]; try reflexivity.
    now rewrite lookup_insert_ne.
Qed.

Lemma item_field_other k v :
  k <> "page-size"%string -> k <> "page-bg-color"%string ->
  k <> "font-color"%string -> k <> "para-bg-color"%string ->
  k <> "para-border-color"%string -> k <> "alignment"%string ->
  item_field k v = v.
Proof.
  intros H1 H2 H3 H4 H5 H6. unfold item_field.
  now rewrite (proj2 (String.eqb_neq _ _) H1), (proj2 (String.eqb_neq _ _) H2),
    (proj2 (String.eqb_neq _ _) H3), (proj2 (String.eqb_neq _ _) H4),
    (proj2 (String.eqb_neq _ _) H5), (proj2 (String.eqb_neq _ _) H6).
Qed.

Lemma lookup_overwrite_from_ne (item_config : dict) f k (config : dict) j :
  k <> j -> overwrite_from item_config f k config !! j = config !! j.
Proof. intros H. rewrite lookup_overwrite_from. now rewrite decide_False. Qed.

Lemma lookup_overwrite_from_eq (item_config : dict) f k (config : dict) :
  overwrite_from item_config f k config !! k =
  match item_config !! k with
  | Some (VStr s) => Some (f s)
  | _ => config !! k
  end.
Proof. rewrite lookup_overwrite_from. now rewrite decide_True. Qed.

Ltac item_key :=
  repeat (rewrite lookup_overwrite_from_ne by discriminate);
  rewrite lookup_overwrite_from_eq;
  repeat (rewrite lookup_overwrite_from_ne by discriminate);
  rewrite lookup_update;
  match goal with |- context [?d !! ?k] => destruct (d !! k) as [[]|] end;
  reflexivity.

Lemma lookup_merged_config (GLOBAL_CONFIG item_config : dict) k :
  merged_config GLOBAL_CONFIG item_config !! k =
  match item_config !! k with
  | Some v => Some (item_field k v)
  | None => GLOBAL_CONFIG !! k
  end.
Proof.
  unfold merged_config.
  destruct (decide ("alignment"%string = k)) as [<-|?]; [item_key|].
  destruct (decide ("para-border-color"%string = k)) as [<-|?]; [item_key|].
  destruct (decide ("para-bg-color"%string = k)) as [<-|?]; [item_key|].
  destruct (decide ("font-color"%string = k)) as [<-|?]; [item_key|].
  destruct (decide ("page-bg-color"%string = k)) as [<-|?]; [item_key|].
  destruct (decide ("page-size"%string = k)) as [<-|?]; [item_key|].
  repeat (rewrite lookup_overwrite_from_ne by assumption).
  rewrite lookup_update.
  destruct (item_config !! k) as [v|]; [|reflexivity].
  f_equal. symmetry. apply item_field_other; congruence.
Qed.

Lemma lookup_converted_config (config : dict) k :
  converted_config config !! k = item_field k <$> config !! k.
Proof.
  unfold converted_config, item_field. cbv zeta.
  rewrite !lookup_convert_str.
  destruct (String.eqb_spec k "page-size") as [->|?].
  { cbn. now destruct (config !! "page-size"%string). }
  rewrite (decide_False (P := ("page-size"%string = k))) by congruence.
  destruct (String.eqb_spec k "page-bg-color") as [->|?].
  { cbn. now destruct (config !! "page-bg-color"%string). }
  rewrite (decide_False (P := ("page-bg-color"%string = k))) by congruence.
  destruct (String.eqb_spec k "font-color") as [->|?].
  { cbn. now destruct (config !! "font-color"%string). }
  rewrite (decide_False (P := ("font-color"%string = k))) by congruence.
  destruct (String.eqb_spec k "para-bg-color") as [->|?].
  { cbn. now destruct (config !! "para-bg-color"%string). }
  rewrite (decide_False (P := ("para-bg-color"%string = k))) by congruence.
  destruct (String.eqb_spec k "para-border-color") as [->|?].
  { cbn. now destruct (config !! "para-border-color"%string). }
  rewrite (decide_False (P := ("para-border-color"%string = k))) by congruence.
  destruct (String.eqb_spec k "alignment") as [->|?].
  { cbn. now destruct (config !! "alignment"%string). }
  rewrite (decide_False (P := ("alignment"%string = k))) by congruence.
  now destruct (config !! k).
Qed.

Lemma item_field_idem k v : item_field k (item_field k v) = item_field k v.
Proof.
  unfold item_field.
  repeat (match goal with |- context [String.eqb k ?s] => destruct (String.eqb k s) end;
          [now destruct v|]).
  reflexivity.
Qed.

Lemma item_field_special k v s : k ∈ special_keys -> item_field k v <> VStr s.
Proof.
  intros Hk. unfold special_keys in Hk.
  repeat (apply elem_of_cons in Hk; destruct Hk as [->|Hk];
          [now destruct v|]).
  now apply elem_of_nil in Hk.
Qed.

Lemma override_field_converted k v s :
  k ∈ ["alignment"; "font-color"; "page-bg-color"]%string ->
  override_field k v <> VStr s.
Proof.
  intros Hk.
  repeat (apply elem_of_cons in Hk; destruct Hk as [->|Hk];
          [now destruct v|]).
  now apply elem_of_nil in Hk.
Qed.

Lemma upper_ascii_idem c : upper_ascii (upper_ascii c) = upper_ascii c.
Proof. destruct c as [[] [] [] [] [] [] [] []]; reflexivity. Qed.

Lemma ascii_upper_idem s : ascii_upper (ascii_upper s) = ascii_upper s.
Proof.
  induction s as [|c s IH]; [reflexivity|].
  cbn [ascii_upper]. now rewrite upper_ascii_idem, IH.
Qed.

Lemma upper_ascii_only c :
  (nat_of_ascii c <? 128)%nat = true -> (nat_of_ascii (upper_ascii c) <? 128)%nat = true.
Proof. destruct c as [[] [] [] [] [] [] [] []]; intros H; try reflexivity; exact H. Qed.

Lemma ascii_upper_only s : ascii_only s = true -> ascii_only (ascii_upper s) = true.
Proof.
  induction s as [|c s IH]; [reflexivity|].
  cbn [ascii_only ascii_upper]. intros [Hc Hs]%andb_prop.
  now rewrite (upper_ascii_only c Hc), (IH Hs).
Qed.

(** ** When the conversions return *)

Lemma convert_checked_Some f g k (d d' : dict) :
  (forall s v, f s = Some v -> v = g s) ->
  convert_checked f k d = Some d' -> d' = convert_str g k d.
Proof.
  intros Hfg. unfold convert_checked, convert_str.
  destruct (d !! k) as [[| | | |s| |]|]; try (now intros [= <-]).
  destruct (f s) as [v|] eqn:E; cbn; [|discriminate].
  intros [= <-]. now rewrite (Hfg s v E).
Qed.

Lemma overwrite_checked_Some f g (item_config : dict) k (d d' : dict) :
  (forall s v, f s = Some v -> v = g s) ->
  overwrite_checked item_config f k d = Some d' -> d' = overwrite_from item_config g k d.
Proof.
  intros Hfg. unfold overwrite_checked, overwrite_from.
  destruct (item_config !! k) as [[| | | |s| |]|]; try (now intros [= <-]).
  destruct (f s) as [v|] eqn:E; cbn; [|discriminate].
  intros [= <-]. now rewrite (Hfg s v E).
Qed.

Lemma convert_checked_settled f k (d : dict) :
  (forall s, d !! k <> Some (VStr s)) -> convert_checked f k d = Some d.
Proof.
  intros H. unfold convert_checked.
  destruct (d !! k) as [[| | | |s| |]|]; try reflexivity. now destruct (H s).
Qed.

Section LoaderFacts.
Context `{L : Library}.

Lemma HexColor_Some s v : HexColor s = Some v -> v = VColor s.
Proof. unfold HexColor. destruct (hex_color s); now intros [= <-]. Qed.

Lemma float_tuple_Some s v : float_tuple s = Some v -> v = VPageSize (ParsedWH s).
Proof.
  unfold float_tuple. destruct (forallb parses_float (split_comma s)); now intros [= <-].
Qed.

Lemma alignment_of_Some s v : alignment_of s = Some v -> v = align_of s.
Proof. now intros [= <-]. Qed.

(** When the conversions return, they return the converted dict. *)
Lemma convert_special_Some (config config' : dict) :
  convert_special config = Some config' -> config' = converted_config config.
Proof.
  unfold convert_special, converted_config. intros H.
  apply bind_Some in H as (d1 & H1 & H).
  apply bind_Some in H as (d2 & H2 & H).
  apply bind_Some in H as (d3 & H3 & H).
  apply bind_Some in H as (d4 & H4 & H).
  apply bind_Some in H as (d5 & H5 & H).
  apply (convert_checked_Some _ VColor _ _ _ HexColor_Some) in H1, H2, H3, H4.
  apply (convert_checked_Some _ align_of _ _ _ alignment_of_Some) in H5.
  apply (convert_checked_Some _ (fun s => VPageSize (ParsedWH s)) _ _ _ float_tuple_Some) in H.
  now subst.
Qed.

Lemma item_config_of_Some (GLOBAL_CONFIG item_config config : dict) :
  item_config_of GLOBAL_CONFIG item_config = Some config ->
  config = merged_config GLOBAL_CONFIG item_config.
Proof.
  unfold item_config_of, merged_config. cbv zeta. intros H.
  apply bind_Some in H as (d1 & H1 & H).
  apply bind_Some in H as (d2 & H2 & H).
  apply bind_Some in H as (d3 & H3 & H).
  apply bind_Some in H as (d4 & H4 & H).
  apply bind_Some in H as (d5 & H5 & H).
  apply (overwrite_checked_Some _ (fun s => VPageSize (ParsedWH s)) _ _ _ _ float_tuple_Some) in H1.
  apply (overwrite_checked_Some _ VColor _ _ _ _ HexColor_Some) in H2, H3, H4, H5.
  apply (overwrite_checked_Some _ align_of _ _ _ _ alignment_of_Some) in H.
  now subst.
Qed.

(** A configuration without a token in the six fields goes through the
    conversions as it is. *)
Lemma convert_special_settled (config : dict) :
  Forall (fun k => forall s, config !! k <> Some (VStr s)) special_keys ->
  convert_special config = Some config.
Proof.
  intros H. unfold convert_special.
  assert (Hk : forall k, k ∈ special_keys -> forall s, config !! k <> Some (VStr s))
    by (intros k Hk; exact (proj1 (Forall_forall _ _) H k Hk)).
  repeat (rewrite convert_checked_settled
            by (apply Hk; unfold special_keys; set_solver);
          cbn [mbind option_bind]).
  reflexivity.
Qed.

(** A page size token that [float] does not read makes the conversions
    raise, whatever the other fields. *)
Lemma convert_special_page_size (config : dict) s :
  config !! "page-size"%string = Some (VStr s) ->
  float_tuple s = None ->
  convert_special config = None.
Proof.
  intros Hs Hf. destruct (convert_special config) as [config'|] eqn:E; [|reflexivity].
  exfalso. unfold convert_special in E.
  apply bind_Some in E as (d1 & H1 & E).
  apply bind_Some in E as (d2 & H2 & E).
  apply bind_Some in E as (d3 & H3 & E).
  apply bind_Some in E as (d4 & H4 & E).
  apply bind_Some in E as (d5 & H5 & E).
  apply (convert_checked_Some _ VColor _ _ _ HexColor_Some) in H1, H2, H3, H4.
  apply (convert_checked_Some _ align_of _ _ _ alignment_of_Some) in H5.
  assert (Hd5 : d5 !! "page-size"%string = Some (VStr s)).
  { subst. rewrite !lookup_convert_str.
    repeat (rewrite decide_False by discriminate). exact Hs. }
  unfold convert_checked in E. rewrite Hd5, Hf in E. discriminate.
Qed.

Lemma lookup_convert_override (config : dict) k :
  convert_override config !! k = override_field k <$> config !! k.
Proof.
  unfold convert_override, override_field.
  rewrite !lookup_convert_str.
  destruct (String.eqb_spec k "alignment") as [->|?].
  { cbn. now destruct (config !! "alignment"%string). }
  rewrite (decide_False (P := ("alignment"%string = k))) by congruence.
  destruct (String.eqb_spec k "page-bg-color") as [->|?].
  { cbn. now destruct (config !! "page-bg-color"%string). }
  rewrite (decide_False (P := ("page-bg-color"%string = k))) by congruence.
  destruct (String.eqb_spec k "font-color") as [->|?].
  { cbn. now destruct (config !! "font-color"%string). }
  rewrite (decide_False (P := ("font-color"%string = k))) by congruence.
  now destruct (config !! k).
Qed.

Ltac lookup_layer :=
  unfold explicit_layer; cbv zeta; unfold list_to_map;
  cbn [fold_right fst snd];
  repeat (rewrite lookup_insert_ne by discriminate);
  rewrite lookup_insert_eq.

Ltac passed_key c k key :=
  destruct (String.eqb_spec k key) as [->|?];
  [intros H; lookup_layer;
   first [ exact H | now rewrite H
         | now (destruct (page_size c); inversion H)
         | now (destruct (text_color c); inversion H)
         | now (destruct (bg_color c); inversion H)
         | now (destruct (alignment c); inversion H) ]|].

Lemma passed_explicit (c : call) k v :
  passed c k = Some v -> explicit_layer c !! k = Some v.
Proof.
  unfold passed.
  passed_key c k "font-path"%string.
  passed_key c k "font-size"%string.
  passed_key c k "dpi"%string.
  passed_key c k "page-size"%string.
  passed_key c k "margin-x"%string.
  passed_key c k "margin-y"%string.
  passed_key c k "font-color"%string.
  passed_key c k "page-bg-color"%string.
  passed_key c k "para-bg-color"%string.
  passed_key c k "para-border-color"%string.
  passed_key c k "alignment"%string.
  passed_key c k "auto-crop-last-page"%string.
  passed_key c k "auto-crop-width"%string.
  discriminate.
Qed.

Lemma lookup_resolve (file_config : dict) (c : call) (config : option dict) k :
  resolve file_config c config !! k =
  match config ≫= (.!! k) with
  | Some v => Some (override_field k v)
  | None =>
      match explicit_layer c !! k with
      | Some v => Some v
      | None => file_config !! k
      end
  end.
Proof.
  unfold resolve. destruct config as [config|]; cbv zeta.
  - change (Some config ≫= (.!! k)) with (config !! k).
    rewrite lookup_update, lookup_convert_override.
    destruct (config !! k); cbn [fmap option_fmap option_map]; [reflexivity|].
    rewrite !lookup_update. destruct (explicit_layer c !! k); [reflexivity|].
    destruct (file_config !! k); [reflexivity|]. apply lookup_empty.
  - change (None ≫= (.!! k)) with (@None value).
    rewrite !lookup_update. destruct (explicit_layer c !! k); [reflexivity|].
    destruct (file_config !! k); [reflexivity|]. apply lookup_empty.
Qed.

(** The layers of [convert_text_to_images] as the code applies them: a
    field of the override map [config] is taken from it (after the
    conversion of colour and alignment tokens); otherwise the explicit
    layer gives it, which holds the arguments of the call and the defaults
    of the signature for those left out; the configuration file is
    looked at only for a field that neither has. In [process_one] a field
    of the item's override wins over the shared file configuration, when
    the conversions return. *)
Lemma layers_of_resolve
    (file_config config GLOBAL_CONFIG item_config merged : dict) (c : call) (k : string) :
  (forall v, config !! k = Some v ->
     resolve file_config c (Some config) !! k = Some (override_field k v))
  /\ (forall v, config !! k = None -> passed c k = Some v ->
        resolve file_config c (Some config) !! k = Some v)
  /\ (forall v, passed c k = Some v -> resolve file_config c None !! k = Some v)
  /\ (forall v, config !! k = None -> explicit_layer c !! k = Some v ->
        resolve file_config c (Some config) !! k = Some v)
  /\ (config !! k = None -> explicit_layer c !! k = None ->
        resolve file_config c (Some config) !! k = file_config !! k)
  /\ (item_config_of GLOBAL_CONFIG item_config = Some merged ->
      forall v, item_config !! k = Some v -> merged !! k = Some (item_field k v))
  /\ (item_config_of GLOBAL_CONFIG item_config = Some merged ->
      item_config !! k = None -> merged !! k = GLOBAL_CONFIG !! k).
Proof.
  repeat split.
  - intros v Hv. rewrite lookup_resolve. cbn [mbind option_bind]. now rewrite Hv.
  - intros v Hk Hp. rewrite lookup_resolve. cbn [mbind option_bind]. rewrite Hk.
    now rewrite (passed_explicit c k v Hp).
  - intros v Hp. rewrite lookup_resolve. cbn [mbind option_bind].
    now rewrite (passed_explicit c k v Hp).
  - intros v Hk He. rewrite lookup_resolve. cbn [mbind option_bind].
    now rewrite Hk, He.
  - intros Hk He. rewrite lookup_resolve. cbn [mbind option_bind].
    now rewrite Hk, He.
  - intros Hm v Hv. rewrite (item_config_of_Some _ _ _ Hm).
    now rewrite lookup_merged_config, Hv.
  - intros Hm Hk. rewrite (item_config_of_Some _ _ _ Hm).
    now rewrite lookup_merged_config, Hk.
Qed.

(** C2. The claim's order breaks on the code. A call that passes
    [font_size=9] together with [config={'font-size': 12}] gets font size
    12: the override map wins over the explicit argument. A call that
    leaves [font_size] out, with a configuration file that sets font size
    20 and horizontal scale 0.8, gets the signature's default 9 and the
    fixed scale 1.0: the defaults win over the file. *)
Theorem explicit_argument_overridden :
  passed sized_call "font-size" = Some (VNum 9)
  /\ size_override !! "font-size"%string = Some (VNum 12)
  /\ resolve ∅ sized_call (Some size_override) !! "font-size"%string
     = Some (VNum 12)
  /\ passed plain_call "font-size" = None
  /\ sized_file !! "font-size"%string = Some (VNum 20)
  /\ resolve sized_file plain_call None !! "font-size"%string = Some (VNum 9)
  /\ resolve sized_file plain_call None !! "horizontal-scale"%string
     = Some (VFloat "1.0").
Proof.
  split; [reflexivity|]. split; [apply lookup_singleton_eq|].
  split.
  { rewrite lookup_resolve. cbn [mbind option_bind]. unfold size_override.
    now rewrite lookup_singleton_eq. }
  split; [reflexivity|]. split; [reflexivity|].
  split; rewrite lookup_resolve; cbn [mbind option_bind]; lookup_layer; reflexivity.
Qed.

(** ** What the conversions leave behind *)

(** X10. The configuration [process_one] builds from the loaded file
    configuration and the item's override is fully converted: none of
    the six token fields holds a string any more, so the conversions
    that [text_to_images] applies again return and change nothing; nor
    do they change what [load_config] returned. *)
Theorem conversions_settle (file item_config GLOBAL_CONFIG config : dict) :
  load_config file = Some GLOBAL_CONFIG ->
  item_config_of GLOBAL_CONFIG item_config = Some config ->
  convert_special GLOBAL_CONFIG = Some GLOBAL_CONFIG
  /\ convert_special config = Some config
  /\ Forall (fun k => forall s, config !! k <> Some (VStr s)) special_keys.
Proof.
  intros HG Hc. unfold load_config in HG.
  apply convert_special_Some in HG. apply item_config_of_Some in Hc.
  assert (H1 : Forall (fun k => forall s, GLOBAL_CONFIG !! k <> Some (VStr s))
                 special_keys).
  { apply Forall_forall. intros k Hk s. rewrite HG, lookup_converted_config.
    destruct (file !! k) as [v|]; cbn; [|discriminate].
    intros [= H]. now apply (item_field_special k v s). }
  assert (H2 : Forall (fun k => forall s, config !! k <> Some (VStr s)) special_keys).
  { apply Forall_forall. intros k Hk s. rewrite Hc, lookup_merged_config.
    destruct (item_config !! k) as [v|].
    - intros [= H]. now apply (item_field_special k v s).
    - exact (proj1 (Forall_forall _ _) H1 k Hk s). }
  split; [now apply convert_special_settled|].
  split; [now apply convert_special_settled|exact H2].
Qed.

Lemma explicit_layer_subscripted (c : call) :
  Forall (fun k => is_Some (explicit_layer c !! k)) subscripted_keys.
Proof. repeat constructor; lookup_layer; eauto. Qed.

(** X11. Whatever the configuration file, the arguments and the override
    map, the resolved configuration of [convert_text_to_images] has every
    key the function reads with a subscript, so none of those reads can
    fail; and its alignment, font colour and page background are never a
    raw string. *)
Theorem resolve_complete (file_config : dict) (c : call) (config : option dict) :
  Forall (fun k => is_Some (resolve file_config c config !! k)) subscripted_keys
  /\ Forall (fun k => forall s,
               resolve file_config c config !! k <> Some (VStr s))
            ["alignment"; "font-color"; "page-bg-color"]%string.
Proof.
  split.
  - eapply Forall_impl; [apply (explicit_layer_subscripted c)|].
    intros k [v Hv]. rewrite lookup_resolve, Hv.
    destruct (config ≫= (.!! k)); eauto.
  - apply Forall_forall. intros k Hk s. rewrite lookup_resolve.
    destruct (config ≫= (.!! k)) as [v|].
    + intros [= H]. now apply (override_field_converted k v s).
    + repeat (apply elem_of_cons in Hk; destruct Hk as [->|Hk];
              [lookup_layer; discriminate|]).
      now apply elem_of_nil in Hk.
Qed.

Lemma str_upper_idem s : ascii_only s = true -> str_upper (str_upper s) = str_upper s.
Proof.
  intros H. rewrite (str_upper_ascii s H).
  rewrite (str_upper_ascii _ (ascii_upper_only s H)). apply ascii_upper_idem.
Qed.

(** X12. The page size and alignment keywords passed as arguments of
    [convert_text_to_images] are read without regard to case, as far as
    [str.upper] goes: for keywords of ASCII characters the resolved
    configuration is the same as for the upper-case keywords. *)
Theorem argument_keywords_ignore_case
    (file_config : dict) (c : call) (config : option dict) :
  (forall s, page_size c = Some s -> ascii_only s = true) ->
  (forall s, alignment c = Some s -> ascii_only s = true) ->
  resolve file_config (upper_keywords c) config = resolve file_config c config.
Proof.
  intros Hps Hal.
  assert (H : explicit_layer (upper_keywords c) = explicit_layer c).
  { destruct c as [fp fs d ps m tc bc al ac].
    unfold explicit_layer, upper_keywords.
    cbn [font_path font_size dpi page_size margin text_color bg_color
         alignment auto_crop] in *.
    destruct ps as [ps|], al as [al|];
      cbn [fmap option_fmap option_map default from_option id];
      rewrite ?(str_upper_idem ps) by (now apply Hps);
      rewrite ?(str_upper_idem al) by (now apply Hal); reflexivity. }
  unfold resolve. now rewrite H.
Qed.

(** X13. An alignment keyword other than [LEFT], [CENTER] and [RIGHT],
    spelled exactly so, means justified text; no keyword is refused. In
    a configuration file and in an override map the keyword is looked up
    as it is written, so a lower-case [left] there gives justified
    text. *)
Theorem unknown_alignment_is_justify (s : string) :
  s <> "LEFT"%string -> s <> "CENTER"%string -> s <> "RIGHT"%string ->
  align_of s = VNum TA_JUSTIFY
  /\ override_field "alignment" (VStr s) = VNum TA_JUSTIFY
  /\ item_field "alignment" (VStr s) = VNum TA_JUSTIFY
  /\ load_config_from_file {[ "alignment"%string := VStr s ]} !! "alignment"%string
     = Some (VNum TA_JUSTIFY).
Proof.
  intros H1 H2 H3.
  assert (H : align_of s = VNum TA_JUSTIFY).
  { unfold align_of, ALIGN_MAP, list_to_map. cbn [fold_right fst snd].
    rewrite !lookup_insert_ne by congruence.
    destruct (decide (s = "JUSTIFY"%string)) as [->|H4].
    - now rewrite lookup_insert_eq.
    - rewrite lookup_insert_ne by congruence. now rewrite lookup_empty. }
  split; [exact H|]. split; [exact H|]. split; [exact H|].
  unfold load_config_from_file. cbv zeta. rewrite !lookup_convert_str.
  repeat (rewrite decide_False by discriminate).
  rewrite decide_True by reflexivity.
  rewrite lookup_singleton_eq.
  cbn [fmap option_fmap option_map converted].
  rewrite decide_False by discriminate.
  cbn [fmap option_fmap option_map converted]. now rewrite H.
Qed.

End LoaderFacts.

(** A configuration file with a colour and a page size written as
    tokens, and an item override with an alignment keyword. *)
Definition token_file : dict :=
  {[ "font-color"%string := VStr "#112233"; "page-size"%string := VStr "595,842" ]}.

Definition token_override : dict := {[ "alignment"%string := VStr "CENTER" ]}.

Lemma conversions_settle_witness :
  exists GLOBAL_CONFIG config,
    load_config (L := ascii_library) token_file = Some GLOBAL_CONFIG
    /\ item_config_of (L := ascii_library) GLOBAL_CONFIG token_override = Some config
    /\ convert_special (L := ascii_library) config = Some config.
Proof.
  destruct (load_config (L := ascii_library) token_file) as [G|] eqn:HG;
    [|vm_compute in HG; discriminate].
  destruct (item_config_of (L := ascii_library) G token_override) as [config|] eqn:Hc.
  - exists G, config. split; [reflexivity|]. split; [exact Hc|].
    exact (proj1 (proj2 (conversions_settle (L := ascii_library)
                           token_file token_override G config HG Hc))).
  - exfalso. vm_compute in HG. injection HG as <-. vm_compute in Hc. discriminate.
Defined.

(** A call that writes its keywords in lower case. *)
Definition lower_call : call :=
  Call "font.ttf" None None (Some "letter"%string) None None None
       (Some "center"%string) None.

Lemma argument_keywords_ignore_case_witness :
  page_size (upper_keywords (L := ascii_library) lower_call) = Some "LETTER"%string
  /\ resolve (L := ascii_library) ∅ (upper_keywords (L := ascii_library) lower_call) None
     = resolve (L := ascii_library) ∅ lower_call None.
Proof.
  split; [reflexivity|].
  apply (argument_keywords_ignore_case (L := ascii_library) ∅ lower_call None).
  - intros s [= <-]. reflexivity.
  - intros s [= <-]. reflexivity.
Defined.

Lemma unknown_alignment_is_justify_witness :
  "left"%string <> "LEFT"%string
  /\ align_of "left" = VNum TA_JUSTIFY
  /\ align_of (ascii_upper "left") = VNum TA_LEFT.
Proof.
  assert (H1 : "left"%string <> "LEFT"%string) by discriminate.
  split; [exact H1|]. split; [|reflexivity].
  refine (proj1 (unknown_alignment_is_justify (L := ascii_library) "left" H1 _ _));
    discriminate.
Defined.

End Config.

(* ===================================================================== *)
(** * Names of the page files *)
(* ===================================================================== *)

Module Naming.

Local Open Scope string_scope.

Definition digit (d : N) : ascii := ascii_of_N (48 + d).

(** The decimal digits of [n], most significant first, in front of [acc]. *)
Fixpoint decimal_fuel (fuel : nat) (n : N) (acc : string) : string :=
  let acc := String (digit (n mod 10)) acc in
  match fuel with
  | O => acc
  | S fuel' => if (n <? 10)%N then acc else decimal_fuel fuel' (n / 10) acc
  end.

(** [str(n)]: a number has at most [log2 n + 1] digits. *)
Definition decimal (n : N) : string :=
  decimal_fuel (N.to_nat (N.log2 n)) n "".

Fixpoint zeros (k : nat) : string :=
  match k with
  | O => ""
  | S k' => String "0" (zeros k')
  end.

(** [f"{offset:03d}"]: zeros in front up to a width of three. *)
Definition format_03d (offset : Z) : string :=
  let s := decimal (Z.to_N offset) in
  zeros (3 - String.length s) ++ s.

(** [f"page_{offset:03d}.png"], the file name in [text_to_images]. *)
Definition page_name (offset : Z) : string :=
  "page_" ++ format_03d offset ++ ".png".

(** [f"{base_name}_{offset:03d}.png"], the file name in
    [convert_text_to_images]. *)
Definition simple_page_name (base_name : string) (offset : Z) : string :=
  base_name ++ "_" ++ format_03d offset ++ ".png".

Lemma length_append (s t : string) :
  String.length (s ++ t) = (String.length s + String.length t)%nat.
Proof. induction s as [|c s IH]; simpl; [reflexivity|now f_equal]. Qed.

Lemma length_zeros k : String.length (zeros k) = k.
Proof. induction k as [|k IH]; simpl; [reflexivity|now f_equal]. Qed.

Lemma format_03d_length offset :
  String.length (format_03d offset)
  = Nat.max 3 (String.length (decimal (Z.to_N offset))).
Proof. unfold format_03d. cbv zeta. rewrite length_append, length_zeros. lia. Qed.

Lemma format_03d_three_upto_999 :
  forallb (fun n => Nat.eqb (String.length (format_03d (Z.of_nat n))) 3)
          (seq 0 1000) = true.
Proof. vm_compute. reflexivity. Qed.

Lemma format_03d_three offset :
  0 <= offset <= 999 -> String.length (format_03d offset) = 3%nat.
Proof.
  intros H. pose proof format_03d_three_upto_999 as Hall.
  rewrite forallb_forall in Hall.
  specialize (Hall (Z.to_nat offset)).
  rewrite Z2Nat.id in Hall by lia.
  apply Nat.eqb_eq, Hall, in_seq. lia.
Qed.

Lemma decimal_fuel_longer fuel n acc :
  (S (String.length acc) <= String.length (decimal_fuel fuel n acc))%nat.
Proof.
  revert n acc. induction fuel as [|fuel IH]; intros n acc; cbn [decimal_fuel].
  - simpl. lia.
  - destruct (n <? 10)%N; [simpl; lia|].
    etrans; [|apply IH]. simpl. lia.
Qed.

Lemma decimal_four_digits n :
  (1000 <= n)%N -> (3 < String.length (decimal n))%nat.
Proof.
  intros Hn. unfold decimal.
  assert (Hlog : (3 <= N.to_nat (N.log2 n))%nat).
  { assert (N.log2 1000 <= N.log2 n)%N by (now apply N.log2_le_mono).
    change (N.log2 1000) with 9%N in *. lia. }
  destruct (N.to_nat (N.log2 n)) as [|[|[|fuel]]]; try lia.
  assert (H1 : (n <? 10)%N = false) by (apply N.ltb_ge; lia).
  assert (H2 : (n / 10 <? 10)%N = false).
  { apply N.ltb_ge. apply N.div_le_lower_bound; lia. }
  assert (H3 : (n / 10 / 10 <? 10)%N = false).
  { apply N.ltb_ge. apply N.div_le_lower_bound; [lia|].
    apply N.div_le_lower_bound; lia. }
  cbn [decimal_fuel]. rewrite H1, H2, H3.
  eapply Nat.lt_le_trans; [|apply decimal_fuel_longer]. simpl. lia.
Qed.

(** From page 1000 on the index takes more than three digits. *)
Lemma format_03d_beyond offset :
  1000 <= offset -> (3 < String.length (format_03d offset))%nat.
Proof.
  intros H. rewrite format_03d_length.
  assert ((3 < String.length (decimal (Z.to_N offset)))%nat)
    by (apply decimal_four_digits; lia).
  lia.
Qed.

(** ** Reading the page index back *)

(** [int(s)] for a string of decimal digits. *)
Definition digit_value (c : ascii) : N := (N_of_ascii c - 48)%N.

Fixpoint int_from (acc : N) (s : string) : N :=
  match s with
  | "" => acc
  | String c s' => int_from (10 * acc + digit_value c) s'
  end.

Definition int_of_decimal (s : string) : N := int_from 0 s.

Lemma digit_value_digit d : (d < 10)%N -> digit_value (digit d) = d.
Proof.
  intros H. unfold digit_value, digit.
  rewrite N_ascii_embedding by lia. lia.
Qed.

Lemma int_from_decimal_fuel fuel :
  forall n acc,
    (n < 10 ^ N.of_nat (S fuel))%N ->
    int_from 0 (decimal_fuel fuel n acc) = int_from n acc.
Proof.
  assert (Hlast : forall n acc, (n < 10)%N ->
            int_from 0 (String (digit (n mod 10)) acc) = int_from n acc).
  { intros n acc Hn. cbn [int_from]. rewrite N.mod_small by exact Hn.
    rewrite digit_value_digit by exact Hn. f_equal. }
  induction fuel as [|fuel IH]; intros n acc Hn.
  - cbn [decimal_fuel]. apply Hlast. exact Hn.
  - cbn [decimal_fuel]. destruct (N.ltb_spec n 10) as [Hlt|Hge].
    + now apply Hlast.
    + rewrite IH.
      * cbn [int_from]. f_equal.
        rewrite digit_value_digit by (apply N.mod_lt; lia).
        symmetry. apply N.div_mod. lia.
      * apply N.Div0.div_lt_upper_bound.
        rewrite <- N.pow_succ_r'. now rewrite <- Nat2N.inj_succ.
Qed.

Lemma int_of_decimal_decimal n : int_of_decimal (decimal n) = n.
Proof.
  unfold int_of_decimal, decimal. rewrite int_from_decimal_fuel; [reflexivity|].
  rewrite Nat2N.inj_succ, N2Nat.id.
  destruct (N.eq_dec n 0%N) as [->|Hn]; [reflexivity|].
  apply N.lt_le_trans with (2 ^ N.succ (N.log2 n))%N.
  - apply N.log2_spec. lia.
  - apply N.pow_le_mono_l. lia.
Qed.

Lemma int_from_zeros k s : int_from 0 (zeros k ++ s) = int_from 0 s.
Proof. induction k as [|k IH]; [reflexivity|exact IH]. Qed.

Lemma int_of_format_03d offset :
  int_of_decimal (format_03d offset) = Z.to_N offset.
Proof.
  unfold format_03d, int_of_decimal. cbv zeta.
  rewrite int_from_zeros. apply int_of_decimal_decimal.
Qed.

Lemma append_inj_l (s t u : string) : s ++ t = s ++ u -> t = u.
Proof.
  induction s as [|c s IH]; simpl; [auto|]. intros [= H]. auto.
Qed.

Lemma append_inj_r (s t u : string) : s ++ u = t ++ u -> s = t.
Proof.
  revert t. induction s as [|c s IH]; intros [|d t] H; simpl in H.
  - reflexivity.
  - exfalso. apply (f_equal String.length) in H.
    rewrite !length_append in H. simpl in H. rewrite ?length_append in H. lia.
  - exfalso. apply (f_equal String.length) in H.
    rewrite !length_append in H. simpl in H. rewrite ?length_append in H. lia.
  - injection H as -> H. f_equal. now apply IH.
Qed.

Lemma format_03d_inj i j :
  0 <= i -> 0 <= j -> format_03d i = format_03d j -> i = j.
Proof.
  intros Hi Hj H. apply (f_equal int_of_decimal) in H.
  rewrite !int_of_format_03d in H. lia.
Qed.

Lemma page_name_inj i j :
  0 <= i -> 0 <= j -> page_name i = page_name j -> i = j.
Proof.
  intros Hi Hj H. apply format_03d_inj; [exact Hi|exact Hj|].
  unfold page_name in H. apply append_inj_l in H. now apply append_inj_r in H.
Qed.

Lemma simple_page_name_inj base_name i j :
  0 <= i -> 0 <= j ->
  simple_page_name base_name i = simple_page_name base_name j -> i = j.
Proof.
  intros Hi Hj H. apply format_03d_inj; [exact Hi|exact Hj|].
  unfold simple_page_name in H.
  apply append_inj_l, append_inj_l in H. now apply append_inj_r in H.
Qed.

(** X14. The page index can be read back from the digits the file name
    carries, for every index from 0 on (with three digits or more). *)
Theorem format_03d_round_trip (offset : Z) :
  0 <= offset -> Z.of_N (int_of_decimal (format_03d offset)) = offset.
Proof. intros H. rewrite int_of_format_03d. lia. Qed.

Lemma format_03d_round_trip_witness :
  0 <= 1234
  /\ format_03d 1234 = "1234"
  /\ Z.of_N (int_of_decimal (format_03d 1234)) = 1234.
Proof.
  assert (H : 0 <= 1234) by lia.
  split; [exact H|]. split; [reflexivity|].
  exact (format_03d_round_trip 1234 H).
Defined.

(** X15. Two pages never get the same file name: in both renderers the
    name determines the page index. *)
Theorem page_names_distinct (base_name : string) (i j : Z) :
  0 <= i -> 0 <= j ->
  (simple_page_name base_name i = simple_page_name base_name j -> i = j)
  /\ (page_name i = page_name j -> i = j).
Proof.
  intros Hi Hj. split.
  - now apply simple_page_name_inj.
  - now apply page_name_inj.
Qed.

Lemma page_names_distinct_witness :
  0 <= 7 /\ 0 <= 1007
  /\ (page_name 7 = page_name 1007 -> 7 = 1007).
Proof.
  assert (H7 : 0 <= 7) by lia. assert (H1007 : 0 <= 1007) by lia.
  split; [exact H7|]. split; [exact H1007|].
  exact (proj2 (page_names_distinct "doc" 7 1007 H7 H1007)).
Defined.

End Naming.

(* ===================================================================== *)
(** * The single page of [convert_single_page] *)
(* ===================================================================== *)

Module SinglePage.

Import Text.

(** [str.isspace] on one code point, as [str.split()] and [str.strip()]
    use it. *)
Definition is_space (c : codepoint) : bool :=
  ((9 <=? c) && (c <=? 13) || (28 <=? c) && (c <=? 32)
   || (c =? 0x85) || (c =? 0xA0) || (c =? 0x1680)
   || (0x2000 <=? c) && (c <=? 0x200A)
   || (c =? 0x2028) || (c =? 0x2029) || (c =? 0x202F) || (c =? 0x205F)
   || (c =? 0x3000))%N.

(** [s.split()]: the maximal runs of code points that are not white
    space. *)
Fixpoint words (s : pystr) : list pystr :=
  match s with
  | [] => []
  | c :: rest =>
      if is_space c then words rest
      else match words rest with
           | w :: ws =>
               match rest with
               | d :: _ => if is_space d then [c] :: w :: ws else (c :: w) :: ws
               | [] => [[c]]
               end
           | [] => [[c]]
           end
  end.

(** [s.strip()]. *)
Fixpoint lstrip (s : pystr) : pystr :=
  match s with
  | [] => []
  | c :: rest => if is_space c then lstrip rest else s
  end.

Definition rstrip (s : pystr) : pystr := rev (lstrip (rev s)).

Definition strip (s : pystr) : pystr := rstrip (lstrip s).

Section Wrap.
(** [bbox[2] - bbox[0]] for [bbox = draw.textbbox((0, 0), s, font=font)]. *)
Variable text_width : pystr -> Z.
(** [width - 2 * margin]. *)
Variable avail : Z.

(** [lines.append(line.strip())] under [if line:]. *)
Definition flush (lines : list pystr) (line : pystr) : list pystr :=
  match line with
  | [] => lines
  | _ => lines ++ [strip line]
  end.

(** The loop over the words of one paragraph:
<<
    for word in words:
        test_line = line + word + ' '
        bbox = draw.textbbox((0, 0), test_line, font=font)
        line_width = bbox[2] - bbox[0]
        if line_width < width - 2 * margin:
            line = test_line
        else:
            if line:
                lines.append(line.strip())
            line = word + ' '
>> *)
Fixpoint wrap_words (ws : list pystr) (lines : list pystr) (line : pystr)
    : list pystr * pystr :=
  match ws with
  | [] => (lines, line)
  | word :: rest =>
      let test_line := line ++ word ++ [SPACE] in
      let line_width := text_width test_line in
      if line_width <? avail
      then wrap_words rest lines test_line
      else wrap_words rest (flush lines line) (word ++ [SPACE])
  end.

(** One paragraph: its words, the line left over, and the empty line
    between paragraphs. *)
Definition wrap_paragraph (lines : list pystr) (paragraph : pystr) : list pystr :=
  let '(lines, line) := wrap_words (words paragraph) lines [] in
  flush lines line ++ [[]].

(** [for paragraph in text.split('\n'): ...]. *)
Definition wrap_text (text : pystr) : list pystr :=
  fold_left wrap_paragraph (split NEWLINE text) [].

End Wrap.

(** The drawing loop, as the list of the lines drawn with their vertical
    position (all at the horizontal position [margin]):
<<
    for line in lines:
        if line:
            draw.text((margin, y), line, font=font, fill=text_color)
        y += line_height
        if y > height - margin:
            break
>> *)
Fixpoint draw_lines (margin height line_height : Z) (y : Z) (lines : list pystr)
    : list (Z * pystr) :=
  match lines with
  | [] => []
  | line :: rest =>
      let drawn := match line with [] => [] | _ => [(y, line)] end in
      let y := y + line_height in
      if height - margin <? y then drawn
      else drawn ++ draw_lines margin height line_height y rest
  end.

(** What [convert_single_page] draws: [y = margin], [line_height =
    font_size + 5]. *)
Definition convert_single_page (text_width : pystr -> Z) (text : pystr)
    (font_size width height margin : Z) : list (Z * pystr) :=
  draw_lines margin height (font_size + 5) margin
    (wrap_text text_width (width - 2 * margin) text).

(** ** Words *)

(** A word: not empty, and free of white space. *)
Definition word (w : pystr) : Prop :=
  w <> [] /\ Forall (fun c => is_space c = false) w.

(** The line the loop builds from the words [cur]. *)
Definition line_of (cur : list pystr) : pystr :=
  flat_map (fun w => w ++ [SPACE]) cur.

Lemma words_head c (rest : pystr) : is_space c = false -> words (c :: rest) <> [].
Proof.
  intros Hc. cbn [words]. rewrite Hc.
  destruct (words rest); [discriminate|].
  destruct rest as [|d rest]; [discriminate|]. destruct (is_space d); discriminate.
Qed.

Lemma words_space c (rest : pystr) : is_space c = true -> words (c :: rest) = words rest.
Proof. intros Hc. cbn [words]. now rewrite Hc. Qed.

Lemma words_all_space (s : pystr) :
  Forall (fun c => is_space c = true) s -> words s = [].
Proof.
  induction 1 as [|c s Hc Hs IH]; [reflexivity|]. now rewrite words_space.
Qed.

Lemma words_app_space (a : pystr) c (b : pystr) :
  is_space c = true -> words (a ++ c :: b) = words a ++ words b.
Proof.
  intros Hc. induction a as [|x a IH]; cbn [app].
  - now rewrite words_space.
  - cbn [words]. destruct (is_space x) eqn:Hx; [exact IH|].
    rewrite IH. destruct a as [|d a].
    + cbn [app words]. destruct (words b); [reflexivity|]. now rewrite Hc.
    + cbn [app]. destruct (is_space d) eqn:Hd.
      * destruct (words (d :: a)) as [|w ws] eqn:Hw.
        -- cbn [app]. destruct (words b); reflexivity.
        -- reflexivity.
      * pose proof (words_head d a Hd) as Hne.
        destruct (words (d :: a)) as [|w ws]; [congruence|reflexivity].
Qed.

Lemma words_word (w : pystr) : word w -> words w = [w].
Proof.
  intros [Hne Hw]. induction Hw as [|c w Hc Hw IH]; [congruence|].
  cbn [words]. rewrite Hc. destruct w as [|d w]; [reflexivity|].
  rewrite IH by discriminate. inversion Hw as [|? ? Hd _]; subst.
  now rewrite Hd.
Qed.

Lemma words_are_words (s : pystr) : Forall word (words s).
Proof.
  induction s as [|c s IH]; [constructor|].
  cbn [words]. destruct (is_space c) eqn:Hc; [exact IH|].
  assert (Hone : word [c]) by (split; [discriminate|now repeat constructor]).
  destruct (words s) as [|w ws]; [now repeat constructor|].
  destruct s as [|d s]; [now repeat constructor|].
  destruct (is_space d).
  - now constructor.
  - inversion IH as [|? ? [Hne Hw] Hws]; subst. constructor; [|exact Hws].
    split; [discriminate|now constructor].
Qed.

Lemma words_lstrip (s : pystr) : words (lstrip s) = words s.
Proof.
  induction s as [|c s IH]; [reflexivity|].
  cbn [lstrip]. destruct (is_space c) eqn:Hc; [|reflexivity].
  now rewrite words_space.
Qed.

Lemma lstrip_split (s : pystr) :
  exists sp, Forall (fun c => is_space c = true) sp /\ s = sp ++ lstrip s.
Proof.
  induction s as [|c s (sp & Hsp & IH)]; [exists []; now split|].
  cbn [lstrip]. destruct (is_space c) eqn:Hc.
  - exists (c :: sp). split; [now constructor|]. cbn [app]. now f_equal.
  - exists []. now split.
Qed.

Lemma words_app_spaces (t sp : pystr) :
  Forall (fun c => is_space c = true) sp -> words (t ++ sp) = words t.
Proof.
  intros Hsp. destruct Hsp as [|c sp Hc Hsp]; [now rewrite app_nil_r|].
  rewrite words_app_space by exact Hc.
  rewrite (words_all_space sp Hsp). apply app_nil_r.
Qed.

Lemma words_rstrip (s : pystr) : words (rstrip s) = words s.
Proof.
  unfold rstrip. destruct (lstrip_split (rev s)) as (sp & Hsp & Hs).
  apply (f_equal (@rev codepoint)) in Hs. rewrite rev_involutive, rev_app_distr in Hs.
  rewrite Hs at 2. symmetry. apply words_app_spaces.
  apply Forall_forall. intros c Hin.
  apply list_elem_of_In, in_rev, list_elem_of_In in Hin.
  rewrite Forall_forall in Hsp. now apply Hsp.
Qed.

Lemma words_strip (s : pystr) : words (strip s) = words s.
Proof. unfold strip. now rewrite words_rstrip, words_lstrip. Qed.

Lemma space_is_space : is_space SPACE = true.
Proof. reflexivity. Qed.

Lemma newline_is_space : is_space NEWLINE = true.
Proof. reflexivity. Qed.

Lemma line_of_app (a b : list pystr) : line_of (a ++ b) = line_of a ++ line_of b.
Proof. apply flat_map_app. Qed.

Lemma words_line_of (cur : list pystr) : Forall word cur -> words (line_of cur) = cur.
Proof.
  induction 1 as [|w cur Hw Hcur IH]; [reflexivity|].
  cbn [line_of flat_map]. fold (line_of cur). rewrite <- app_assoc. cbn [app].
  rewrite words_app_space by exact space_is_space.
  now rewrite (words_word w Hw), IH.
Qed.

Lemma line_of_nil (cur : list pystr) : Forall word cur -> line_of cur = [] -> cur = [].
Proof.
  intros Hcur H. apply (f_equal words) in H.
  now rewrite (words_line_of cur Hcur) in H.
Qed.

Lemma words_join_newline (parts : list pystr) :
  words (join [NEWLINE] parts) = flat_map words parts.
Proof.
  induction parts as [|p parts IH]; [reflexivity|].
  destruct parts as [|q parts].
  - cbn. now rewrite app_nil_r.
  - rewrite join_cons_cons. cbn [app flat_map].
    rewrite words_app_space by exact newline_is_space. now rewrite IH.
Qed.

(** ** The wrap *)

Section WrapFacts.
Variable text_width : pystr -> Z.
Variable avail : Z.

(** The line has at most one word, or it passed the width test (with
    the space that follows each word). *)
Definition fits (cur : list pystr) : Prop :=
  (length cur <= 1)%nat \/ text_width (line_of cur) < avail.

Lemma flush_line_of (lines : list pystr) (cur : list pystr) :
  Forall word cur ->
  flat_map words (flush lines (line_of cur)) = flat_map words lines ++ cur
  /\ (Forall (fun l => fits (words l)) lines -> fits cur ->
      Forall (fun l => fits (words l)) (flush lines (line_of cur))).
Proof.
  intros Hcur. unfold flush.
  destruct (line_of cur) as [|c l] eqn:Hl.
  - apply line_of_nil in Hl; [|exact Hcur]. subst cur.
    split; [now rewrite app_nil_r|auto].
  - rewrite <- Hl. split.
    + rewrite flat_map_app. cbn [flat_map].
      now rewrite words_strip, words_line_of, app_nil_r.
    + intros Hlines Hfit. apply Forall_app. split; [exact Hlines|].
      constructor; [|constructor]. now rewrite words_strip, words_line_of.
Qed.

Lemma wrap_words_spec (ws : list pystr) :
  Forall word ws ->
  forall lines cur,
    Forall word cur ->
    exists lines' cur',
      wrap_words text_width avail ws lines (line_of cur) = (lines', line_of cur')
      /\ Forall word cur'
      /\ flat_map words lines' ++ cur' = flat_map words lines ++ cur ++ ws
      /\ (Forall (fun l => fits (words l)) lines -> fits cur ->
          Forall (fun l => fits (words l)) lines' /\ fits cur').
Proof.
  induction 1 as [|w ws Hw Hws IH]; intros lines cur Hcur.
  - exists lines, cur. split; [reflexivity|]. split; [exact Hcur|].
    split; [now rewrite app_nil_r|auto].
  - cbn [wrap_words]. cbv zeta.
    destruct (text_width (line_of cur ++ w ++ [SPACE]) <? avail) eqn:Htest.
    + assert (Hline : line_of cur ++ w ++ [SPACE] = line_of (cur ++ [w])).
      { rewrite line_of_app. cbn. now rewrite app_nil_r. }
      rewrite Hline.
      destruct (IH lines (cur ++ [w])) as (lines' & cur' & Hrun & Hcur' & Heq & Hfit).
      { apply Forall_app. split; [exact Hcur|now constructor]. }
      exists lines', cur'. split; [exact Hrun|]. split; [exact Hcur'|].
      split; [now rewrite Heq, <- !app_assoc|].
      intros Hlines _. apply Hfit; [exact Hlines|].
      right. rewrite <- Hline. now apply Z.ltb_lt.
    + assert (Hline : w ++ [SPACE] = line_of [w]) by (cbn; now rewrite app_nil_r).
      rewrite Hline.
      destruct (flush_line_of lines cur Hcur) as [Hflush Hflush_fit].
      destruct (IH (flush lines (line_of cur)) [w])
        as (lines' & cur' & Hrun & Hcur' & Heq & Hfit).
      { now constructor. }
      exists lines', cur'. split; [exact Hrun|]. split; [exact Hcur'|].
      split; [now rewrite Heq, Hflush, <- !app_assoc|].
      intros Hlines Hfits. apply Hfit; [now apply Hflush_fit|].
      left. cbn. lia.
Qed.

Lemma wrap_paragraph_spec (lines : list pystr) (paragraph : pystr) :
  flat_map words (wrap_paragraph text_width avail lines paragraph)
  = flat_map words lines ++ words paragraph
  /\ (Forall (fun l => fits (words l)) lines ->
      Forall (fun l => fits (words l))
             (wrap_paragraph text_width avail lines paragraph)).
Proof.
  unfold wrap_paragraph.
  destruct (wrap_words_spec (words paragraph) (words_are_words paragraph)
              lines [] (List.Forall_nil _))
    as (lines' & cur' & Hrun & Hcur' & Heq & Hfit).
  change (wrap_words text_width avail (words paragraph) lines [])
    with (wrap_words text_width avail (words paragraph) lines (line_of [])).
  rewrite Hrun. cbv beta iota.
  destruct (flush_line_of lines' cur' Hcur') as [Hflush Hflush_fit].
  split.
  - rewrite flat_map_app, Hflush, Heq. cbn. now rewrite !app_nil_r.
  - intros Hlines. assert (Hnil : fits []) by (left; cbn; lia).
    destruct (Hfit Hlines Hnil) as [Hl' Hc'].
    apply Forall_app. split; [now apply Hflush_fit|].
    constructor; [|constructor]. left. cbn. lia.
Qed.

Lemma wrap_fold_spec (parts : list pystr) :
  forall lines,
    flat_map words (fold_left (wrap_paragraph text_width avail) parts lines)
    = flat_map words lines ++ flat_map words parts
    /\ (Forall (fun l => fits (words l)) lines ->
        Forall (fun l => fits (words l))
               (fold_left (wrap_paragraph text_width avail) parts lines)).
Proof.
  induction parts as [|p parts IH]; intros lines; cbn [fold_left flat_map].
  - split; [now rewrite app_nil_r|auto].
  - destruct (IH (wrap_paragraph text_width avail lines p)) as [Hw Hf].
    destruct (wrap_paragraph_spec lines p) as [Hw1 Hf1].
    split; [now rewrite Hw, Hw1, <- app_assoc|auto].
Qed.

Lemma words_wrap_text (text : pystr) :
  flat_map words (wrap_text text_width avail text) = words text.
Proof.
  unfold wrap_text.
  destruct (wrap_fold_spec (split NEWLINE text) []) as [H _].
  rewrite H. cbn [flat_map app].
  rewrite <- words_join_newline. now rewrite join_split.
Qed.

(** X16. The wrap of [convert_single_page] keeps every word of the text,
    once and in order: the words of the lines, read line after line, are
    the words of the text, and every line but the empty ones between
    paragraphs has a word. Only white space is lost. *)
Theorem wrap_keeps_words (text : pystr) :
  flat_map words (wrap_text text_width avail text) = words text
  /\ Forall word (flat_map words (wrap_text text_width avail text)).
Proof.
  split; [apply words_wrap_text|].
  rewrite words_wrap_text. apply words_are_words.
Qed.

(** X17. Every wrapped line with more than one word passed the width
    test: its words, each followed by a space, measure less than the
    available width. A line that is too wide is a single word. *)
Theorem wrapped_lines_fit (text : pystr) :
  Forall (fun l => (length (words l) <= 1)%nat
                   \/ text_width (line_of (words l)) < avail)
         (wrap_text text_width avail text).
Proof.
  unfold wrap_text.
  destruct (wrap_fold_spec (split NEWLINE text) []) as [_ H].
  apply H. constructor.
Qed.

End WrapFacts.

(** ** The drawing loop *)

Definition nonempty (l : pystr) : bool :=
  match l with [] => false | _ => true end.

Lemma draw_lines_prefix margin height lh (lines : list pystr) :
  forall y,
    exists k, (k <= length lines)%nat
      /\ map snd (draw_lines margin height lh y lines)
         = List.filter nonempty (take k lines).
Proof.
  induction lines as [|l rest IH]; intros y.
  - exists 0%nat. split; [cbn; lia|reflexivity].
  - cbn [draw_lines]. cbv zeta.
    destruct (height - margin <? y + lh).
    + exists 1%nat. split; [cbn; lia|]. now destruct l.
    + destruct (IH (y + lh)) as (k & Hk & Heq).
      exists (S k). split; [cbn; lia|].
      rewrite List.map_app, Heq. now destruct l.
Qed.

(** X18. The drawing loop puts line number [i] (from 0) at [y +
    line_height * i] and never draws an empty line; every line it draws,
    apart from the first line of the text, starts at or above [height -
    margin]; and the lines it draws are the non-empty ones among the
    first so many lines: what does not fit is left out without an
    error. *)
Theorem drawn_lines_positions (margin height line_height y : Z) (lines : list pystr) :
  Forall (fun p => exists i : nat,
            lines !! i = Some p.2
            /\ p.1 = y + line_height * Z.of_nat i
            /\ p.2 <> []
            /\ (i = 0%nat \/ p.1 <= height - margin))
         (draw_lines margin height line_height y lines)
  /\ exists k, (k <= length lines)%nat
       /\ map snd (draw_lines margin height line_height y lines)
          = List.filter nonempty (take k lines).
Proof.
  split; [|apply draw_lines_prefix].
  revert y. induction lines as [|l rest IH]; intros y; [constructor|].
  cbn [draw_lines]. cbv zeta.
  assert (Hfirst : Forall (fun p => exists i : nat,
                     (l :: rest) !! i = Some p.2
                     /\ p.1 = y + line_height * Z.of_nat i
                     /\ p.2 <> []
                     /\ (i = 0%nat \/ p.1 <= height - margin))
                    match l with [] => [] | _ => [(y, l)] end).
  { destruct l as [|c l]; [constructor|]. constructor; [|constructor].
    exists 0%nat. cbn. repeat split; [lia|discriminate|now left]. }
  destruct (height - margin <? y + line_height) eqn:Hbreak; [exact Hfirst|].
  apply Forall_app. split; [exact Hfirst|].
  apply Z.ltb_ge in Hbreak.
  eapply Forall_impl; [apply (IH (y + line_height))|].
  intros [y' l'] (i & Hi & Hy & Hne & Hpos). cbn [fst snd] in *.
  exists (S i). split; [exact Hi|]. split; [lia|]. split; [exact Hne|].
  right. destruct Hpos as [->|Hpos]; lia.
Qed.

(** X19. When the last line still starts at or above [height - margin]
    (and the line height is not negative), the drawing loop draws every
    non-empty line. *)
Theorem draw_lines_complete (margin height line_height y : Z) (lines : list pystr) :
  0 <= line_height ->
  y + line_height * (Z.of_nat (length lines) - 1) <= height - margin ->
  map snd (draw_lines margin height line_height y lines)
  = List.filter nonempty lines.
Proof.
  intros Hlh. revert y.
  induction lines as [|l rest IH]; intros y Hy; [reflexivity|].
  cbn [draw_lines]. cbv zeta. cbn [length] in Hy.
  destruct rest as [|l2 rest].
  - cbn [draw_lines]. destruct (height - margin <? y + line_height);
      destruct l; reflexivity.
  - assert (Hgo : (height - margin <? y + line_height) = false).
    { apply Z.ltb_ge. cbn [length] in Hy. nia. }
    rewrite Hgo, List.map_app, IH.
    + now destruct l.
    + cbn [length] in *. nia.
Qed.

Lemma draw_lines_complete_witness :
  0 <= 17
  /\ 20 + 17 * (Z.of_nat (length [lit "ab"; []; lit "cd"]) - 1) <= 100 - 20
  /\ map snd (draw_lines 20 100 17 20 [lit "ab"; []; lit "cd"])
     = List.filter nonempty [lit "ab"; []; lit "cd"].
Proof.
  assert (H0 : 0 <= 17) by lia.
  assert (H1 : 20 + 17 * (Z.of_nat (length [lit "ab"; []; lit "cd"]) - 1) <= 100 - 20)
    by (cbn; lia).
  split; [exact H0|]. split; [exact H1|].
  exact (draw_lines_complete 20 100 17 20 [lit "ab"; []; lit "cd"] H0 H1).
Defined.

Lemma flat_map_words_filter (lines : list pystr) :
  flat_map words (List.filter nonempty lines) = flat_map words lines.
Proof.
  induction lines as [|l lines IH]; [reflexivity|].
  destruct l as [|c l]; cbn [List.filter nonempty flat_map]; [exact IH|].
  now rewrite IH.
Qed.

(** X20. The page shows the words of the text in their order, possibly
    cut off at the end: the words of the lines that [convert_single_page]
    draws are a prefix of the words of the text, whatever the font
    metrics and the sizes. No word is drawn twice or out of order. *)
Theorem single_page_shows_prefix
    (text_width : pystr -> Z) (text : pystr) (font_size width height margin : Z) :
  flat_map words (map snd (convert_single_page text_width text font_size
                             width height margin))
  `prefix_of` words text.
Proof.
  unfold convert_single_page.
  destruct (draw_lines_prefix margin height (font_size + 5)
              (wrap_text text_width (width - 2 * margin) text) margin)
    as (k & _ & Heq).
  rewrite Heq, flat_map_words_filter.
  rewrite <- (words_wrap_text text_width (width - 2 * margin) text).
  set (lines := wrap_text text_width (width - 2 * margin) text).
  exists (flat_map words (drop k lines)).
  rewrite <- flat_map_app. now rewrite take_drop.
Qed.

End SinglePage.

(* ===================================================================== *)
(** * The rendering pipeline and the batch orchestrator *)
(* ===================================================================== *)

Module Pipeline.

(** A path is the list of its components below the root;
    [os.path.abspath] changes nothing. [os.path.join(d, name)] appends
    one component, which is what it gives for a plain file name. The
    program joins the identifier of an item to the output directory
    without looking at it; where a statement below speaks of the
    subdirectory of an item as its own, it takes the identifiers to be
    plain names ([plain_name]). *)
Abbreviation path := (list string).

Fixpoint has_separator (s : string) : bool :=
  match s with
  | EmptyString => false
  | String c s' => Ascii.eqb c "/" || has_separator s'
  end.

(** A name that [os.path.join] takes as one entry of the directory: no
    separator in it, and neither [.] nor [..]. *)
Definition plain_name (s : string) : bool :=
  negb (has_separator s) && negb (String.eqb s ".") && negb (String.eqb s "..").

Inductive exn :=
| AssertionError
| TypeError
| ValueError
| AttributeError
| OSError
| EngineError
| InputError.

(** What a call does: return a value or raise. *)
Inductive outcome (A : Type) :=
| Ok (a : A)
| Raise (e : exn).
Arguments Ok {A} _.
Arguments Raise {A} _.

(** The collaborators outside the repository. An exception of the
    typesetting engine or of the rasteriser is [EngineError]. *)
Class Backend := {
  pixel : Type;
  (** [img.convert("L")] on one pixel. *)
  luma : pixel -> Z;
  pdf : Type;
  (** Whether [SimpleDocTemplate(...)] and [ParagraphStyle(...)] return
      for the page size, margins and paragraph settings of the
      configuration. *)
  accepts_styles : Config.dict -> bool;
  (** The paragraphs of the story and [doc.build(story, ...)], with the
      page and paragraph style read from the configuration and the CJK
      word-wrap flag; [None] when the engine raises. *)
  build_pdf : Config.dict -> bool -> list Text.pystr -> option pdf;
  (** Whether [pdfinfo_from_bytes] and [convert_from_bytes] return for
      the document at the given [dpi]. *)
  rasterizes : pdf -> Config.value -> bool;
  (** The pages of the document, rasterised at the given [dpi]. *)
  rasterize : pdf -> Config.value -> list (Raster.image pixel);
  (** [img.resize((int(w * horizontal_scale), h))]. *)
  resize_width : Config.value -> Raster.image pixel -> outcome (Raster.image pixel);
  (** [min(limit, index + margin)] for a float [margin], as [img.crop]
      takes it as an edge of its box: rounded to an integer, and refused
      where [crop] refuses it. *)
  float_bound : Z -> Z -> string -> outcome Z;
  (** The order in which [pool.imap_unordered] hands back the items. *)
  completion_order : forall A : Type, list A -> list A;
  completion_order_perm : forall (A : Type) (l : list A), completion_order A l ≡ₚ l
}.

(** A batch item, as [json.load] gives it, with the fields of the types
    the batch format gives them: the identifier and the content are
    strings when they are there. *)
Record item := Item {
  unique_id : option string;
  context : option Text.pystr;
  config : option Config.dict;
  image_paths : option (list path);
  other_fields : Config.dict
}.

(** [item['image_paths'] = paths]. *)
Definition set_image_paths (it : item) (paths : list path) : item :=
  {| unique_id := unique_id it; context := context it; config := config it;
     image_paths := Some paths; other_fields := other_fields it |}.

(** The identifiers of the items are plain names. *)
Definition plain_ids (data : list item) : Prop :=
  Forall (fun it => forall id, unique_id it = Some id -> plain_name id = true) data.

Section Model.
Context `{L : Config.Library} `{B : Backend}.

Abbreviation image := (Raster.image pixel).

(** What a file holds: a saved page, or lines of the ledger; a line that
    does not parse as a JSON object is [Line None]. *)
Inductive record :=
| PngData (img : image)
| Line (parsed : option item).

(** The file tree, and a log of the identifiers the rendering pipeline
    was invoked for (the log is not in the program; it counts rendering
    work). *)
Record world := World {
  dirs : gset path;
  files : gmap path (list record);
  rendered : list string
}.

Definition M (A : Type) : Type := world -> outcome A * world.

Definition ret {A} (a : A) : M A := fun w => (Ok a, w).
Definition raise {A} (e : exn) : M A := fun w => (Raise e, w).
Definition bind {A C} (m : M A) (k : A -> M C) : M C :=
  fun w => match m w with
           | (Ok a, w') => k a w'
           | (Raise e, w') => (Raise e, w')
           end.

Notation "'let*' x ':=' m 'in' k" := (bind m (fun x => k))
  (at level 10, x name, m at level 100, k at level 200).
Notation "m ';;' k" := (bind m (fun _ => k))
  (at level 100, k at level 200, right associativity).

(** A step that raises [e] unless [cond] holds. *)
Definition check (cond : bool) (e : exn) : M unit :=
  if cond then ret tt else raise e.

(** [assert cond]. *)
Definition assert (cond : bool) : M unit := check cond AssertionError.

Definition when (cond : bool) (m : M unit) : M unit :=
  if cond then m else ret tt.

Definition lift {A} (o : outcome A) : M A := fun w => (o, w).

(** What a conversion returned, or the [ValueError] it raised. *)
Definition converted_or_raise {A} (o : option A) : M A :=
  match o with
  | Some a => ret a
  | None => raise ValueError
  end.

(** ** The file system *)

Definition isdir (w : world) (p : path) : bool :=
  bool_decide (p = []) || bool_decide (p ∈ dirs w).

Definition isfile (w : world) (p : path) : bool :=
  bool_decide (is_Some (files w !! p)).

(** [os.path.exists(p)]. *)
Definition path_exists (w : world) (p : path) : bool :=
  isdir w p || isfile w p.

Definition parent (p : path) : path := removelast p.

(** The path itself and the directories above it. *)
Definition ancestors (p : path) : list path :=
  map (fun n => take n p) (seq 0 (S (length p))).

(** [shutil.rmtree(d)]: the directory and all below it. *)
Definition rmtree (d : path) : M unit := fun w =>
  (Ok tt,
   {| dirs := filter (fun p => ¬ d `prefix_of` p) (dirs w);
      files := filter (fun kv => ¬ d `prefix_of` kv.1) (files w);
      rendered := rendered w |}).

(** [os.makedirs(p, exist_ok=True)]. *)
Definition makedirs (p : path) : M unit := fun w =>
  if existsb (isfile w) (ancestors p) then (Raise OSError, w)
  else (Ok tt,
        {| dirs := dirs w ∪ list_to_set (ancestors p);
           files := files w; rendered := rendered w |}).

(** [os.remove(p)]. *)
Definition remove (p : path) : M unit := fun w =>
  if isfile w p
  then (Ok tt, {| dirs := dirs w; files := delete p (files w);
                  rendered := rendered w |})
  else (Raise OSError, w).

(** Opening [p] for writing: not a directory, inside a directory. *)
Definition writable (w : world) (p : path) : bool :=
  negb (isdir w p) && isdir w (parent p).

(** [img.save(p, 'PNG')]. The file is opened for writing first; the
    encoder then refuses an image without pixels with a [ValueError],
    which leaves a file that was there empty (a file that was not there
    is removed again). *)
Definition save_png (p : path) (img : image) : M unit := fun w =>
  if writable w p
  then if (0 <? Raster.width img) && (0 <? Raster.height img)
       then (Ok tt, {| dirs := dirs w; files := <[p := [PngData img]]> (files w);
                       rendered := rendered w |})
       else (Raise ValueError,
             {| dirs := dirs w; files := alter (fun _ => []) p (files w);
                rendered := rendered w |})
  else (Raise OSError, w).

(** [with open(p, 'a') as f: for item in buffer: f.write(json.dumps(item) + '\n')]. *)
Definition append_lines (p : path) (buffer : list item) : M unit := fun w =>
  if writable w p
  then (Ok tt,
        {| dirs := dirs w;
           files := <[p := default [] (files w !! p)
                           ++ map (fun it => Line (Some it)) buffer]> (files w);
           rendered := rendered w |})
  else (Raise OSError, w).

(** The identifiers found in the ledger: lines that do not parse are
    skipped, a parsed line gives [item.get('unique_id')]. *)
Definition ledger_ids (recs : list record) : list (option string) :=
  omap (fun r => match r with
                 | Line (Some it) => Some (unique_id it)
                 | _ => None
                 end) recs.

Definition read_ledger (p : path) : M (list (option string)) := fun w =>
  match files w !! p with
  | Some recs => (Ok (ledger_ids recs), w)
  | None => (Raise OSError, w)
  end.

Definition os_path_exists (p : path) : M bool := fun w => (Ok (path_exists w p), w).
Definition os_path_isdir (p : path) : M bool := fun w => (Ok (isdir w p), w).

Definition log_render (id : string) : M unit := fun w =>
  (Ok tt, {| dirs := dirs w; files := files w; rendered := rendered w ++ [id] |}).

(** ** [text_to_images] *)

(** [RE_CJK.search(text)]. *)
Definition has_cjk (text : Text.pystr) : bool :=
  existsb (fun c => (0x4E00 <=? c)%N && (c <=? 0x9FFF)%N) text.

(** An integer read from a configuration value ([bool] is an [int]). *)
Definition int_of (v : Config.value) : option Z :=
  match v with
  | Config.VNum z => Some z
  | Config.VBool b => Some (if b then 1 else 0)
  | _ => None
  end.

(** [isinstance(v, str)]. *)
Definition is_str (v : Config.value) : bool :=
  match v with
  | Config.VStr _ => true
  | _ => false
  end.

(** The values [v + 1] returns for. *)
Definition is_number (v : Config.value) : bool :=
  match v with
  | Config.VNum _ | Config.VBool _ | Config.VFloat _ => true
  | _ => false
  end.

(** [horizontal_scale != 1.0]. *)
Definition differs_from_one (v : Config.value) : bool :=
  match v with
  | Config.VNum z => negb (z =? 1)
  | Config.VBool b => negb b
  | Config.VFloat r => negb (String.eqb r "1.0")
  | _ => true
  end.

(** [range(1, total + 1, batch)]. *)
Definition batch_starts (total batch : Z) : list Z :=
  map (fun i => 1 + batch * i) (Raster.zrange ((total + batch - 1) / batch)).

(** [convert_from_bytes(pdf_bytes, dpi=dpi, first_page=first, last_page=last)]:
    the pages [first..last] of the document, in order. *)
Definition convert_from_bytes (doc : pdf) (dpi : Config.value) (first last : Z)
    : list image :=
  take (Z.to_nat (last - first + 1)) (drop (Z.to_nat (first - 1)) (rasterize doc dpi)).

(** [min(limit, index + margin)], as the crop box takes it: an integer
    margin is added as it is, a float margin goes through the rounding of
    [img.crop], any other value raises [TypeError] at the sum. *)
Definition crop_bound (limit index : Z) (margin : Config.value) : M Z :=
  match margin with
  | Config.VNum z => ret (Z.min limit (index + z))
  | Config.VBool b => ret (Z.min limit (index + (if b then 1 else 0)))
  | Config.VFloat r => lift (float_bound limit index r)
  | _ => raise TypeError
  end.

(** [img.crop((0, 0, right, lower))]; Pillow refuses a box whose right
    edge lies left of its left edge, or whose lower edge lies above its
    upper edge. *)
Definition pil_crop (img : image) (right lower : Z) : M image :=
  check ((0 <=? right) && (0 <=? lower)) ValueError;;
  ret (Raster.crop img 0 0 right lower).

(** The crop of one page:
<<
  if auto_crop_width or (auto_crop_last_page and offset == num_pages):
      ... mask ...
      if auto_crop_width:
          cols = np.where(mask.any(axis=0))[0]
          if cols.size:
              rightmost_col = cols[-1] + 1
              right = min(img.width, rightmost_col + margin_x)
              img = img.crop((0, 0, right, img.height))
      if auto_crop_last_page and offset == num_pages:
          rows = np.where(mask.any(axis=1))[0]
          if rows.size:
              last_row = rows[-1]
              lower = min(img.height, last_row + margin_y)
              img = img.crop((0, 0, img.width, lower))
>>
    A margin is looked at only where a cut is made. *)
Definition crop_one (auto_crop_width auto_crop_last_page : bool)
    (margin_x margin_y : Config.value) (offset num_pages : Z) (img : image)
    : M image :=
  let last_page := auto_crop_last_page && (offset =? num_pages) in
  if auto_crop_width || last_page then
    let m := Raster.mask luma 2 5 img in
    let cols := Raster.cols_of m img in
    let rows := Raster.rows_of m img in
    let* img1 :=
      (if auto_crop_width then
         match last cols with
         | Some c =>
             let rightmost_col := c + 1 in
             let* right := crop_bound (Raster.width img) rightmost_col margin_x in
             pil_crop img right (Raster.height img)
         | None => ret img
         end
       else ret img) in
    if last_page then
      match last rows with
      | Some last_row =>
          let* lower := crop_bound (Raster.height img1) last_row margin_y in
          pil_crop img1 (Raster.width img1) lower
      | None => ret img1
      end
    else ret img1
  else ret img.

Record page_settings := PageSettings {
  horizontal_scale : Config.value;
  auto_crop_width : bool;
  auto_crop_last_page : bool;
  margin_x : Config.value;
  margin_y : Config.value
}.

(** The body of the inner loop: scale, crop, save, and the path. *)
Definition render_page (s : page_settings) (out_root : path) (num_pages : Z)
    (offset : Z) (img : image) : M path :=
  let* img := (if differs_from_one (horizontal_scale s)
               then lift (resize_width (horizontal_scale s) img)
               else ret img) in
  let* img := crop_one (auto_crop_width s) (auto_crop_last_page s)
                (margin_x s) (margin_y s) offset num_pages img in
  let out_path := out_root ++ [Naming.page_name offset] in
  save_png out_path img;;
  ret out_path.

(** [for offset, img in enumerate(images, start=start)]. *)
Fixpoint render_pages (s : page_settings) (out_root : path) (num_pages : Z)
    (offset : Z) (images : list image) : M (list path) :=
  match images with
  | [] => ret []
  | img :: rest =>
      let* p := render_page s out_root num_pages offset img in
      let* ps := render_pages s out_root num_pages (offset + 1) rest in
      ret (p :: ps)
  end.

(** [for start in range(1, total + 1, batch)]. *)
Fixpoint render_batches (s : page_settings) (out_root : path) (doc : pdf)
    (dpi : Config.value) (total batch : Z) (starts : list Z) : M (list path) :=
  match starts with
  | [] => ret []
  | start :: rest =>
      let last := Z.min (start + batch - 1) total in
      let images := convert_from_bytes doc dpi start last in
      let* ps := render_pages s out_root total start images in
      let* qs := render_batches s out_root doc dpi total batch rest in
      ret (ps ++ qs)
  end.

(** The settings [text_to_images] reads for its page loop, with the
    defaults of its [config.get] calls. *)
Definition page_settings_of (config : Config.dict) : page_settings :=
  {| horizontal_scale := Config.get config "horizontal-scale" (Config.VFloat "1.0");
     auto_crop_width :=
       Config.truthy (Config.get config "auto-crop-width" (Config.VBool false));
     auto_crop_last_page :=
       Config.truthy (Config.get config "auto-crop-last-page" (Config.VBool false));
     margin_x := Config.get config "margin-x" (Config.VNum 20);
     margin_y := Config.get config "margin-y" (Config.VNum 20) |}.

Definition dpi_of (config : Config.dict) : Config.value :=
  Config.get config "dpi" (Config.VNum 72).

(** The document built from the text: the styles are set up, the
    normalised lines are grouped by 30 and joined by the new-line markup
    ([newline_markup.join], an [AttributeError] when the markup is not a
    string), and the story is typeset by the engine. *)
Definition document (text : Text.pystr) (config : Config.dict) : outcome pdf :=
  if accepts_styles config then
    match Config.get config "newline-markup" (Config.VStr "<br/>") with
    | Config.VStr newline_markup =>
        let parts := Text.normalize text in
        let story := Text.story (Text.lit newline_markup) 30 parts in
        match build_pdf config (has_cjk text) story with
        | Some doc => Ok doc
        | None => Raise EngineError
        end
    | _ => Raise AttributeError
    end
  else Raise EngineError.

(** [text_to_images] up to [doc.build], none of which touches the file
    tree:
<<
  config = config_dict.copy()
  ... (the conversions of the colours, the alignment and the page size)
  font_path = config.get('font-path')
  assert font_path, "Must provide font-path"
  font_name = os.path.basename(font_path).split('.')[0]
  font_size = config.get('font-size', 9)
  line_height = config.get('line-height') or (font_size + 1)
  ...
  doc.build(story, ...)
>>
    [os.path.basename] raises [TypeError] on a value that is not a
    string, [font_size + 1] on one that is not a number. The result is
    the converted configuration and the document. *)
Definition typeset (text : Text.pystr) (config_dict : Config.dict)
    : outcome (Config.dict * pdf) :=
  match Config.convert_special config_dict with
  | None => Raise ValueError
  | Some config =>
      let font_path := Config.get config "font-path" Config.VNull in
      if negb (Config.truthy font_path) then Raise AssertionError
      else if negb (is_str font_path) then Raise TypeError
      else
        let font_size := Config.get config "font-size" (Config.VNum 9) in
        let line_height := Config.get config "line-height" Config.VNull in
        if negb (Config.truthy line_height || is_number font_size) then Raise TypeError
        else match document text config with
             | Ok doc => Ok (config, doc)
             | Raise e => Raise e
             end
  end.

(** [text_to_images(text, output_dir, config_dict=config, unique_id=id)];
    the batch always passes the identifier. *)
Definition text_to_images (text : Text.pystr) (output_dir : path)
    (config_dict : Config.dict) (unique_id : string) : M (list path) :=
  log_render unique_id;;
  let* typeset_doc := lift (typeset text config_dict) in
  let config := typeset_doc.1 in
  let doc := typeset_doc.2 in
  let out_root := output_dir ++ [unique_id] in
  makedirs out_root;;
  let dpi := dpi_of config in
  check (rasterizes doc dpi) EngineError;;
  let total := Z.of_nat (length (rasterize doc dpi)) in
  let batch := 20 in
  render_batches (page_settings_of config) out_root doc dpi total batch
    (batch_starts total batch).

(** ** [process_one] and [batch_process_to_images] *)

Record globals := Globals {
  GLOBAL_CONFIG : Config.dict;
  OUTPUT_DIR : path;
  recover : bool
}.

(** [assert _id]: a missing or empty identifier is falsy. *)
Definition checked_id (it : item) : M string :=
  match unique_id it with
  | Some _id => if String.eqb _id "" then raise AssertionError else ret _id
  | None => raise AssertionError
  end.

(** [process_one(item)]:
<<
  _id = item.get('unique_id')
  assert _id
  if recover and os.path.exists(os.path.join(OUTPUT_DIR, _id)):
      item['image_paths'] = []
      return item
  item_config = item.get('config', {}) or {}
  config = {**GLOBAL_CONFIG, **item_config}
  ... (the conversions of the tokens of item_config)
  text = item.get('context', '')
  assert text
  image_paths = text_to_images(text=text, output_dir=OUTPUT_DIR,
                               config_dict=config, unique_id=_id)
  item['image_paths'] = image_paths
  return item
>> *)
Definition process_one (g : globals) (it : item) : M item :=
  let* _id := checked_id it in
  let* done := (if recover g then os_path_exists (OUTPUT_DIR g ++ [_id])
                else ret false) in
  if done then ret (set_image_paths it [])
  else
    let item_config := default ∅ (config it) in
    let* config := converted_or_raise
                     (Config.item_config_of (GLOBAL_CONFIG g) item_config) in
    let text := default [] (context it) in
    assert (negb (bool_decide (text = [])));;
    let* image_paths := text_to_images text (OUTPUT_DIR g) config _id in
    ret (set_image_paths it image_paths).

(** The loop over the results, with its buffer:
<<
  batch_buffer.append(result_item)
  if len(batch_buffer) >= batch_size:
      ... append the buffer to the ledger ...
      batch_buffer = []
>>
    The workers of the pool run side by side. The model runs
    [process_one] on the items one after another, in the order in which
    their results arrive, and stops at the first exception, which is
    raised again where the loop asks for that result; in the program the
    other workers may by then have rendered further items. A result is a
    dict with [image_paths] in it, so [if result_item:] always holds. *)
Fixpoint collect (g : globals) (output_jsonl_path : path) (batch_size : nat)
    (items : list item) (batch_buffer : list item) : M (list item) :=
  match items with
  | [] => ret batch_buffer
  | it :: rest =>
      let* result_item := process_one g it in
      let batch_buffer := batch_buffer ++ [result_item] in
      if (batch_size <=? length batch_buffer)%nat
      then append_lines output_jsonl_path batch_buffer;;
           collect g output_jsonl_path batch_size rest []
      else collect g output_jsonl_path batch_size rest batch_buffer
  end.

(** The preparation of a run without recovery:
<<
  if not recover:
      if os.path.isdir(output_dir):
          shutil.rmtree(output_dir)
      os.makedirs(output_dir, exist_ok=True)
      if os.path.exists(output_jsonl_path):
          os.remove(output_jsonl_path)
>> *)
Definition prepare (output_dir output_jsonl_path : path) : M unit :=
  let* is_dir := os_path_isdir output_dir in
  when is_dir (rmtree output_dir);;
  makedirs output_dir;;
  let* present := os_path_exists output_jsonl_path in
  when present (remove output_jsonl_path).

(** The items still to process: those whose identifier is not in the
    ledger. *)
Definition pending (processed_ids : list (option string)) (data : list item)
    : list item :=
  List.filter (fun it => negb (bool_decide (unique_id it ∈ processed_ids))) data.

(** [batch_process_to_images]; [config_file] and [data] are what the
    configuration file and the input file hold, [None] when they cannot
    be read. The configuration is loaded first:
<<
  GLOBAL_CONFIG = load_config(config_path)
  ...
  if not recover:
      ... (the preparation)
  with open(json_path, 'r', encoding='utf-8') as f:
      data_to_process = json.load(f)
>> *)
Definition batch_process_to_images (config_file : option Config.dict)
    (data : option (list item)) (output_dir output_jsonl_path : path)
    (is_recover : bool) (batch_size : nat) : M unit :=
  match config_file with
  | None => raise InputError
  | Some file =>
      let* loaded := converted_or_raise (Config.load_config file) in
      let g := {| GLOBAL_CONFIG := loaded;
                  OUTPUT_DIR := output_dir; recover := is_recover |} in
      when (negb is_recover) (prepare output_dir output_jsonl_path);;
      match data with
      | None => raise InputError
      | Some data_to_process =>
          let* has_ledger := (if is_recover then os_path_exists output_jsonl_path
                              else ret false) in
          let* processed_ids := (if has_ledger then read_ledger output_jsonl_path
                                 else ret []) in
          let data_to_process := pending processed_ids data_to_process in
          match data_to_process with
          | [] => ret tt
          | _ =>
              let* batch_buffer :=
                collect g output_jsonl_path batch_size
                  (completion_order item data_to_process) [] in
              match batch_buffer with
              | [] => ret tt
              | _ => append_lines output_jsonl_path batch_buffer
              end
          end
      end
  end.

(** ** Reasoning about effects *)

Lemma bind_ok {A C} (m : M A) (k : A -> M C) w a w' :
  m w = (Ok a, w') -> bind m k w = k a w'.
Proof. intros H. unfold bind. now rewrite H. Qed.

Lemma bind_raise {A C} (m : M A) (k : A -> M C) w e w' :
  m w = (Raise e, w') -> bind m k w = (Raise e, w').
Proof. intros H. unfold bind. now rewrite H. Qed.

Lemma bind_inv_ok {A C} (m : M A) (k : A -> M C) w c w'' :
  bind m k w = (Ok c, w'') ->
  exists a w', m w = (Ok a, w') /\ k a w' = (Ok c, w'').
Proof.
  unfold bind. destruct (m w) as [[a|e] w']; [eauto|discriminate].
Qed.

(** Every run of [m] relates the world before to the world after. *)
Definition preserves (R : world -> world -> Prop) {A} (m : M A) : Prop :=
  forall w, R w (m w).2.

Section Preserves.
Context (R : world -> world -> Prop) `{!PreOrder R}.

Lemma preserves_ret {A} (a : A) : preserves R (ret a).
Proof. intros w. reflexivity. Qed.

Lemma preserves_raise {A} e : preserves R (@raise A e).
Proof. intros w. reflexivity. Qed.

Lemma preserves_lift {A} (o : outcome A) : preserves R (lift o).
Proof. intros w. reflexivity. Qed.

Lemma preserves_bind {A C} (m : M A) (k : A -> M C) :
  preserves R m -> (forall a, preserves R (k a)) -> preserves R (bind m k).
Proof.
  intros Hm Hk w. unfold bind. specialize (Hm w).
  destruct (m w) as [[a|e] w']; cbn in *; [|exact Hm].
  etrans; [exact Hm|apply Hk].
Qed.

Lemma preserves_check c e : preserves R (check c e).
Proof. intros w. destruct c; reflexivity. Qed.

Lemma preserves_assert c : preserves R (assert c).
Proof. apply preserves_check. Qed.

Lemma preserves_converted_or_raise {A} (o : option A) :
  preserves R (converted_or_raise o).
Proof. intros w. destruct o; reflexivity. Qed.

Lemma preserves_when c m : preserves R m -> preserves R (when c m).
Proof. intros Hm. destruct c; [exact Hm|apply preserves_ret]. Qed.

Lemma preserves_os_path_exists p : preserves R (os_path_exists p).
Proof. intros w. reflexivity. Qed.

Lemma preserves_os_path_isdir p : preserves R (os_path_isdir p).
Proof. intros w. reflexivity. Qed.

Lemma preserves_read_ledger p : preserves R (read_ledger p).
Proof. intros w. unfold read_ledger. destruct (files w !! p); reflexivity. Qed.

Lemma preserves_checked_id it : preserves R (checked_id it).
Proof.
  unfold checked_id. destruct (unique_id it) as [i|]; [|apply preserves_raise].
  destruct (String.eqb i ""); [apply preserves_raise|apply preserves_ret].
Qed.

Lemma preserves_crop_bound limit index margin :
  preserves R (crop_bound limit index margin).
Proof.
  destruct margin; cbn [crop_bound];
    first [apply preserves_ret|apply preserves_raise|apply preserves_lift].
Qed.

Lemma preserves_pil_crop img right lower : preserves R (pil_crop img right lower).
Proof.
  unfold pil_crop. apply preserves_bind; [apply preserves_check|].
  intros _. apply preserves_ret.
Qed.

Lemma preserves_crop_one acw aclp mx my offset num img :
  preserves R (crop_one acw aclp mx my offset num img).
Proof.
  unfold crop_one. cbv zeta.
  destruct (acw || aclp && (offset =? num)); [|apply preserves_ret].
  apply preserves_bind.
  - destruct acw; [|apply preserves_ret].
    destruct (last _); [|apply preserves_ret].
    apply preserves_bind; [apply preserves_crop_bound|].
    intros right. apply preserves_pil_crop.
  - intros img1. destruct (aclp && (offset =? num)); [|apply preserves_ret].
    destruct (last _); [|apply preserves_ret].
    apply preserves_bind; [apply preserves_crop_bound|].
    intros lower. apply preserves_pil_crop.
Qed.

(** The page loop touches the world through [save_png] only. *)
Lemma preserves_render_page s out_root num offset img :
  (forall p img, parent p = out_root -> preserves R (save_png p img)) ->
  preserves R (render_page s out_root num offset img).
Proof.
  intros Hsave. unfold render_page.
  apply preserves_bind.
  { destruct (differs_from_one _); [apply preserves_lift|apply preserves_ret]. }
  intros img0.
  apply preserves_bind; [apply preserves_crop_one|]. intros img'.
  apply preserves_bind; [|intros; apply preserves_ret].
  apply Hsave. unfold parent. apply removelast_last.
Qed.

Lemma preserves_render_pages s out_root num offset images :
  (forall p img, parent p = out_root -> preserves R (save_png p img)) ->
  preserves R (render_pages s out_root num offset images).
Proof.
  intros Hsave. revert offset.
  induction images as [|img rest IH]; intros offset; cbn [render_pages].
  - apply preserves_ret.
  - apply preserves_bind; [now apply preserves_render_page|]. intros p.
    apply preserves_bind; [apply IH|]. intros ps. apply preserves_ret.
Qed.

Lemma preserves_render_batches s out_root doc dpi total batch starts :
  (forall p img, parent p = out_root -> preserves R (save_png p img)) ->
  preserves R (render_batches s out_root doc dpi total batch starts).
Proof.
  intros Hsave.
  induction starts as [|start rest IH]; cbn [render_batches].
  - apply preserves_ret.
  - apply preserves_bind; [now apply preserves_render_pages|]. intros ps.
    apply preserves_bind; [apply IH|]. intros qs. apply preserves_ret.
Qed.

(** [text_to_images] touches the world through the log, [makedirs] of
    the item's directory and [save_png] inside it. *)
Lemma preserves_text_to_images text output_dir config_dict id :
  preserves R (log_render id) ->
  preserves R (makedirs (output_dir ++ [id])) ->
  (forall p img, parent p = output_dir ++ [id] -> preserves R (save_png p img)) ->
  preserves R (text_to_images text output_dir config_dict id).
Proof.
  intros Hlog Hmk Hsave. unfold text_to_images.
  apply preserves_bind; [exact Hlog|]. intros _.
  apply preserves_bind; [apply preserves_lift|]. intros typeset_doc.
  apply preserves_bind; [exact Hmk|]. intros _.
  apply preserves_bind; [apply preserves_check|]. intros _.
  now apply preserves_render_batches.
Qed.

End Preserves.

(** Steps that leave the world alone, and sequencing. *)
Ltac pres_leaf :=
  first [ apply preserves_ret | apply preserves_raise | apply preserves_assert
        | apply preserves_check | apply preserves_converted_or_raise
        | apply preserves_lift | apply preserves_os_path_exists
        | apply preserves_os_path_isdir | apply preserves_read_ledger
        | apply preserves_checked_id ];
  try apply _.
Ltac pres_bind := apply preserves_bind; [apply _| |].

(** ** Paths *)

Lemma child_of_parent (p q : path) :
  q <> [] -> parent p = q -> exists x, p = q ++ [x].
Proof.
  intros Hq Hp. unfold parent in Hp.
  destruct (decide (p = [])) as [->|Hne]; [cbn in Hp; congruence|].
  exists (List.last p ""%string). rewrite <- Hp.
  now apply app_removelast_last.
Qed.

Lemma sibling_not_below (out : path) (id id' x : string) :
  id' <> id -> ¬ (out ++ [id]) `prefix_of` (out ++ [id'] ++ [x]).
Proof.
  intros Hne Hpre. apply prefix_app_inv in Hpre.
  apply prefix_cons_inv_1 in Hpre. congruence.
Qed.

Lemma isfile_insert w p q (recs : list record) :
  isfile w q = true ->
  bool_decide (is_Some (<[p := recs]> (files w) !! q)) = true.
Proof.
  unfold isfile. rewrite !bool_decide_eq_true. intros Hq.
  destruct (decide (p = q)) as [->|Hne].
  - rewrite lookup_insert_eq. eauto.
  - now rewrite lookup_insert_ne.
Qed.

Lemma isfile_alter w p q (f : list record -> list record) :
  isfile w q = true ->
  bool_decide (is_Some (alter f p (files w) !! q)) = true.
Proof.
  unfold isfile. rewrite !bool_decide_eq_true. intros [x Hx].
  destruct (decide (p = q)) as [->|Hne].
  - rewrite lookup_alter_eq, Hx. cbn. eauto.
  - rewrite lookup_alter_ne by exact Hne. eauto.
Qed.

(** ** Resuming: what a run in recover mode leaves alone *)

(** As long as the directory [d] of identifier [id] exists, it keeps
    existing, the files below it are not touched, and the pipeline is not
    invoked for [id]. *)
Definition untouched (d : path) (id : string) (w w' : world) : Prop :=
  path_exists w d = true ->
  path_exists w' d = true
  /\ (forall p, d `prefix_of` p -> files w' !! p = files w !! p)
  /\ exists new, rendered w' = rendered w ++ new /\ id ∉ new.

Lemma untouched_refl d id w : untouched d id w w.
Proof.
  intros H. split; [exact H|]. split; [reflexivity|].
  exists []. split; [now rewrite app_nil_r|apply not_elem_of_nil].
Qed.

Lemma untouched_trans d id w1 w2 w3 :
  untouched d id w1 w2 -> untouched d id w2 w3 -> untouched d id w1 w3.
Proof.
  intros H12 H23 H1. destruct (H12 H1) as (H2 & Hf12 & n12 & Hr12 & Hn12).
  destruct (H23 H2) as (H3 & Hf23 & n23 & Hr23 & Hn23).
  split; [exact H3|]. split.
  - intros p Hp. now rewrite Hf23, Hf12.
  - exists (n12 ++ n23). split.
    + now rewrite Hr23, Hr12, app_assoc.
    + intros Hin. apply elem_of_app in Hin. tauto.
Qed.

#[local] Instance untouched_preorder d id : PreOrder (untouched d id).
Proof.
  split; [intros w; apply untouched_refl|intros w1 w2 w3; apply untouched_trans].
Qed.

Lemma untouched_log_render d id id' :
  id' <> id -> preserves (untouched d id) (log_render id').
Proof.
  intros Hne w H. cbn. split; [exact H|]. split; [reflexivity|].
  exists [id']. split; [reflexivity|].
  intros Hin. apply list_elem_of_singleton in Hin. congruence.
Qed.

Lemma untouched_same_log d id w w' :
  (path_exists w d = true -> path_exists w' d = true) ->
  (forall p, d `prefix_of` p -> files w' !! p = files w !! p) ->
  rendered w' = rendered w ->
  untouched d id w w'.
Proof.
  intros He Hf Hr H. split; [auto|]. split; [exact Hf|].
  exists []. split; [now rewrite app_nil_r|apply not_elem_of_nil].
Qed.

Lemma untouched_makedirs d id q : preserves (untouched d id) (makedirs q).
Proof.
  intros w. unfold makedirs.
  destruct (existsb (isfile w) (ancestors q)); [apply untouched_refl|].
  cbn. apply untouched_same_log; cbn; try reflexivity.
  unfold path_exists, isdir, isfile. cbn.
  rewrite !orb_true_iff, !bool_decide_eq_true.
  intros [[H|H]|H]; auto. left. right. set_solver.
Qed.

Lemma untouched_save_png d id p img :
  ¬ d `prefix_of` p -> preserves (untouched d id) (save_png p img).
Proof.
  intros Hp w. unfold save_png.
  destruct (writable w p); [|apply untouched_refl].
  destruct ((0 <? Raster.width img) && (0 <? Raster.height img)).
  - cbn. apply untouched_same_log; cbn; try reflexivity.
    + unfold path_exists. rewrite !orb_true_iff. intros [H|H]; [now left|right].
      now apply isfile_insert.
    + intros q Hq. apply lookup_insert_ne. intros ->. now apply Hp.
  - cbn. apply untouched_same_log; cbn; try reflexivity.
    + unfold path_exists. rewrite !orb_true_iff. intros [H|H]; [now left|right].
      now apply isfile_alter.
    + intros q Hq. apply lookup_alter_ne. intros ->. now apply Hp.
Qed.

Lemma untouched_append_lines d id p buffer :
  ¬ d `prefix_of` p -> preserves (untouched d id) (append_lines p buffer).
Proof.
  intros Hp w. unfold append_lines.
  destruct (writable w p); [|apply untouched_refl].
  cbn. apply untouched_same_log; cbn; try reflexivity.
  - unfold path_exists. rewrite !orb_true_iff. intros [H|H]; [now left|right].
    now apply isfile_insert.
  - intros q Hq. apply lookup_insert_ne. intros ->. now apply Hp.
Qed.

Lemma untouched_text_to_images out id id' text config_dict :
  id' <> id ->
  preserves (untouched (out ++ [id]) id) (text_to_images text out config_dict id').
Proof.
  intros Hne. apply preserves_text_to_images.
  - apply _.
  - now apply untouched_log_render.
  - apply untouched_makedirs.
  - intros p img Hp. apply untouched_save_png.
    apply child_of_parent in Hp; [|now destruct out].
    destruct Hp as [x ->]. rewrite <- app_assoc.
    now apply sibling_not_below.
Qed.

Lemma checked_id_ok it id :
  unique_id it = Some id -> id <> ""%string ->
  forall w, checked_id it w = (Ok id, w).
Proof.
  intros Hid Hne w. unfold checked_id. rewrite Hid.
  now rewrite (proj2 (String.eqb_neq id "") Hne).
Qed.

Lemma checked_id_inv it id w w' :
  checked_id it w = (Ok id, w') ->
  unique_id it = Some id /\ id <> ""%string /\ w' = w.
Proof.
  unfold checked_id. destruct (unique_id it) as [i|]; [|discriminate].
  destruct (String.eqb_spec i ""); [discriminate|].
  intros [= <- <-]. auto.
Qed.

(** The skip of [process_one]. *)
Lemma process_one_skips g it id w :
  recover g = true -> unique_id it = Some id -> id <> ""%string ->
  path_exists w (OUTPUT_DIR g ++ [id]) = true ->
  process_one g it w = (Ok (set_image_paths it []), w).
Proof.
  intros Hr Hid Hne Hex. unfold process_one.
  rewrite (bind_ok _ _ w id w (checked_id_ok it id Hid Hne w)).
  rewrite Hr. unfold bind, os_path_exists. now rewrite Hex.
Qed.

Lemma untouched_process_one g it id :
  recover g = true ->
  preserves (untouched (OUTPUT_DIR g ++ [id]) id) (process_one g it).
Proof.
  intros Hr w. unfold process_one.
  destruct (checked_id it w) as [[id'|e] w1] eqn:Hc.
  - apply checked_id_inv in Hc as Hc'. destruct Hc' as (Hid & Hne & ->).
    rewrite (bind_ok _ _ _ _ _ Hc). rewrite Hr.
    unfold bind at 1, os_path_exists at 1.
    destruct (path_exists w (OUTPUT_DIR g ++ [id'])) eqn:Hex.
    + apply untouched_refl.
    + destruct (decide (id' = id)) as [->|Hdiff].
      * intros H. congruence.
      * pres_bind; [pres_leaf|]. intros config0.
        pres_bind; [pres_leaf|]. intros _.
        pres_bind; [now apply untouched_text_to_images|].
        intros paths. pres_leaf.
  - rewrite (bind_raise _ _ _ _ _ Hc). cbn.
    unfold checked_id in Hc. destruct (unique_id it) as [i|].
    + destruct (String.eqb i ""); inversion Hc; subst; apply untouched_refl.
    + inversion Hc; subst. apply untouched_refl.
Qed.

Lemma untouched_collect g jsonl bs id items buffer :
  recover g = true ->
  ¬ (OUTPUT_DIR g ++ [id]) `prefix_of` jsonl ->
  preserves (untouched (OUTPUT_DIR g ++ [id]) id) (collect g jsonl bs items buffer).
Proof.
  intros Hr Hj. revert buffer.
  induction items as [|it rest IH]; intros buffer; cbn [collect].
  - pres_leaf.
  - pres_bind; [now apply untouched_process_one|].
    intros r. destruct (bs <=? length (buffer ++ [r]))%nat.
    + pres_bind; [now apply untouched_append_lines|].
      intros _. apply IH.
    + apply IH.
Qed.

Lemma untouched_batch file data out jsonl bs id :
  ¬ (out ++ [id]) `prefix_of` jsonl ->
  preserves (untouched (out ++ [id]) id)
    (batch_process_to_images file data out jsonl true bs).
Proof.
  intros Hj. unfold batch_process_to_images.
  destruct file as [file|]; [|pres_leaf].
  pres_bind; [pres_leaf|]. intros loaded.
  pres_bind; [pres_leaf|]. intros _.
  destruct data as [data|]; [|pres_leaf].
  pres_bind; [pres_leaf|].
  intros has_ledger.
  pres_bind; [ |].
  { destruct has_ledger; [pres_leaf|pres_leaf]. }
  intros ids. destruct (pending ids data) as [|it0 rest]; [pres_leaf|].
  pres_bind; [ |].
  { now apply (untouched_collect
                 {| GLOBAL_CONFIG := loaded;
                    OUTPUT_DIR := out; recover := true |}). }
  intros buffer. destruct buffer; [pres_leaf|].
  now apply untouched_append_lines.
Qed.


(** ** Items that fail validation *)

(** The identifier is missing or empty. *)
Definition invalid_id (it : item) : Prop :=
  unique_id it = None \/ unique_id it = Some ""%string.

(** The content is missing or empty. *)
Definition empty_content (it : item) : Prop :=
  context it = None \/ context it = Some [].

(** The identifier of the item is on a line of the ledger. *)
Definition in_ledger (w : world) (output_jsonl_path : path) (it : item) : Prop :=
  exists recs, files w !! output_jsonl_path = Some recs
               /\ unique_id it ∈ ledger_ids recs.

Lemma process_one_invalid_id g it w :
  invalid_id it -> process_one g it w = (Raise AssertionError, w).
Proof.
  intros [H|H]; unfold process_one, bind, checked_id; now rewrite H.
Qed.

(** An item without content that is not skipped: [process_one] raises
    before the pipeline is entered, a [ValueError] when a token of the
    item's override does not convert, the [AssertionError] of
    [assert text] otherwise. *)
Lemma process_one_empty_content g it w :
  recover g = false
  \/ (forall id, unique_id it = Some id ->
        path_exists w (OUTPUT_DIR g ++ [id]) = false) ->
  empty_content it ->
  exists e, process_one g it w = (Raise e, w)
            /\ (e = AssertionError \/ e = ValueError).
Proof.
  intros Hr Hc. destruct (checked_id it w) as [[id|e] w1] eqn:Hid.
  - apply checked_id_inv in Hid as Hid'. destruct Hid' as (Hu & _ & ->).
    unfold process_one. rewrite (bind_ok _ _ _ _ _ Hid).
    assert (Hdone : (if recover g then os_path_exists (OUTPUT_DIR g ++ [id])
                     else ret false) w = (Ok false, w)).
    { destruct Hr as [-> | Hr]; [reflexivity|].
      destruct (recover g); [|reflexivity].
      unfold os_path_exists. now rewrite (Hr id Hu). }
    rewrite (bind_ok _ _ _ _ _ Hdone).
    destruct (Config.item_config_of (GLOBAL_CONFIG g) (default ∅ (config it)))
      as [config0|].
    + exists AssertionError. split; [|now left].
      unfold bind, converted_or_raise, ret, assert, check.
      now destruct Hc as [-> | ->].
    + exists ValueError. split; [reflexivity|now right].
  - exists e. unfold process_one. rewrite (bind_raise _ _ _ _ _ Hid).
    unfold checked_id in Hid. destruct (unique_id it) as [i|].
    + destruct (String.eqb i ""); inversion Hid; subst; auto.
    + inversion Hid; subst; auto.
Qed.

Lemma collect_raises g jsonl bs items buffer w it :
  it ∈ items ->
  (forall w1, exists e, (process_one g it w1).1 = Raise e) ->
  exists e, (collect g jsonl bs items buffer w).1 = Raise e.
Proof.
  intros Hin Hraise. revert buffer w.
  induction items as [|it0 rest IH]; intros buffer w; [now apply elem_of_nil in Hin|].
  cbn [collect]. unfold bind at 1.
  destruct (process_one g it0 w) as [[r|e] w1] eqn:Hp; [|now exists e].
  apply elem_of_cons in Hin. destruct Hin as [->|Hin].
  { destruct (Hraise w) as [e He]. rewrite Hp in He. discriminate. }
  destruct (bs <=? length (buffer ++ [r]))%nat; [|now apply IH].
  unfold bind. destruct (append_lines jsonl (buffer ++ [r]) w1) as [[[]|e] w2];
    [now apply IH|now exists e].
Qed.

Lemma elem_of_pending ids data it :
  it ∈ data -> unique_id it ∉ ids -> it ∈ pending ids data.
Proof.
  intros Hin Hid. unfold pending. apply list_elem_of_In, filter_In.
  split; [now apply list_elem_of_In|]. now rewrite bool_decide_eq_false_2.
Qed.

(** C5, as the code has it. An item without identifier makes
    [process_one] raise an assertion error, and so does an item without
    content that is not skipped (unless a token of its override fails to
    convert first, which raises a [ValueError]); in both cases before
    anything is touched for that item. Nothing catches the exception: a
    batch run whose input holds an item without identifier (in recover
    mode: one the ledger does not list), or in a run without recovery an
    item without content, ends with an exception. *)
Theorem invalid_item_aborts_batch
    (file : Config.dict) (data : list item) (output_dir output_jsonl_path : path)
    (is_recover : bool) (batch_size : nat) (it : item) (w : world) :
  it ∈ data ->
  (invalid_id it /\ (is_recover = true -> ¬ in_ledger w output_jsonl_path it))
  \/ (is_recover = false /\ empty_content it) ->
  (forall g w1, invalid_id it -> process_one g it w1 = (Raise AssertionError, w1))
  /\ (forall g w1,
        empty_content it ->
        recover g = false
        \/ (forall id, unique_id it = Some id ->
              path_exists w1 (OUTPUT_DIR g ++ [id]) = false) ->
        exists e, process_one g it w1 = (Raise e, w1)
                  /\ (e = AssertionError \/ e = ValueError))
  /\ exists e,
       (batch_process_to_images (Some file) (Some data) output_dir
          output_jsonl_path is_recover batch_size w).1 = Raise e.
Proof.
  intros Hin Hbad.
  split; [intros g w1 Hid; now apply process_one_invalid_id|].
  split; [intros g w1 Hc Hr; now apply process_one_empty_content|].
  unfold batch_process_to_images.
  destruct (Config.load_config file) as [loaded|]; [|now exists ValueError].
  rewrite (bind_ok _ _ w loaded w eq_refl).
  set (g := {| GLOBAL_CONFIG := loaded;
               OUTPUT_DIR := output_dir; recover := is_recover |}).
  assert (Hraise : forall w1, exists e, (process_one g it w1).1 = Raise e).
  { intros w1. destruct Hbad as [[Hid _]|[Hr Hc]].
    - exists AssertionError. now rewrite process_one_invalid_id.
    - destruct (process_one_empty_content g it w1) as (e & He & _);
        [left; now subst g|exact Hc|].
      exists e. now rewrite He. }
  unfold bind at 1.
  destruct (when (negb is_recover) (prepare output_dir output_jsonl_path) w)
    as [[[]|e] w0] eqn:Hprep; [|now exists e].
  assert (Hledger : is_recover = true -> w0 = w).
  { intros ->. cbn in Hprep. now inversion Hprep. }
  unfold bind at 1.
  destruct ((if is_recover then os_path_exists output_jsonl_path else ret false) w0)
    as [[has_ledger|e] w1] eqn:Hhas; [|now exists e].
  assert (Hw1 : w1 = w0).
  { destruct is_recover; now inversion Hhas. }
  subst w1. unfold bind at 1.
  destruct ((if has_ledger then read_ledger output_jsonl_path else ret []) w0)
    as [[ids|e] w2] eqn:Hids; [|now exists e].
  assert (Hpending : it ∈ pending ids data).
  { apply elem_of_pending; [exact Hin|].
    destruct has_ledger.
    - destruct is_recover; [|now inversion Hhas].
      rewrite (Hledger eq_refl) in *.
      unfold read_ledger in Hids.
      destruct (files w !! output_jsonl_path) as [recs|] eqn:Hrecs; [|discriminate].
      inversion Hids; subst. destruct Hbad as [[_ Hnl]|[? _]]; [|discriminate].
      intros Hmem. apply (Hnl eq_refl). now exists recs.
    - inversion Hids; subst. apply not_elem_of_nil. }
  destruct (pending ids data) as [|it0 rest] eqn:Hpend;
    [now apply elem_of_nil in Hpending|].
  rewrite <- Hpend in *. clear Hpend.
  assert (Hord : it ∈ completion_order item (pending ids data)).
  { now rewrite completion_order_perm. }
  destruct (collect_raises g output_jsonl_path batch_size
              (completion_order item (pending ids data)) [] w2 it Hord Hraise)
    as [e He].
  unfold bind.
  destruct (collect g output_jsonl_path batch_size
              (completion_order item (pending ids data)) [] w2) as [[buf|e'] w3];
    [discriminate|now exists e'].
Qed.

(** ** The paths [text_to_images] returns *)

(** Files stay files. *)
Definition grows (w w' : world) : Prop :=
  forall p, isfile w p = true -> isfile w' p = true.

#[local] Instance grows_preorder : PreOrder grows.
Proof. split; [intros w p; auto|intros w1 w2 w3 H12 H23 p; auto]. Qed.

Lemma grows_save_png p img : preserves grows (save_png p img).
Proof.
  intros w. unfold save_png. destruct (writable w p); [|reflexivity].
  destruct ((0 <? Raster.width img) && (0 <? Raster.height img));
    intros q Hq; [now apply isfile_insert|now apply isfile_alter].
Qed.

Lemma save_png_ok p img w w' :
  save_png p img w = (Ok tt, w') ->
  files w' = <[p := [PngData img]]> (files w)
  /\ dirs w' = dirs w /\ rendered w' = rendered w
  /\ 0 < Raster.width img /\ 0 < Raster.height img.
Proof.
  unfold save_png. destruct (writable w p); [|discriminate].
  destruct ((0 <? Raster.width img) && (0 <? Raster.height img)) eqn:E;
    [|discriminate].
  intros [= <-]. apply andb_prop in E. destruct E as [E1 E2].
  apply Z.ltb_lt in E1, E2. auto.
Qed.

Lemma render_page_ok s out_root num offset img w p w' :
  render_page s out_root num offset img w = (Ok p, w') ->
  p = out_root ++ [Naming.page_name offset] /\ isfile w' p = true.
Proof.
  unfold render_page. intros H.
  apply bind_inv_ok in H. destruct H as (img0 & w0 & _ & H).
  apply bind_inv_ok in H. destruct H as (img' & w1 & _ & H).
  apply bind_inv_ok in H. destruct H as ([] & w2 & Hsave & Hret).
  inversion Hret; subst. split; [reflexivity|].
  apply save_png_ok in Hsave. destruct Hsave as (Hf & _).
  unfold isfile. rewrite Hf, lookup_insert_eq. apply bool_decide_eq_true. eauto.
Qed.

Lemma render_pages_ok s out_root num images offset w ps w' :
  render_pages s out_root num offset images w = (Ok ps, w') ->
  ps = map (fun k => out_root ++ [Naming.page_name k])
           (seqZ offset (Z.of_nat (length images)))
  /\ Forall (fun p => isfile w' p = true) ps.
Proof.
  revert offset w ps w'.
  induction images as [|img rest IH]; intros offset w ps w' H.
  - inversion H; subst. split; [reflexivity|constructor].
  - cbn [render_pages] in H.
    apply bind_inv_ok in H. destruct H as (p & w1 & Hp & H).
    apply bind_inv_ok in H. destruct H as (qs & w2 & Hqs & Hret).
    inversion Hret; subst. clear Hret.
    apply render_page_ok in Hp. destruct Hp as [-> Hfile].
    pose proof (preserves_render_pages grows s out_root num (offset + 1) rest
                  (fun p img _ => grows_save_png p img) w1) as Hgrow.
    rewrite Hqs in Hgrow. cbn in Hgrow.
    apply IH in Hqs. destruct Hqs as [-> Hfiles]. split.
    + change (length (img :: rest)) with (S (length rest)).
      rewrite (seqZ_cons offset) by lia. cbn [map]. f_equal.
      replace (Z.succ offset) with (offset + 1) by lia.
      replace (Z.pred (Z.of_nat (S (length rest))))
        with (Z.of_nat (length rest)) by lia.
      reflexivity.
    + constructor; [now apply Hgrow|exact Hfiles].
Qed.

Lemma length_convert_from_bytes doc dpi first last :
  1 <= first -> first <= last + 1 ->
  last <= Z.of_nat (length (rasterize doc dpi)) ->
  Z.of_nat (length (convert_from_bytes doc dpi first last)) = last - first + 1.
Proof.
  intros H1 H2 H3. unfold convert_from_bytes.
  rewrite length_take, length_drop. lia.
Qed.

Lemma render_batches_ok s out_root doc dpi batch :
  0 < batch ->
  let total := Z.of_nat (length (rasterize doc dpi)) in
  forall n k w ps w',
    Z.of_nat (k + n) = (total + batch - 1) / batch ->
    render_batches s out_root doc dpi total batch
      (map (fun i => 1 + batch * i) (map Z.of_nat (seq k n))) w = (Ok ps, w') ->
    ps = map (fun j => out_root ++ [Naming.page_name j])
             (seqZ (1 + batch * Z.of_nat k) (total - batch * Z.of_nat k))
    /\ Forall (fun p => isfile w' p = true) ps.
Proof.
  intros Hbatch total.
  assert (Hq1 : total <= batch * ((total + batch - 1) / batch)).
  { pose proof (Z.mul_succ_div_gt (total + batch - 1) batch Hbatch). lia. }
  assert (Hq2 : batch * ((total + batch - 1) / batch) <= total + batch - 1).
  { apply Z.mul_div_le. exact Hbatch. }
  induction n as [|n IH]; intros k w ps w' Hk H.
  - inversion H; subst. rewrite seqZ_nil by nia. split; [reflexivity|constructor].
  - cbn [seq map render_batches] in H.
    apply bind_inv_ok in H. destruct H as (ps1 & w1 & H1 & H).
    apply bind_inv_ok in H. destruct H as (ps2 & w2 & H2 & Hret).
    inversion Hret; subst. clear Hret.
    pose proof (preserves_render_batches grows s out_root doc dpi total batch
                  (map (fun i => 1 + batch * i) (map Z.of_nat (seq (S k) n)))
                  (fun p img _ => grows_save_png p img) w1) as Hgrow.
    rewrite H2 in Hgrow. cbn in Hgrow.
    apply render_pages_ok in H1. destruct H1 as [-> Hf1].
    apply IH in H2; [|lia]. destruct H2 as [-> Hf2].
    assert (HS : batch * Z.of_nat (S k) = batch * Z.of_nat k + batch)
      by (rewrite Nat2Z.inj_succ; ring).
    rewrite HS in *.
    set (start := 1 + batch * Z.of_nat k) in *.
    assert (Hlt : batch * Z.of_nat k < total) by nia.
    rewrite length_convert_from_bytes by (subst start; lia).
    rewrite length_convert_from_bytes in Hf1 by (subst start; lia).
    split.
    + rewrite <- List.map_app. f_equal.
      destruct (Z.le_gt_cases (start + batch - 1) total) as [Hle|Hgt].
      * rewrite Z.min_l by exact Hle.
        replace (start + batch - 1 - start + 1) with batch by lia.
        replace (total - batch * Z.of_nat k)
          with (batch + (total - (batch * Z.of_nat k + batch))) by lia.
        rewrite (seqZ_app start batch) by (subst start; lia).
        do 2 f_equal. subst start. lia.
      * rewrite Z.min_r by lia.
        rewrite (seqZ_nil _ (total - (batch * Z.of_nat k + batch)))
          by (subst start; lia).
        rewrite app_nil_r. f_equal. subst start. lia.
    + apply Forall_app. split; [|exact Hf2].
      eapply Forall_impl; [exact Hf1|]. intros p. apply Hgrow.
Qed.

Lemma typeset_ok text config_dict config doc :
  typeset text config_dict = Ok (config, doc) ->
  Config.convert_special config_dict = Some config
  /\ Config.truthy (Config.get config "font-path" Config.VNull) = true
  /\ document text config = Ok doc.
Proof.
  unfold typeset. destruct (Config.convert_special config_dict) as [c|]; [|discriminate].
  cbv zeta.
  destruct (Config.truthy (Config.get c "font-path" Config.VNull)) eqn:Hfont;
    cbn [negb]; [|discriminate].
  destruct (negb (is_str _)); [discriminate|].
  destruct (negb _); [discriminate|].
  destruct (document text c) as [d|e] eqn:Hdoc; [|discriminate].
  intros [= <- <-]. auto.
Qed.

Lemma check_ok c e w u w' : check c e w = (Ok u, w') -> c = true /\ w' = w.
Proof. unfold check. destruct c; [|discriminate]. now intros [= <-]. Qed.

Lemma text_to_images_ok text output_dir config_dict id w paths w' :
  text_to_images text output_dir config_dict id w = (Ok paths, w') ->
  exists config doc,
    typeset text config_dict = Ok (config, doc)
    /\ rasterizes doc (dpi_of config) = true
    /\ paths = map (fun k => output_dir ++ [id; Naming.page_name k])
                   (seqZ 1 (Z.of_nat (length (rasterize doc (dpi_of config)))))
    /\ Forall (fun p => isfile w' p = true) paths.
Proof.
  unfold text_to_images. intros H.
  apply bind_inv_ok in H. destruct H as ([] & w1 & _ & H).
  apply bind_inv_ok in H. destruct H as ([config doc] & w2 & Hdoc & H).
  apply bind_inv_ok in H. destruct H as ([] & w3 & _ & H).
  apply bind_inv_ok in H. destruct H as ([] & w4 & Hras & H).
  apply check_ok in Hras. destruct Hras as [Hras ->].
  exists config, doc. split.
  { unfold lift in Hdoc. now inversion Hdoc. }
  split; [exact Hras|].
  cbv zeta in H. cbn [fst snd] in H. unfold batch_starts, Raster.zrange in H.
  set (total := Z.of_nat (length (rasterize doc (dpi_of config)))) in *.
  pose proof (render_batches_ok (page_settings_of config)
                (output_dir ++ [id]) doc (dpi_of config) 20 eq_refl
                (Z.to_nat ((total + 20 - 1) / 20)) 0%nat w3 paths w') as Hb.
  cbv zeta in Hb. fold total in Hb.
  destruct Hb as [-> Hf]; [|exact H|].
  { cbn [Nat.add]. rewrite Z2Nat.id; [reflexivity|].
    apply Z.div_pos; subst total; lia. }
  split; [|exact Hf].
  rewrite Z.mul_0_r, Z.add_0_r, Z.sub_0_r.
  apply map_ext. intros k. now rewrite <- app_assoc.
Qed.

(** C9, as the code has it. When [text_to_images] returns, the paths it
    returns are [output_dir/<identifier>/page_<NNN>.png] for the page
    indices 1, 2, ... up to the number of pages of the document, in that
    order and one per page, and each of them is a file. The index is
    written in decimal and padded with zeros to at least three digits:
    exactly three up to page 999, more than three from page 1000 on; read
    back as a number the digits give the index. *)
Theorem page_files_named
    (text : Text.pystr) (output_dir : path) (config_dict : Config.dict)
    (id : string) (w : world) (paths : list path) (w' : world) :
  text_to_images text output_dir config_dict id w = (Ok paths, w') ->
  (exists config doc,
     Config.convert_special config_dict = Some config
     /\ document text config = Ok doc
     /\ paths = map (fun k => output_dir ++ [id; Naming.page_name k])
                    (seqZ 1 (Z.of_nat (length (rasterize doc (dpi_of config)))))
     /\ Forall (fun p => isfile w' p = true) paths)
  /\ (forall k, Naming.page_name k
                = ("page_" ++ Naming.format_03d k ++ ".png")%string)
  /\ (forall k, (3 <= String.length (Naming.format_03d k))%nat)
  /\ (forall k, 0 <= k <= 999 -> String.length (Naming.format_03d k) = 3%nat)
  /\ (forall k, 1000 <= k -> (3 < String.length (Naming.format_03d k))%nat)
  /\ (forall k, 0 <= k ->
        Z.of_N (Naming.int_of_decimal (Naming.format_03d k)) = k).
Proof.
  intros H. split.
  { apply text_to_images_ok in H. destruct H as (config & doc & Ht & _ & Hp & Hf).
    apply typeset_ok in Ht. destruct Ht as (Hc & _ & Hd).
    exists config, doc. auto. }
  split; [reflexivity|]. split.
  { intros k. rewrite Naming.format_03d_length. lia. }
  split; [apply Naming.format_03d_three|].
  split; [apply Naming.format_03d_beyond|].
  intros k Hk. rewrite Naming.int_of_format_03d. lia.
Qed.

(** ** A run without recovery starts from an empty output tree *)

(** [p] lies strictly below the directory [d]. *)
Definition below (d p : path) : Prop := d `prefix_of` p /\ p <> d.

Lemma elem_of_ancestors (p q : path) : p ∈ ancestors q <-> p `prefix_of` q.
Proof.
  unfold ancestors. rewrite list_elem_of_In, in_map_iff. split.
  - intros (n & <- & _). apply prefix_take.
  - intros [k ->]. exists (length p). split; [apply take_app_length|].
    apply in_seq. rewrite length_app. lia.
Qed.

Lemma below_not_ancestor (d p : path) : below d p -> ¬ p `prefix_of` d.
Proof.
  intros [Hdp Hne] Hpd. apply Hne.
  apply prefix_length_eq; [exact Hpd|].
  apply prefix_length in Hdp. lia.
Qed.

Lemma below_nonempty (d p : path) : below d p -> p <> [].
Proof.
  intros [Hdp Hne] ->. apply prefix_nil_inv in Hdp. congruence.
Qed.

Lemma below_child (out p : path) (id : string) :
  below out p -> p `prefix_of` (out ++ [id]) -> p = out ++ [id].
Proof.
  intros [Hop Hne] Hp. apply prefix_length_eq; [exact Hp|].
  rewrite length_app. cbn.
  destruct (decide (length p = length out)) as [Heq|Hlen].
  - exfalso. apply Hne. symmetry. apply prefix_length_eq; [exact Hop|lia].
  - apply prefix_length in Hop. lia.
Qed.

Lemma path_exists_false w p :
  p <> [] -> p ∉ dirs w -> files w !! p = None -> path_exists w p = false.
Proof.
  intros Hne Hd Hf. unfold path_exists, isdir, isfile.
  rewrite (bool_decide_eq_false_2 _ Hne), (bool_decide_eq_false_2 _ Hd).
  cbn [orb]. apply bool_decide_eq_false_2. rewrite Hf. intros [x Hx]. discriminate.
Qed.

Lemma path_exists_false_inv w p :
  path_exists w p = false -> (p ∉ dirs w) /\ (files w !! p = None).
Proof.
  unfold path_exists, isdir, isfile. rewrite !orb_false_iff.
  rewrite !bool_decide_eq_false. intros [[_ Hd] Hf]. split; [exact Hd|].
  destruct (files w !! p); [exfalso; eauto|reflexivity].
Qed.

(** Nothing exists strictly below [out]. *)
Definition cleared (out : path) (w : world) : Prop :=
  forall p, below out p -> path_exists w p = false.

Lemma rmtree_cleared out w : cleared out (rmtree out w).2.
Proof.
  intros p Hp. cbn. apply path_exists_false; cbn.
  - now apply below_nonempty in Hp.
  - rewrite elem_of_filter. intros [Hn _]. apply Hn, Hp.
  - apply map_lookup_filter_None. right. intros x _ Hn. apply Hn. cbn. apply Hp.
Qed.

Lemma makedirs_cleared out w : cleared out w -> cleared out (makedirs out w).2.
Proof.
  intros Hc p Hp. unfold makedirs.
  destruct (existsb (isfile w) (ancestors out)); cbn [snd]; [now apply Hc|].
  destruct (path_exists_false_inv w p (Hc p Hp)) as [Hd Hf].
  apply path_exists_false; cbn [dirs files];
    [now apply below_nonempty in Hp| |exact Hf].
  intros H. apply elem_of_union in H. destruct H as [H|H]; [now apply Hd|].
  apply elem_of_list_to_set, elem_of_ancestors in H.
  now apply (below_not_ancestor out p).
Qed.

Lemma remove_cleared out q w : cleared out w -> cleared out (remove q w).2.
Proof.
  intros Hc p Hp. unfold remove. destruct (isfile w q); cbn; [|now apply Hc].
  destruct (path_exists_false_inv w p (Hc p Hp)) as [Hd Hf].
  apply path_exists_false; cbn; [now apply below_nonempty in Hp|exact Hd|].
  apply lookup_delete_None. now right.
Qed.

Lemma isfile_delete w q p :
  bool_decide (is_Some (delete q (files w) !! p)) = true -> isfile w p = true.
Proof.
  unfold isfile. rewrite !bool_decide_eq_true. intros [x Hx].
  apply lookup_delete_Some in Hx. destruct Hx as [_ Hx]. eauto.
Qed.

Lemma prepare_unfold out jsonl w :
  prepare out jsonl w =
  let w1 := if isdir w out then (rmtree out w).2 else w in
  match makedirs out w1 with
  | (Ok _, w2) => if path_exists w2 jsonl then remove jsonl w2 else (Ok tt, w2)
  | (Raise e, w2) => (Raise e, w2)
  end.
Proof.
  unfold prepare, bind, os_path_isdir, os_path_exists, when, ret.
  destruct (isdir w out); cbn [rmtree snd];
    destruct (makedirs out _) as [[[]|e] w2]; try reflexivity;
    now destruct (path_exists w2 jsonl).
Qed.

Lemma makedirs_cases out w :
  makedirs out w = (Raise OSError, w)
  \/ exists w2, makedirs out w = (Ok tt, w2)
                /\ isfile w2 out = false /\ isdir w2 out = true.
Proof.
  unfold makedirs.
  destruct (existsb (isfile w) (ancestors out)) eqn:Hanc; [now left|right].
  eexists. split; [reflexivity|]. split.
  - destruct (isfile _ out) eqn:Hf; [|reflexivity].
    assert (Hex : existsb (isfile w) (ancestors out) = true); [|congruence].
    apply existsb_exists. exists out. split; [|exact Hf].
    apply list_elem_of_In, elem_of_ancestors. reflexivity.
  - unfold isdir. apply orb_true_iff. right. apply bool_decide_eq_true.
    cbn [dirs]. apply elem_of_union_r.
    apply (proj2 (elem_of_list_to_set out (ancestors out))).
    apply elem_of_ancestors. reflexivity.
Qed.

Lemma makedirs_rendered out w : rendered (makedirs out w).2 = rendered w.
Proof.
  unfold makedirs. now destruct (existsb (isfile w) (ancestors out)).
Qed.

(** The preparation of a run without recovery: it leaves nothing below
    the output directory and renders nothing; when it returns, the
    ledger file is gone and the output directory is a directory. *)
Lemma prepare_spec out jsonl w :
  isdir w out = true \/ cleared out w ->
  cleared out (prepare out jsonl w).2
  /\ rendered (prepare out jsonl w).2 = rendered w
  /\ ((prepare out jsonl w).1 = Ok tt ->
      isfile (prepare out jsonl w).2 jsonl = false
      /\ isfile (prepare out jsonl w).2 out = false
      /\ isdir (prepare out jsonl w).2 out = true).
Proof.
  intros Hroot. rewrite prepare_unfold. cbv zeta.
  set (w1 := if isdir w out then (rmtree out w).2 else w).
  assert (H1 : cleared out w1 /\ rendered w1 = rendered w).
  { subst w1. destruct (isdir w out) eqn:Hd.
    - split; [apply rmtree_cleared|reflexivity].
    - destruct Hroot as [?|Hc]; [discriminate|]. now split. }
  destruct H1 as [Hc1 Hr1]. clearbody w1.
  pose proof (makedirs_cleared out w1 Hc1) as Hc2.
  pose proof (makedirs_rendered out w1) as Hr2.
  destruct (makedirs_cases out w1) as [Hmk|(w2 & Hmk & Hout2 & Hdir2)];
    rewrite Hmk in *; cbn [fst snd] in *.
  { split; [exact Hc2|]. split; [exact Hr1|discriminate]. }
  assert (Hr : rendered w2 = rendered w) by (etrans; [exact Hr2|exact Hr1]).
  destruct (path_exists w2 jsonl) eqn:Hex.
  - pose proof (remove_cleared out jsonl w2 Hc2) as Hc3.
    unfold remove in *. destruct (isfile w2 jsonl) eqn:Hfile; cbn [fst snd] in *.
    + split; [exact Hc3|]. split; [exact Hr|]. intros _. split; [|split].
      * unfold isfile. cbn [files]. apply bool_decide_eq_false_2.
        rewrite lookup_delete_eq. intros [x Hx]. discriminate.
      * apply not_true_is_false. intros Hf.
        apply isfile_delete in Hf. congruence.
      * exact Hdir2.
    + split; [exact Hc2|]. split; [exact Hr|discriminate].
  - cbn [fst snd]. split; [exact Hc2|]. split; [exact Hr|]. intros _.
    unfold path_exists in Hex. apply orb_false_iff in Hex.
    destruct Hex as [_ Hex]. auto.
Qed.

(** A result of this batch: an item of the input with its paths set. *)
Definition result_of (data : list item) (r : item) : Prop :=
  exists it paths, it ∈ data /\ r = set_image_paths it paths.

(** The output tree holds what this batch put there and nothing else:
    every directory strictly below the output directory is the
    subdirectory of an item of the batch, every file at or below it is
    the ledger or lies in such a subdirectory, and every ledger line is a
    result of the batch. *)
Definition fresh_tree (data : list item) (out jsonl : path) (w : world) : Prop :=
  (forall p, p ∈ dirs w -> below out p ->
     exists it id, it ∈ data /\ unique_id it = Some id /\ p = out ++ [id])
  /\ (forall p, isfile w p = true -> out `prefix_of` p ->
        p = jsonl \/
        exists it id name,
          it ∈ data /\ unique_id it = Some id /\ p = out ++ [id; name])
  /\ (forall recs l, files w !! jsonl = Some recs -> Line l ∈ recs ->
        exists r, l = Some r /\ result_of data r).

Definition keeps (I : world -> Prop) (w w' : world) : Prop := I w -> I w'.

#[local] Instance keeps_preorder I : PreOrder (keeps I).
Proof. split; [intros w H; exact H|intros w1 w2 w3 H12 H23 H; auto]. Qed.

Section Fresh.
Variables (data : list item) (out jsonl : path).
Abbreviation I := (fresh_tree data out jsonl).

Lemma fresh_log_render id : preserves (keeps I) (log_render id).
Proof. intros w H. exact H. Qed.

Lemma fresh_makedirs it id :
  it ∈ data -> unique_id it = Some id ->
  preserves (keeps I) (makedirs (out ++ [id])).
Proof.
  intros Hin Hid w. unfold makedirs.
  destruct (existsb (isfile w) (ancestors (out ++ [id]))); [reflexivity|].
  intros (Hd & Hf & Hl). cbn [snd]. split; [|split; [exact Hf|exact Hl]].
  cbn [dirs]. intros p Hp Hb. apply elem_of_union in Hp.
  destruct Hp as [Hp|Hp]; [now apply Hd|].
  apply elem_of_list_to_set, elem_of_ancestors in Hp.
  exists it, id. split; [exact Hin|]. split; [exact Hid|].
  now apply below_child.
Qed.

Lemma fresh_save_png it id p img :
  it ∈ data -> unique_id it = Some id -> parent p = out ++ [id] ->
  preserves (keeps I) (save_png p img).
Proof.
  intros Hin Hid Hp w. unfold save_png.
  destruct (writable w p); [|reflexivity].
  apply child_of_parent in Hp; [|now destruct out]. destruct Hp as [name ->].
  destruct ((0 <? Raster.width img) && (0 <? Raster.height img));
    intros (Hd & Hf & Hl); cbn [snd]; (split; [exact Hd|]); split.
  - intros q Hq Hpre. unfold isfile in Hq. cbn [files] in Hq.
    destruct (decide ((out ++ [id]) ++ [name] = q)) as [<-|Hne].
    + right. exists it, id, name. rewrite <- app_assoc. auto.
    + rewrite lookup_insert_ne in Hq by exact Hne. now apply Hf.
  - intros recs l. cbn [files].
    destruct (decide ((out ++ [id]) ++ [name] = jsonl)) as [<-|Hne].
    + rewrite lookup_insert_eq. intros [= <-] Hline.
      apply list_elem_of_singleton in Hline. discriminate.
    + rewrite lookup_insert_ne by exact Hne. apply Hl.
  - intros q Hq Hpre. unfold isfile in Hq. cbn [files] in Hq.
    destruct (decide ((out ++ [id]) ++ [name] = q)) as [<-|Hne].
    + right. exists it, id, name. rewrite <- app_assoc. auto.
    + rewrite lookup_alter_ne in Hq by exact Hne. now apply Hf.
  - intros recs l. cbn [files].
    destruct (decide ((out ++ [id]) ++ [name] = jsonl)) as [<-|Hne].
    + rewrite lookup_alter_eq.
      destruct (files w !! ((out ++ [id]) ++ [name])); cbn; [|discriminate].
      intros [= <-] Hline. now apply elem_of_nil in Hline.
    + rewrite lookup_alter_ne by exact Hne. apply Hl.
Qed.

Lemma fresh_append_lines buffer :
  Forall (result_of data) buffer ->
  preserves (keeps I) (append_lines jsonl buffer).
Proof.
  intros Hbuf w. unfold append_lines.
  destruct (writable w jsonl); [|reflexivity].
  intros (Hd & Hf & Hl). cbn [snd]. split; [exact Hd|]. split.
  - intros q Hq Hpre. unfold isfile in Hq. cbn [files] in Hq.
    destruct (decide (jsonl = q)) as [<-|Hne]; [now left|].
    rewrite lookup_insert_ne in Hq by exact Hne. now apply Hf.
  - intros recs l. cbn [files]. rewrite lookup_insert_eq. intros [= <-] Hline.
    apply elem_of_app in Hline. destruct Hline as [Hline|Hline].
    + destruct (files w !! jsonl) as [old|] eqn:Hold; cbn in Hline.
      * now apply (Hl old).
      * now apply elem_of_nil in Hline.
    + apply list_elem_of_In, in_map_iff in Hline.
      destruct Hline as (r & [= <-] & Hr). exists r. split; [reflexivity|].
      rewrite Forall_forall in Hbuf. apply Hbuf. now apply list_elem_of_In.
Qed.

Lemma fresh_text_to_images it id text config_dict :
  it ∈ data -> unique_id it = Some id ->
  preserves (keeps I) (text_to_images text out config_dict id).
Proof.
  intros Hin Hid. apply preserves_text_to_images.
  - apply _.
  - apply fresh_log_render.
  - now apply (fresh_makedirs it).
  - intros p img Hp. now apply (fresh_save_png it id).
Qed.

Lemma process_one_result g it w r w' :
  process_one g it w = (Ok r, w') -> exists paths, r = set_image_paths it paths.
Proof.
  unfold process_one. intros H.
  apply bind_inv_ok in H. destruct H as (id & w1 & _ & H).
  apply bind_inv_ok in H. destruct H as (done & w2 & _ & H).
  destruct done.
  - inversion H. eauto.
  - apply bind_inv_ok in H. destruct H as (config0 & w3 & _ & H).
    apply bind_inv_ok in H. destruct H as ([] & w4 & _ & H).
    apply bind_inv_ok in H. destruct H as (paths & w5 & _ & H).
    inversion H. eauto.
Qed.

Lemma fresh_process_one g it :
  OUTPUT_DIR g = out -> it ∈ data ->
  preserves (keeps I) (process_one g it).
Proof.
  intros Hout Hin w. unfold process_one.
  destruct (checked_id it w) as [[id|e] w1] eqn:Hc.
  - apply checked_id_inv in Hc as Hc'. destruct Hc' as (Hid & _ & ->).
    rewrite (bind_ok _ _ _ _ _ Hc).
    pres_bind.
    { destruct (recover g); pres_leaf. }
    intros done. destruct done; [pres_leaf|].
    pres_bind; [pres_leaf|]. intros config0.
    pres_bind; [pres_leaf|]. intros _.
    pres_bind; [|intros; pres_leaf].
    rewrite Hout. now apply (fresh_text_to_images it).
  - rewrite (bind_raise _ _ _ _ _ Hc). cbn [snd].
    pose proof (preserves_checked_id (keeps I) it w) as Hk.
    now rewrite Hc in Hk.
Qed.

Lemma fresh_collect g bs items :
  OUTPUT_DIR g = out -> (forall it, it ∈ items -> it ∈ data) ->
  forall buffer w,
    Forall (result_of data) buffer -> I w ->
    I (collect g jsonl bs items buffer w).2
    /\ (forall buf, (collect g jsonl bs items buffer w).1 = Ok buf ->
          Forall (result_of data) buf).
Proof.
  intros Hout. induction items as [|it rest IH]; intros Hsub buffer w Hbuf Hw.
  - cbn. split; [exact Hw|]. intros buf [= <-]. exact Hbuf.
  - cbn [collect].
    assert (Hin : it ∈ data) by (apply Hsub; left).
    pose proof (fresh_process_one g it Hout Hin w Hw) as Hw1.
    destruct (process_one g it w) as [[r|e] w1] eqn:Hp; cbn [snd] in Hw1.
    2:{ rewrite (bind_raise _ _ _ _ _ Hp). cbn.
        split; [exact Hw1|intros buf; discriminate]. }
    rewrite (bind_ok _ _ _ _ _ Hp).
    apply process_one_result in Hp. destruct Hp as [paths ->].
    assert (Hbuf' : Forall (result_of data) (buffer ++ [set_image_paths it paths])).
    { apply Forall_app. split; [exact Hbuf|]. constructor; [|constructor].
      now exists it, paths. }
    assert (Hrest : forall it', it' ∈ rest -> it' ∈ data)
      by (intros it' Hit'; apply Hsub; now right).
    destruct (bs <=? length (buffer ++ [set_image_paths it paths]))%nat.
    + pose proof (fresh_append_lines _ Hbuf' w1 Hw1) as Hw2.
      destruct (append_lines jsonl _ w1) as [[[]|e] w2] eqn:Ha; cbn [snd] in Hw2.
      * rewrite (bind_ok _ _ _ _ _ Ha).
        apply IH; [exact Hrest|constructor|exact Hw2].
      * rewrite (bind_raise _ _ _ _ _ Ha). cbn.
        split; [exact Hw2|intros buf; discriminate].
    + now apply IH.
Qed.

End Fresh.

Lemma cleared_fresh_tree data out jsonl w :
  cleared out w -> isfile w out = false -> isfile w jsonl = false ->
  fresh_tree data out jsonl w.
Proof.
  intros Hc Hout Hj. split; [|split].
  - intros p Hp Hb. exfalso.
    destruct (path_exists_false_inv w p (Hc p Hb)) as [Hd _]. now apply Hd.
  - intros p Hp Hpre. exfalso.
    destruct (decide (p = out)) as [->|Hne]; [congruence|].
    destruct (path_exists_false_inv w p (Hc p (conj Hpre Hne))) as [_ Hf].
    unfold isfile in Hp. rewrite Hf in Hp.
    apply bool_decide_eq_true in Hp. destruct Hp as [x Hx]. discriminate.
  - intros recs l Hrecs _. exfalso.
    unfold isfile in Hj. apply bool_decide_eq_false in Hj. apply Hj.
    rewrite Hrecs. eauto.
Qed.

Lemma pending_subset ids (data : list item) it :
  it ∈ pending ids data -> it ∈ data.
Proof.
  unfold pending. intros H. apply list_elem_of_In, filter_In in H.
  now apply list_elem_of_In.
Qed.

(** What the run does once the preparation is over. *)
Lemma fresh_after_prepare file loaded data out jsonl bs w w0 :
  Config.load_config file = Some loaded ->
  prepare out jsonl w = (Ok tt, w0) ->
  fresh_tree (default [] data) out jsonl w0 ->
  fresh_tree (default [] data) out jsonl
    (batch_process_to_images (Some file) data out jsonl false bs w).2.
Proof.
  intros Hload Hprep Hw0. unfold batch_process_to_images.
  rewrite Hload. rewrite (bind_ok _ _ w loaded w eq_refl).
  cbn [negb when]. rewrite (bind_ok _ _ _ _ _ Hprep).
  destruct data as [data|]; [|exact Hw0]. cbn [default] in *.
  unfold bind at 1. cbn [ret]. unfold bind at 1. cbn [ret].
  destruct (pending [] data) as [|it0 rest] eqn:Hpend; [exact Hw0|].
  rewrite <- Hpend. clear Hpend it0 rest.
  set (g := {| GLOBAL_CONFIG := loaded;
               OUTPUT_DIR := out; recover := false |}).
  destruct (fresh_collect data out jsonl g bs
              (completion_order item (pending [] data)) eq_refl) with
    (buffer := @nil item) (w := w0) as [Hw1 Hbuf].
  { intros it Hit. rewrite completion_order_perm in Hit.
    now apply pending_subset in Hit. }
  { constructor. }
  { exact Hw0. }
  destruct (collect g jsonl bs (completion_order item (pending [] data)) [] w0)
    as [[buf|e] w1] eqn:Hcol; cbn [fst snd] in *.
  - rewrite (bind_ok _ _ _ _ _ Hcol).
    destruct buf as [|r buf]; [exact Hw1|].
    apply (fresh_append_lines data out jsonl); [now apply Hbuf|exact Hw1].
  - now rewrite (bind_raise _ _ _ _ _ Hcol).
Qed.


(** A configuration that [load_config] refuses stops the run before the
    preparation: nothing is deleted. *)
Lemma batch_refused_config file data out jsonl is_recover bs w :
  Config.load_config file = None ->
  batch_process_to_images (Some file) data out jsonl is_recover bs w
  = (Raise ValueError, w).
Proof. intros H. unfold batch_process_to_images. now rewrite H. Qed.

(** ** The crop of the pipeline and the axis crop *)

Lemma pil_crop_ok img right lower w :
  0 <= right -> 0 <= lower ->
  pil_crop img right lower w = (Ok (Raster.crop img 0 0 right lower), w).
Proof.
  intros Hr Hl. unfold pil_crop, bind, check.
  rewrite (proj2 (Z.leb_le 0 right) Hr), (proj2 (Z.leb_le 0 lower) Hl).
  reflexivity.
Qed.

(** With integer margins that are not negative, on a page of a size that
    is not negative, [crop_one] returns the axis crop. *)
Lemma crop_one_int acw aclp (mx my : Z) offset num img w :
  0 <= mx -> 0 <= my -> 0 <= Raster.width img -> 0 <= Raster.height img ->
  crop_one acw aclp (Config.VNum mx) (Config.VNum my) offset num img w
  = (Ok (Raster.axis_crop luma acw aclp mx my offset num img), w).
Proof.
  intros Hmx Hmy Hw Hh. unfold crop_one, Raster.axis_crop. cbv zeta.
  destruct (acw || aclp && (offset =? num)); [|reflexivity].
  set (m := Raster.mask luma 2 5 img).
  assert (H1 : (if acw
                then match last (Raster.cols_of m img) with
                     | Some c =>
                         bind (crop_bound (Raster.width img) (c + 1) (Config.VNum mx))
                           (fun right => pil_crop img right (Raster.height img))
                     | None => ret img
                     end
                else ret img) w
               = (Ok (if acw then Raster.width_trim m mx img img else img), w)).
  { destruct acw; [|reflexivity]. unfold Raster.width_trim.
    destruct (last (Raster.cols_of m img)) as [c|] eqn:Hc; [|reflexivity].
    apply Raster.last_filter_zrange in Hc. destruct Hc as (Hc & _).
    unfold bind at 1. cbn [crop_bound ret]. apply pil_crop_ok; lia. }
  rewrite (bind_ok _ _ _ _ _ H1).
  set (img1 := if acw then Raster.width_trim m mx img img else img).
  assert (Hw1 : 0 <= Raster.width img1 /\ Raster.height img1 = Raster.height img).
  { subst img1. destruct acw; [|lia]. unfold Raster.width_trim.
    destruct (last (Raster.cols_of m img)) as [c|] eqn:Hc; [|lia].
    apply Raster.last_filter_zrange in Hc. destruct Hc as (Hc & _).
    cbn. lia. }
  destruct (aclp && (offset =? num)); [|reflexivity].
  unfold Raster.vertical_trim.
  destruct (last (Raster.rows_of m img)) as [r|] eqn:Hr; [|reflexivity].
  apply Raster.last_filter_zrange in Hr. destruct Hr as (Hr & _).
  unfold bind at 1. cbn [crop_bound ret]. apply pil_crop_ok; lia.
Qed.

(** ** The rasterisation batches *)

Lemma batches_concat doc dpi batch :
  0 < batch ->
  let pages := rasterize doc dpi in
  let total := Z.of_nat (length pages) in
  forall n k,
    Z.of_nat (k + n) = (total + batch - 1) / batch ->
    concat (map (fun start =>
                   convert_from_bytes doc dpi start (Z.min (start + batch - 1) total))
                (map (fun i => 1 + batch * i) (map Z.of_nat (seq k n))))
    = drop (Z.to_nat (batch * Z.of_nat k)) pages.
Proof.
  intros Hbatch pages total.
  assert (Hq1 : total <= batch * ((total + batch - 1) / batch)).
  { pose proof (Z.mul_succ_div_gt (total + batch - 1) batch Hbatch). lia. }
  assert (Hq2 : batch * ((total + batch - 1) / batch) <= total + batch - 1).
  { apply Z.mul_div_le. exact Hbatch. }
  induction n as [|n IH]; intros k Hk.
  - cbn [seq map concat]. symmetry. apply drop_ge.
    rewrite Nat.add_0_r in Hk. rewrite <- Hk in Hq1. subst total. lia.
  - cbn [seq map concat]. rewrite IH by lia.
    assert (HS : batch * Z.of_nat (S k) = batch * Z.of_nat k + batch)
      by (rewrite Nat2Z.inj_succ; ring).
    rewrite HS. unfold convert_from_bytes. fold pages.
    set (b := batch * Z.of_nat k) in *.
    assert (Hb0 : 0 <= b) by (subst b; nia).
    assert (Hlt : b < total) by (subst b; nia).
    replace (Z.to_nat (1 + b - 1)) with (Z.to_nat b) by lia.
    replace (Z.to_nat (b + batch)) with (Z.to_nat b + Z.to_nat batch)%nat by lia.
    rewrite <- drop_drop.
    assert (Hrest : Z.of_nat (length (drop (Z.to_nat b) pages)) = total - b).
    { rewrite length_drop. subst total. lia. }
    set (rest := drop (Z.to_nat b) pages) in *.
    destruct (Z.le_gt_cases (1 + b + batch - 1) total) as [Hle|Hgt].
    + rewrite Z.min_l by exact Hle.
      replace (Z.to_nat (1 + b + batch - 1 - (1 + b) + 1)) with (Z.to_nat batch) by lia.
      apply take_drop.
    + rewrite Z.min_r by lia.
      rewrite take_ge, drop_ge by lia. apply app_nil_r.
Qed.

(** X21. The pages are rasterised in batches that cover the document:
    put end to end, the batches are the pages of the document, each
    once and in order, and no batch is empty or holds more than [batch]
    pages (20 in both renderers). *)
Theorem batches_cover_pages doc dpi batch :
  0 < batch ->
  let pages := rasterize doc dpi in
  let total := Z.of_nat (length pages) in
  let batches :=
    map (fun start =>
           convert_from_bytes doc dpi start (Z.min (start + batch - 1) total))
        (batch_starts total batch) in
  concat batches = pages
  /\ Forall (fun images => 1 <= Z.of_nat (length images) <= batch) batches.
Proof.
  intros Hbatch pages total batches.
  assert (Hq1 : total <= batch * ((total + batch - 1) / batch)).
  { pose proof (Z.mul_succ_div_gt (total + batch - 1) batch Hbatch). lia. }
  assert (Hq2 : batch * ((total + batch - 1) / batch) <= total + batch - 1).
  { apply Z.mul_div_le. exact Hbatch. }
  assert (Hq0 : 0 <= (total + batch - 1) / batch).
  { apply Z.div_pos; subst total; lia. }
  split.
  - subst batches. unfold batch_starts, Raster.zrange.
    pose proof (batches_concat doc dpi batch Hbatch
                  (Z.to_nat ((total + batch - 1) / batch)) 0%nat) as H.
    cbv zeta in H. fold pages total in H. rewrite H.
    + now rewrite Z.mul_0_r.
    + cbn [Nat.add]. now rewrite Z2Nat.id.
  - apply Forall_forall. intros images Hin. subst batches.
    apply list_elem_of_fmap in Hin. destruct Hin as (start & -> & Hstart).
    apply list_elem_of_fmap in Hstart. destruct Hstart as (i & -> & Hi).
    apply list_elem_of_In, Raster.in_zrange in Hi.
    assert (Hlt : batch * i < total) by nia.
    assert (Hb0 : 0 <= batch * i) by nia.
    set (b := batch * i) in *. clearbody b.
    subst total pages.
    rewrite length_convert_from_bytes by lia. lia.
Qed.

(** ** Failing before anything is written *)

(** X22. Whatever goes wrong up to [doc.build] makes [text_to_images]
    raise before it creates the item's directory, and the file tree is
    left as it was. A token that does not convert comes first, with a
    [ValueError]; then a missing font path, with an [AssertionError];
    with a font path that is a string, and a line height or a numeric
    font size, an error of the typesetting is raised as it is. *)
Theorem text_to_images_fails_early
    (text : Text.pystr) (output_dir : path) (config_dict : Config.dict)
    (id : string) (w : world) :
  (forall e, typeset text config_dict = Raise e ->
     text_to_images text output_dir config_dict id w
     = (Raise e, {| dirs := dirs w; files := files w;
                    rendered := rendered w ++ [id] |}))
  /\ (Config.convert_special config_dict = None ->
      typeset text config_dict = Raise ValueError)
  /\ (forall config,
        Config.convert_special config_dict = Some config ->
        Config.truthy (Config.get config "font-path" Config.VNull) = false ->
        typeset text config_dict = Raise AssertionError)
  /\ (forall config e,
        Config.convert_special config_dict = Some config ->
        Config.truthy (Config.get config "font-path" Config.VNull) = true ->
        is_str (Config.get config "font-path" Config.VNull) = true ->
        Config.truthy (Config.get config "line-height" Config.VNull)
        || is_number (Config.get config "font-size" (Config.VNum 9)) = true ->
        document text config = Raise e ->
        typeset text config_dict = Raise e).
Proof.
  split; [|split; [|split]].
  - intros e H. unfold text_to_images.
    unfold bind at 1. cbn [log_render].
    unfold bind at 1, lift at 1. now rewrite H.
  - intros H. unfold typeset. now rewrite H.
  - intros config Hc Hf. unfold typeset. rewrite Hc. cbv zeta. now rewrite Hf.
  - intros config e Hc Hf Hs Hl Hd. unfold typeset. rewrite Hc. cbv zeta.
    now rewrite Hf, Hs, Hl, Hd.
Qed.

(** ** Resuming after a success *)

(** Directories stay. *)
Definition dirs_stay (w w' : world) : Prop :=
  forall p, isdir w p = true -> isdir w' p = true.

#[local] Instance dirs_stay_preorder : PreOrder dirs_stay.
Proof. split; [intros w p; auto|intros w1 w2 w3 H12 H23 p; auto]. Qed.

Lemma dirs_stay_save_png p img : preserves dirs_stay (save_png p img).
Proof.
  intros w. unfold save_png. destruct (writable w p); [|reflexivity].
  destruct ((0 <? Raster.width img) && (0 <? Raster.height img));
    intros q Hq; exact Hq.
Qed.

Lemma text_to_images_isdir text output_dir config_dict id w paths w' :
  text_to_images text output_dir config_dict id w = (Ok paths, w') ->
  isdir w' (output_dir ++ [id]) = true.
Proof.
  unfold text_to_images. intros H.
  apply bind_inv_ok in H. destruct H as ([] & w1 & _ & H).
  apply bind_inv_ok in H. destruct H as (typeset_doc & w2 & _ & H).
  apply bind_inv_ok in H. destruct H as ([] & w3 & Hmk & H).
  apply bind_inv_ok in H. destruct H as ([] & w4 & Hras & H).
  apply check_ok in Hras. destruct Hras as [_ ->].
  cbv zeta in H.
  match type of H with
  | render_batches ?s ?r ?d ?dpi ?t ?b ?starts _ = _ =>
      pose proof (preserves_render_batches dirs_stay s r d dpi t b starts
                    (fun p img _ => dirs_stay_save_png p img) w3) as Hstay
  end.
  rewrite H in Hstay. apply Hstay.
  destruct (makedirs_cases (output_dir ++ [id]) w2) as [Hr|(w5 & Hok & _ & Hdir)].
  - rewrite Hr in Hmk. discriminate.
  - rewrite Hok in Hmk. now inversion Hmk; subst.
Qed.

Lemma process_one_ok_exists g it w r w' :
  process_one g it w = (Ok r, w') ->
  exists id, unique_id it = Some id /\ id <> ""%string
             /\ path_exists w' (OUTPUT_DIR g ++ [id]) = true.
Proof.
  unfold process_one. intros H.
  apply bind_inv_ok in H. destruct H as (id & w1 & Hid & H).
  apply checked_id_inv in Hid. destruct Hid as (Hid & Hne & ->).
  exists id. split; [exact Hid|]. split; [exact Hne|].
  apply bind_inv_ok in H. destruct H as (done & w2 & Hdone & H).
  destruct done.
  - inversion H; subst. destruct (recover g).
    + unfold os_path_exists in Hdone. now inversion Hdone; subst.
    + discriminate.
  - apply bind_inv_ok in H. destruct H as (config0 & w3 & _ & H).
    apply bind_inv_ok in H. destruct H as ([] & w4 & _ & H).
    apply bind_inv_ok in H. destruct H as (paths & w5 & Ht & H).
    inversion H; subst. apply text_to_images_isdir in Ht.
    unfold path_exists. now rewrite Ht.
Qed.

(** X23. An item that [process_one] has handled is skipped when it is
    processed again in recover mode with the same output directory: its
    subdirectory exists by then, so it comes back with an empty path
    list and nothing is rendered or written. *)
Theorem processed_item_skipped_on_resume
    (g g' : globals) (it : item) (w : world) (r : item) (w' : world) :
  process_one g it w = (Ok r, w') ->
  recover g' = true -> OUTPUT_DIR g' = OUTPUT_DIR g ->
  process_one g' it w' = (Ok (set_image_paths it []), w').
Proof.
  intros H Hr Hout.
  apply process_one_ok_exists in H. destruct H as (id & Hid & Hne & Hex).
  apply (process_one_skips g' it id); try assumption. now rewrite Hout.
Qed.

Lemma output_path_inj (out_root : path) (i j : Z) :
  0 <= i -> 0 <= j ->
  out_root ++ [Naming.page_name i] = out_root ++ [Naming.page_name j] -> i = j.
Proof.
  intros Hi Hj H. apply app_inv_head in H.
  apply Naming.page_name_inj; [exact Hi|exact Hj|congruence].
Qed.

(** X24. The paths [text_to_images] returns are pairwise distinct, as
    many as the document has pages, and all directly inside the item's
    own directory: no page file is written twice. *)
Theorem returned_paths_distinct
    (text : Text.pystr) (output_dir : path) (config_dict : Config.dict)
    (id : string) (w : world) (paths : list path) (w' : world) :
  text_to_images text output_dir config_dict id w = (Ok paths, w') ->
  NoDup paths
  /\ Forall (fun p => parent p = output_dir ++ [id]) paths
  /\ exists config doc,
       Config.convert_special config_dict = Some config
       /\ document text config = Ok doc
       /\ length paths = length (rasterize doc (dpi_of config)).
Proof.
  intros H. apply text_to_images_ok in H.
  destruct H as (config & doc & Ht & _ & -> & _).
  apply typeset_ok in Ht. destruct Ht as (Hc & _ & Hdoc).
  split; [|split].
  - apply (NoDup_fmap_2_strong (fun k => output_dir ++ [id; Naming.page_name k]));
      [|apply NoDup_seqZ].
    intros i j Hi Hj Heq. apply elem_of_seqZ in Hi, Hj.
    apply (output_path_inj (output_dir ++ [id])); [lia|lia|].
    now rewrite <- !app_assoc.
  - apply Forall_forall. intros p Hp.
    apply list_elem_of_fmap in Hp. destruct Hp as (k & -> & _).
    change [id; Naming.page_name k] with ([id] ++ [Naming.page_name k]).
    rewrite app_assoc. unfold parent. apply removelast_last.
  - exists config, doc. split; [exact Hc|]. split; [exact Hdoc|].
    rewrite length_map, length_seqZ. lia.
Qed.

(** ** The ledger *)

(** The lines of the ledger, none when the file does not exist. *)
Definition ledger_lines (w : world) (output_jsonl_path : path) : list record :=
  default [] (files w !! output_jsonl_path).

Definition line_of (it : item) : record := Line (Some it).

(** [r] is the item [it] with its paths set. *)
Definition is_result (it r : item) : Prop :=
  exists paths, r = set_image_paths it paths.

Definition same_ledger (jsonl : path) (w w' : world) : Prop :=
  files w' !! jsonl = files w !! jsonl.

#[local] Instance same_ledger_preorder jsonl : PreOrder (same_ledger jsonl).
Proof.
  split; [intros w; reflexivity|].
  intros w1 w2 w3 H12 H23. unfold same_ledger in *. congruence.
Qed.

Lemma same_ledger_makedirs jsonl p : preserves (same_ledger jsonl) (makedirs p).
Proof.
  intros w. unfold makedirs.
  now destruct (existsb (isfile w) (ancestors p)).
Qed.

Lemma same_ledger_save_png jsonl p img :
  p <> jsonl -> preserves (same_ledger jsonl) (save_png p img).
Proof.
  intros Hne w. unfold save_png. destruct (writable w p); [|reflexivity].
  unfold same_ledger.
  destruct ((0 <? Raster.width img) && (0 <? Raster.height img)); cbn.
  - now apply lookup_insert_ne.
  - now apply lookup_alter_ne.
Qed.

Lemma same_ledger_process_one g it jsonl :
  ¬ OUTPUT_DIR g `prefix_of` jsonl ->
  preserves (same_ledger jsonl) (process_one g it).
Proof.
  intros Hj. unfold process_one.
  pres_bind; [pres_leaf|]. intros id.
  pres_bind; [destruct (recover g); pres_leaf|].
  intros done. destruct done; [pres_leaf|].
  pres_bind; [pres_leaf|]. intros config0.
  pres_bind; [pres_leaf|]. intros _.
  pres_bind; [|intros; pres_leaf].
  apply preserves_text_to_images.
  - apply _.
  - intros w. reflexivity.
  - apply same_ledger_makedirs.
  - intros p img Hp. apply same_ledger_save_png. intros ->.
    apply Hj. apply child_of_parent in Hp; [|now destruct (OUTPUT_DIR g)].
    destruct Hp as [x ->]. rewrite <- app_assoc. now apply prefix_app_r.
Qed.

Lemma append_lines_ok p buffer w w' :
  append_lines p buffer w = (Ok tt, w') ->
  files w' !! p = Some (ledger_lines w p ++ map line_of buffer)
  /\ dirs w' = dirs w /\ rendered w' = rendered w.
Proof.
  unfold append_lines. destruct (writable w p); [|discriminate].
  intros [= <-]. cbn. now rewrite lookup_insert_eq.
Qed.

Lemma collect_ledger g jsonl bs :
  ¬ OUTPUT_DIR g `prefix_of` jsonl ->
  forall items buffer w buf w',
    collect g jsonl bs items buffer w = (Ok buf, w') ->
    exists results,
      Forall2 is_result items results
      /\ ledger_lines w' jsonl ++ map line_of buf
         = ledger_lines w jsonl ++ map line_of (buffer ++ results).
Proof.
  intros Hj. induction items as [|it rest IH]; intros buffer w buf w' H.
  - inversion H; subst. exists []. split; [constructor|].
    now rewrite app_nil_r.
  - cbn [collect] in H.
    apply bind_inv_ok in H. destruct H as (r & w1 & Hp & H).
    pose proof (same_ledger_process_one g it jsonl Hj w) as Hs.
    rewrite Hp in Hs. unfold same_ledger in Hs. cbn [snd] in Hs.
    assert (Hl1 : ledger_lines w1 jsonl = ledger_lines w jsonl)
      by (unfold ledger_lines; now rewrite Hs).
    apply process_one_result in Hp.
    destruct (bs <=? length (buffer ++ [r]))%nat.
    + apply bind_inv_ok in H. destruct H as ([] & w2 & Ha & H).
      apply append_lines_ok in Ha. destruct Ha as (Ha & _).
      apply IH in H. destruct H as (results & HF & Heq).
      exists (r :: results). split; [now constructor|].
      assert (Hl2 : ledger_lines w2 jsonl
                    = ledger_lines w jsonl ++ map line_of (buffer ++ [r])).
      { unfold ledger_lines at 1. rewrite Ha. cbn. now rewrite Hl1. }
      rewrite Heq, Hl2. cbn [app].
      rewrite <- app_assoc, <- List.map_app, <- app_assoc. reflexivity.
    + apply IH in H. destruct H as (results & HF & Heq).
      exists (r :: results). split; [now constructor|].
      rewrite Heq, Hl1, <- app_assoc. reflexivity.
Qed.

Lemma prepare_ok_no_file out jsonl w w0 :
  prepare out jsonl w = (Ok tt, w0) -> files w0 !! jsonl = None.
Proof.
  rewrite prepare_unfold. cbv zeta.
  destruct (makedirs out _) as [[[]|e] w2]; [|discriminate].
  destruct (path_exists w2 jsonl) eqn:Hex.
  - unfold remove. destruct (isfile w2 jsonl); [|discriminate].
    intros [= <-]. cbn. apply lookup_delete_eq.
  - intros [= <-]. now apply path_exists_false_inv in Hex.
Qed.

(** What a run that returns has gone through. *)
Lemma batch_ok_inv file data out jsonl is_recover bs w w' :
  batch_process_to_images (Some file) (Some data) out jsonl is_recover bs w
  = (Ok tt, w') ->
  exists loaded w0 ids,
    Config.load_config file = Some loaded
    /\ when (negb is_recover) (prepare out jsonl) w = (Ok tt, w0)
    /\ ids = ledger_ids (if is_recover then ledger_lines w0 jsonl else [])
    /\ (is_recover = true -> path_exists w0 jsonl = true -> isfile w0 jsonl = true)
    /\ match pending ids data with
       | [] => w' = w0
       | _ =>
           exists buf w1,
             collect {| GLOBAL_CONFIG := loaded;
                        OUTPUT_DIR := out; recover := is_recover |}
               jsonl bs (completion_order item (pending ids data)) [] w0
             = (Ok buf, w1)
             /\ match buf with
                | [] => w' = w1
                | _ => append_lines jsonl buf w1 = (Ok tt, w')
                end
       end.
Proof.
  unfold batch_process_to_images. intros H.
  destruct (Config.load_config file) as [loaded|]; [|discriminate].
  rewrite (bind_ok _ _ w loaded w eq_refl) in H.
  apply bind_inv_ok in H. destruct H as ([] & w0 & Hprep & H).
  apply bind_inv_ok in H. destruct H as (has_ledger & w1 & Hhas & H).
  apply bind_inv_ok in H. destruct H as (ids & w2 & Hids & H).
  assert (Hfacts : w1 = w0 /\ w2 = w0
            /\ ids = ledger_ids (if is_recover then ledger_lines w0 jsonl else [])
            /\ (is_recover = true -> path_exists w0 jsonl = true ->
                isfile w0 jsonl = true)).
  { destruct is_recover.
    - assert (E1 : w1 = w0 /\ has_ledger = path_exists w0 jsonl)
        by (unfold os_path_exists in Hhas; now inversion Hhas).
      destruct E1 as [-> ->]. unfold ledger_lines, isfile.
      destruct (path_exists w0 jsonl) eqn:Hex.
      + unfold read_ledger in Hids.
        destruct (files w0 !! jsonl) as [recs|]; [|discriminate].
        assert (E2 : w2 = w0 /\ ids = ledger_ids recs) by (now inversion Hids).
        destruct E2 as [-> ->]. repeat split; reflexivity.
      + assert (E2 : w2 = w0 /\ ids = []) by (now inversion Hids).
        destruct E2 as [-> ->]. apply path_exists_false_inv in Hex.
        destruct Hex as [_ Hex]. rewrite Hex.
        repeat split; try reflexivity. discriminate.
    - assert (E1 : w1 = w0 /\ has_ledger = false) by (now inversion Hhas).
      destruct E1 as [-> ->].
      assert (E2 : w2 = w0 /\ ids = []) by (now inversion Hids).
      destruct E2 as [-> ->].
      repeat split; try reflexivity. discriminate. }
  destruct Hfacts as (-> & -> & Hids' & Hfile).
  exists loaded, w0, ids. split; [reflexivity|].
  split; [exact Hprep|]. split; [exact Hids'|].
  split; [exact Hfile|].
  destruct (pending ids data) as [|it0 rest] eqn:Hpend.
  - now inversion H.
  - rewrite <- Hpend in *.
    apply bind_inv_ok in H. destruct H as (buf & w3 & Hcol & H).
    exists buf, w3. split; [exact Hcol|].
    destruct buf; [now inversion H|exact H].
Qed.

Lemma batch_ledger_lines file data out jsonl is_recover bs w w' :
  ¬ out `prefix_of` jsonl ->
  batch_process_to_images (Some file) (Some data) out jsonl is_recover bs w
  = (Ok tt, w') ->
  let old := if is_recover then ledger_lines w jsonl else [] in
  exists results,
    Forall2 is_result
      (completion_order item (pending (ledger_ids old) data)) results
    /\ ledger_lines w' jsonl = old ++ map line_of results.
Proof.
  intros Hj H old. apply batch_ok_inv in H.
  destruct H as (loaded & w0 & ids & _ & Hprep & Hids & _ & H).
  assert (Hold : ledger_lines w0 jsonl = old
                 /\ (if is_recover then ledger_lines w0 jsonl else []) = old).
  { subst old. destruct is_recover.
    - cbn in Hprep. inversion Hprep; subst. now split.
    - cbn [negb when] in Hprep. apply prepare_ok_no_file in Hprep.
      unfold ledger_lines. now rewrite Hprep. }
  destruct Hold as [Hold Hold']. rewrite Hold' in Hids. subst ids.
  destruct (pending (ledger_ids old) data) as [|it0 rest] eqn:Hpend.
  - subst w'. exists []. split; [|now rewrite app_nil_r].
    assert (Hnil : completion_order item [] = [])
      by (apply Permutation_nil_r, completion_order_perm).
    rewrite Hnil. constructor.
  - rewrite <- Hpend in *. destruct H as (buf & w1 & Hcol & H).
    apply collect_ledger in Hcol; [|exact Hj].
    destruct Hcol as (results & HF & Heq). cbn [app] in Heq.
    exists results. split; [exact HF|]. rewrite <- Hold, <- Heq.
    destruct buf as [|r buf].
    + subst w'. now rewrite app_nil_r.
    + apply append_lines_ok in H. destruct H as (H & _).
      unfold ledger_lines at 1. now rewrite H.
Qed.

Lemma ledger_ids_line_of (results : list item) :
  ledger_ids (map line_of results) = map unique_id results.
Proof.
  unfold ledger_ids. induction results as [|r rs IH]; [reflexivity|].
  cbn in *. now f_equal.
Qed.

Lemma is_result_ids (items results : list item) :
  Forall2 is_result items results -> map unique_id results = map unique_id items.
Proof.
  induction 1 as [|it r items results [paths ->] _ IH]; [reflexivity|].
  cbn. now rewrite IH.
Qed.

(** X25. When a batch run returns, the ledger holds what it held before
    (nothing, in a run without recovery) followed by exactly one line for
    each item that was still to process, in the order in which the
    results came in: each line is its item with the paths set, whatever
    the size of the write buffer. The ledger is taken to lie outside
    the output directory. *)
Theorem ledger_one_line_per_item
    (file : Config.dict) (data : list item) (output_dir output_jsonl_path : path)
    (is_recover : bool) (batch_size : nat) (w w' : world) :
  ¬ output_dir `prefix_of` output_jsonl_path ->
  batch_process_to_images (Some file) (Some data) output_dir output_jsonl_path
    is_recover batch_size w = (Ok tt, w') ->
  let old := if is_recover then ledger_lines w output_jsonl_path else [] in
  let todo := completion_order item (pending (ledger_ids old) data) in
  exists results,
    Forall2 is_result todo results
    /\ ledger_lines w' output_jsonl_path = old ++ map line_of results
    /\ ledger_ids (ledger_lines w' output_jsonl_path)
       = ledger_ids old ++ map unique_id todo.
Proof.
  intros Hj H old todo.
  destruct (batch_ledger_lines file data output_dir output_jsonl_path
              is_recover batch_size w w' Hj H) as (results & HF & Heq).
  exists results. split; [exact HF|]. split; [exact Heq|].
  rewrite Heq. unfold ledger_ids at 1. rewrite omap_app.
  fold (ledger_ids old). fold (ledger_ids (map line_of results)).
  rewrite ledger_ids_line_of. f_equal. now apply is_result_ids.
Qed.

(** Nothing is rendered for the identifier [id]. *)
Definition quiet (id : string) (w w' : world) : Prop :=
  exists new, rendered w' = rendered w ++ new /\ id ∉ new.

#[local] Instance quiet_preorder id : PreOrder (quiet id).
Proof.
  split.
  - intros w. exists []. split; [now rewrite app_nil_r|apply not_elem_of_nil].
  - intros w1 w2 w3 (n12 & H12 & Hn12) (n23 & H23 & Hn23).
    exists (n12 ++ n23). split; [now rewrite H23, H12, app_assoc|].
    intros Hin. apply elem_of_app in Hin. tauto.
Qed.

Lemma quiet_same_log id w w' : rendered w' = rendered w -> quiet id w w'.
Proof.
  intros H. exists []. split; [now rewrite app_nil_r|apply not_elem_of_nil].
Qed.

Lemma quiet_log_render id id' : id' <> id -> preserves (quiet id) (log_render id').
Proof.
  intros Hne w. exists [id']. split; [reflexivity|].
  intros Hin. apply list_elem_of_singleton in Hin. congruence.
Qed.

Lemma quiet_makedirs id p : preserves (quiet id) (makedirs p).
Proof. intros w. apply quiet_same_log, makedirs_rendered. Qed.

Lemma quiet_save_png id p img : preserves (quiet id) (save_png p img).
Proof.
  intros w. apply quiet_same_log. unfold save_png.
  destruct (writable w p); [|reflexivity].
  now destruct ((0 <? Raster.width img) && (0 <? Raster.height img)).
Qed.

Lemma quiet_append_lines id p buffer : preserves (quiet id) (append_lines p buffer).
Proof.
  intros w. apply quiet_same_log. unfold append_lines.
  now destruct (writable w p).
Qed.

Lemma quiet_process_one g it id :
  unique_id it <> Some id -> preserves (quiet id) (process_one g it).
Proof.
  intros Hne w. unfold process_one.
  destruct (checked_id it w) as [[id'|e] w1] eqn:Hc.
  - apply checked_id_inv in Hc as Hc'. destruct Hc' as (Hid & _ & ->).
    rewrite (bind_ok _ _ _ _ _ Hc).
    pres_bind.
    { destruct (recover g); pres_leaf. }
    intros done. destruct done; [pres_leaf|].
    pres_bind; [pres_leaf|]. intros config0.
    pres_bind; [pres_leaf|]. intros _.
    pres_bind; [|intros; pres_leaf].
    apply preserves_text_to_images.
    + apply _.
    + apply quiet_log_render. congruence.
    + apply quiet_makedirs.
    + intros p img _. apply quiet_save_png.
  - rewrite (bind_raise _ _ _ _ _ Hc). cbn [snd].
    pose proof (preserves_checked_id (quiet id) it w) as Hk.
    now rewrite Hc in Hk.
Qed.

Lemma quiet_collect g jsonl bs id items :
  Forall (fun it => unique_id it <> Some id) items ->
  forall buffer, preserves (quiet id) (collect g jsonl bs items buffer).
Proof.
  induction 1 as [|it rest Hit Hrest IH]; intros buffer; cbn [collect].
  - pres_leaf.
  - pres_bind; [now apply quiet_process_one|].
    intros r. destruct (bs <=? length (buffer ++ [r]))%nat.
    + pres_bind; [apply quiet_append_lines|]. intros _. apply IH.
    + apply IH.
Qed.

Lemma pending_not_listed ids (data : list item) it :
  it ∈ pending ids data -> unique_id it ∉ ids.
Proof.
  unfold pending. intros H. apply list_elem_of_In, filter_In in H.
  destruct H as [_ H]. apply negb_true_iff, bool_decide_eq_false in H. exact H.
Qed.

(** X26. In recover mode nothing is rendered for an identifier that the
    ledger lists, whether or not its output directory still exists and
    however the run ends: its items are taken out before the workers
    start. *)
Theorem ledger_listed_never_rendered
    (file : option Config.dict) (data : option (list item))
    (output_dir output_jsonl_path : path) (batch_size : nat)
    (id : string) (recs : list record) (w : world) :
  files w !! output_jsonl_path = Some recs ->
  Some id ∈ ledger_ids recs ->
  let w' := (batch_process_to_images file data output_dir output_jsonl_path
               true batch_size w).2 in
  exists new, rendered w' = rendered w ++ new /\ id ∉ new.
Proof.
  intros Hrecs Hin. cbv zeta.
  change (quiet id w (batch_process_to_images file data output_dir
                        output_jsonl_path true batch_size w).2).
  unfold batch_process_to_images.
  destruct file as [file|]; [|reflexivity].
  destruct (Config.load_config file) as [loaded|]; [|reflexivity].
  rewrite (bind_ok _ _ w loaded w eq_refl).
  cbn [negb when]. rewrite (bind_ok _ _ w tt w eq_refl).
  destruct data as [data|]; [|reflexivity].
  assert (Hex : os_path_exists output_jsonl_path w = (Ok true, w)).
  { unfold os_path_exists, path_exists, isfile. rewrite Hrecs.
    rewrite bool_decide_eq_true_2 by eauto. now rewrite orb_true_r. }
  rewrite (bind_ok _ _ _ _ _ Hex).
  assert (Hread : read_ledger output_jsonl_path w = (Ok (ledger_ids recs), w))
    by (unfold read_ledger; now rewrite Hrecs).
  rewrite (bind_ok _ _ _ _ _ Hread).
  destruct (pending (ledger_ids recs) data) as [|it0 rest] eqn:Hpend; [reflexivity|].
  rewrite <- Hpend. clear Hpend it0 rest.
  pres_bind.
  - apply quiet_collect. apply Forall_forall. intros it Hit.
    rewrite completion_order_perm in Hit. apply pending_not_listed in Hit.
    congruence.
  - intros buf. destruct buf; [pres_leaf|apply quiet_append_lines].
Qed.

Lemma prepare_ok_ledger_gone out jsonl w w0 :
  prepare out jsonl w = (Ok tt, w0) -> isdir w jsonl = false ->
  path_exists w0 jsonl = false.
Proof.
  rewrite prepare_unfold. cbv zeta. intros H Hdir.
  set (w1 := if isdir w out then (rmtree out w).2 else w) in *.
  assert (Hdir1 : isdir w1 jsonl = false).
  { subst w1. destruct (isdir w out); [|exact Hdir].
    unfold isdir in *. cbn [rmtree snd dirs].
    apply orb_false_iff in Hdir. destruct Hdir as [Hn Hd]. rewrite Hn. cbn [orb].
    apply bool_decide_eq_false. apply bool_decide_eq_false in Hd.
    intros Hin. apply Hd. apply elem_of_filter in Hin. tauto. }
  clearbody w1. unfold makedirs in H.
  destruct (existsb (isfile w1) (ancestors out)) eqn:Hanc; [discriminate|].
  match type of H with
  | context [path_exists ?made jsonl] => set (w2 := made) in *
  end.
  destruct (path_exists w2 jsonl) eqn:Hex; [|now inversion H; subst].
  unfold remove in H. destruct (isfile w2 jsonl) eqn:Hfile; [|discriminate].
  inversion H; subst w0. clear H.
  assert (Hnot : jsonl ∉ ancestors out).
  { intros Hmem. assert (Hc : existsb (isfile w1) (ancestors out) = true);
      [|congruence].
    apply existsb_exists. exists jsonl. split; [now apply list_elem_of_In|].
    exact Hfile. }
  assert (Hd2 : dirs w2 = dirs w1 ∪ list_to_set (ancestors out)) by reflexivity.
  unfold isdir in Hdir1. apply orb_false_iff in Hdir1. destruct Hdir1 as [Hn Hd].
  apply bool_decide_eq_false in Hn, Hd.
  apply path_exists_false.
  - exact Hn.
  - change (jsonl ∉ dirs w2). rewrite Hd2. intros Hmem.
    apply elem_of_union in Hmem. destruct Hmem as [Hmem|Hmem]; [tauto|].
    now apply elem_of_list_to_set in Hmem.
  - apply lookup_delete_eq.
Qed.

Lemma pending_nil ids (data : list item) :
  (forall it, it ∈ data -> unique_id it ∈ ids) -> pending ids data = [].
Proof.
  intros H. unfold pending. induction data as [|it data IH]; [reflexivity|].
  cbn [List.filter]. rewrite bool_decide_eq_true_2 by (apply H; left).
  cbn [negb]. apply IH. intros it' Hit'. apply H. now right.
Qed.

Lemma Forall2_result_of_elem (items results : list item) it :
  Forall2 is_result items results -> it ∈ items ->
  exists r, r ∈ results /\ is_result it r.
Proof.
  induction 1 as [|it0 r items results Hr _ IH]; intros Hin.
  - now apply elem_of_nil in Hin.
  - apply elem_of_cons in Hin. destruct Hin as [->|Hin].
    + exists r. split; [left|exact Hr].
    + destruct (IH Hin) as (r' & Hr' & Hres). exists r'. split; [now right|exact Hres].
Qed.

(** X27. After a batch run that returned, the same input run again in
    recover mode does nothing at all: every item is in the ledger by
    then, so nothing is left to process and the world stays as it is.
    The ledger is taken to lie outside the output directory and not to
    be a directory; the second run may come with another configuration
    file and buffer size, as long as [load_config] converts the file (as
    it does for the file of the first run). *)
Theorem resumed_run_after_success_is_idle
    (file file' : Config.dict) (data : list item)
    (output_dir output_jsonl_path : path) (is_recover : bool)
    (batch_size batch_size' : nat) (w w' : world) :
  ¬ output_dir `prefix_of` output_jsonl_path ->
  isdir w output_jsonl_path = false ->
  batch_process_to_images (Some file) (Some data) output_dir output_jsonl_path
    is_recover batch_size w = (Ok tt, w') ->
  is_Some (Config.load_config file)
  /\ (file' = file \/ is_Some (Config.load_config file') ->
      batch_process_to_images (Some file') (Some data) output_dir output_jsonl_path
        true batch_size' w' = (Ok tt, w')).
Proof.
  intros Hj Hdir H.
  assert (Hfile : is_Some (Config.load_config file)).
  { apply batch_ok_inv in H. destruct H as (loaded & _ & _ & Hl & _). eauto. }
  split; [exact Hfile|]. intros Hfile'.
  assert (Hload' : is_Some (Config.load_config file'))
    by (destruct Hfile' as [->|Hl]; assumption).
  destruct Hload' as [loaded' Hload']. clear Hfile Hfile'.
  destruct (batch_ledger_lines file data output_dir output_jsonl_path
              is_recover batch_size w w' Hj H) as (results & HF & Heq).
  set (old := if is_recover then ledger_lines w output_jsonl_path else []) in *.
  assert (Hall : forall it, it ∈ data ->
            unique_id it ∈ ledger_ids (ledger_lines w' output_jsonl_path)).
  { intros it Hit. rewrite Heq. unfold ledger_ids at 1. rewrite omap_app.
    fold (ledger_ids old). fold (ledger_ids (map line_of results)).
    apply elem_of_app.
    destruct (decide (unique_id it ∈ ledger_ids old)) as [Hold|Hnew]; [now left|].
    right. rewrite ledger_ids_line_of.
    assert (Hp : it ∈ completion_order item (pending (ledger_ids old) data)).
    { rewrite completion_order_perm. now apply elem_of_pending. }
    destruct (Forall2_result_of_elem _ _ it HF Hp) as (r & Hr & paths & ->).
    change (unique_id it) with (unique_id (set_image_paths it paths)).
    now apply list_elem_of_fmap_2. }
  unfold batch_process_to_images. rewrite Hload'.
  rewrite (bind_ok _ _ w' loaded' w' eq_refl). cbn [negb when].
  rewrite (bind_ok _ _ w' tt w' eq_refl).
  destruct (files w' !! output_jsonl_path) as [recs|] eqn:Hf.
  - assert (Hex : os_path_exists output_jsonl_path w' = (Ok true, w')).
    { unfold os_path_exists, path_exists, isfile. rewrite Hf.
      rewrite bool_decide_eq_true_2 by eauto. now rewrite orb_true_r. }
    rewrite (bind_ok _ _ _ _ _ Hex).
    assert (Hread : read_ledger output_jsonl_path w' = (Ok (ledger_ids recs), w'))
      by (unfold read_ledger; now rewrite Hf).
    rewrite (bind_ok _ _ _ _ _ Hread).
    unfold ledger_lines in Hall. rewrite Hf in Hall.
    change (default [] (Some recs)) with recs in Hall.
    now rewrite (pending_nil _ _ Hall).
  - assert (Hdata : data = []).
    { destruct data as [|it data]; [reflexivity|]. exfalso.
      specialize (Hall it (list_elem_of_here _ _)).
      unfold ledger_lines in Hall. rewrite Hf in Hall.
      now apply elem_of_nil in Hall. }
    subst data.
    assert (Hex : path_exists w' output_jsonl_path = false).
    { apply batch_ok_inv in H.
      destruct H as (loaded & w0 & ids & _ & Hprep & _ & _ & H). cbn in H. subst w0.
      destruct is_recover.
      - cbn in Hprep. inversion Hprep; subst.
        unfold path_exists, isfile. rewrite Hdir, Hf.
        now rewrite bool_decide_eq_false_2 by (intros [x Hx]; discriminate).
      - cbn [negb when] in Hprep.
        now apply (prepare_ok_ledger_gone _ _ _ _ Hprep). }
    assert (Hos : os_path_exists output_jsonl_path w' = (Ok false, w'))
      by (unfold os_path_exists; now rewrite Hex).
    rewrite (bind_ok _ _ _ _ _ Hos). reflexivity.
Qed.

(** ** Rendering work of a run without recovery *)

Definition same_log (w w' : world) : Prop := rendered w' = rendered w.

#[local] Instance same_log_preorder : PreOrder same_log.
Proof.
  split; [intros w; reflexivity|].
  intros w1 w2 w3 H12 H23. unfold same_log in *. congruence.
Qed.

Lemma same_log_save_png p img : preserves same_log (save_png p img).
Proof.
  intros w. unfold same_log, save_png. destruct (writable w p); [|reflexivity].
  now destruct ((0 <? Raster.width img) && (0 <? Raster.height img)).
Qed.

Lemma text_to_images_rendered text output_dir config_dict id w paths w' :
  text_to_images text output_dir config_dict id w = (Ok paths, w') ->
  rendered w' = rendered w ++ [id].
Proof.
  unfold text_to_images. intros H.
  apply bind_inv_ok in H. destruct H as ([] & w1 & Hlog & H).
  apply bind_inv_ok in H. destruct H as (typeset_doc & w2 & Hdoc & H).
  apply bind_inv_ok in H. destruct H as ([] & w3 & Hmk & H).
  apply bind_inv_ok in H. destruct H as ([] & w4 & Hras & H).
  apply check_ok in Hras. destruct Hras as [_ ->].
  cbv zeta in H.
  match type of H with
  | render_batches ?s ?r ?d ?dpi ?t ?b ?starts _ = _ =>
      pose proof (preserves_render_batches same_log s r d dpi t b starts
                    (fun p img _ => same_log_save_png p img) w3) as Hsame
  end.
  rewrite H in Hsame. unfold same_log in Hsame. cbn [snd] in Hsame.
  rewrite Hsame.
  pose proof (makedirs_rendered (output_dir ++ [id]) w2) as Hm.
  rewrite Hmk in Hm. cbn [snd] in Hm. rewrite Hm.
  unfold lift in Hdoc. inversion Hdoc; subst w2.
  unfold log_render in Hlog. now inversion Hlog.
Qed.

Lemma process_one_fresh_rendered g it w r w' :
  recover g = false ->
  process_one g it w = (Ok r, w') ->
  exists id, unique_id it = Some id /\ rendered w' = rendered w ++ [id].
Proof.
  intros Hr. unfold process_one. rewrite Hr. intros H.
  apply bind_inv_ok in H. destruct H as (id & w1 & Hid & H).
  apply checked_id_inv in Hid. destruct Hid as (Hid & _ & ->).
  exists id. split; [exact Hid|].
  apply bind_inv_ok in H. destruct H as (done & w2 & Hdone & H).
  assert (E : done = false /\ w2 = w) by (now inversion Hdone).
  destruct E as [-> ->].
  apply bind_inv_ok in H. destruct H as (config0 & w3 & Hconv & H).
  assert (Hw3 : w3 = w).
  { unfold converted_or_raise in Hconv.
    destruct (Config.item_config_of _ _); now inversion Hconv. }
  subst w3.
  apply bind_inv_ok in H. destruct H as ([] & w4 & Hassert & H).
  apply check_ok in Hassert. destruct Hassert as [_ ->].
  apply bind_inv_ok in H. destruct H as (paths & w5 & Ht & H).
  inversion H; subst. now apply text_to_images_rendered in Ht.
Qed.

Lemma collect_fresh_rendered g jsonl bs :
  recover g = false ->
  forall items buffer w buf w',
    collect g jsonl bs items buffer w = (Ok buf, w') ->
    exists ids, map unique_id items = map Some ids
                /\ rendered w' = rendered w ++ ids.
Proof.
  intros Hr. induction items as [|it rest IH]; intros buffer w buf w' H.
  - inversion H; subst. exists []. split; [reflexivity|now rewrite app_nil_r].
  - cbn [collect] in H.
    apply bind_inv_ok in H. destruct H as (r & w1 & Hp & H).
    apply (process_one_fresh_rendered g it w r w1 Hr) in Hp.
    destruct Hp as (id & Hid & Hw1).
    assert (Hrest : forall w2 ids,
              rendered w2 = rendered w1 ->
              map unique_id rest = map Some ids /\ rendered w' = rendered w2 ++ ids ->
              exists ids', map unique_id (it :: rest) = map Some ids'
                           /\ rendered w' = rendered w ++ ids').
    { intros w2 ids Hw2 [Hids Hw']. exists (id :: ids). split.
      - cbn [map]. now rewrite Hid, Hids.
      - rewrite Hw', Hw2, Hw1, <- app_assoc. reflexivity. }
    destruct (bs <=? length (buffer ++ [r]))%nat.
    + apply bind_inv_ok in H. destruct H as ([] & w2 & Ha & H).
      apply append_lines_ok in Ha. destruct Ha as (_ & _ & Ha).
      apply IH in H. destruct H as (ids & Hids). now apply (Hrest w2 ids).
    + apply IH in H. destruct H as (ids & Hids). now apply (Hrest w1 ids).
Qed.

Lemma prepare_rendered out jsonl w : rendered (prepare out jsonl w).2 = rendered w.
Proof.
  rewrite prepare_unfold. cbv zeta.
  set (w1 := if isdir w out then (rmtree out w).2 else w).
  assert (H1 : rendered w1 = rendered w) by (subst w1; now destruct (isdir w out)).
  pose proof (makedirs_rendered out w1) as H2.
  destruct (makedirs out w1) as [[[]|e] w2]; cbn [snd] in *; [|congruence].
  destruct (path_exists w2 jsonl); [|cbn; congruence].
  unfold remove. destruct (isfile w2 jsonl); cbn; congruence.
Qed.

Lemma pending_nothing_listed (data : list item) : pending [] data = data.
Proof.
  unfold pending. induction data as [|it data IH]; [reflexivity|].
  cbn [List.filter].
  rewrite bool_decide_eq_false_2 by apply not_elem_of_nil.
  cbn [negb]. now rewrite IH.
Qed.

(** X28. A run without recovery that returns has invoked the rendering
    pipeline exactly once for every item of the input and for nothing
    else: the identifiers it was invoked for are those of the items,
    each as often as the input holds it, in some order. *)
Theorem fresh_run_renders_each_once
    (file : Config.dict) (data : list item) (output_dir output_jsonl_path : path)
    (batch_size : nat) (w w' : world) :
  batch_process_to_images (Some file) (Some data) output_dir output_jsonl_path
    false batch_size w = (Ok tt, w') ->
  exists ids,
    rendered w' = rendered w ++ ids
    /\ map Some ids ≡ₚ map unique_id data.
Proof.
  intros H. apply batch_ok_inv in H.
  destruct H as (loaded & w0 & ids0 & _ & Hprep & Hids & _ & H).
  cbn [negb when] in Hprep. cbn in Hids. subst ids0.
  rewrite pending_nothing_listed in H.
  pose proof (prepare_rendered output_dir output_jsonl_path w) as Hr0.
  rewrite Hprep in Hr0. cbn [snd] in Hr0.
  destruct data as [|it0 rest] eqn:Hdata.
  - subst w'. exists []. split; [now rewrite app_nil_r|reflexivity].
  - rewrite <- Hdata in *. destruct H as (buf & w1 & Hcol & H).
    apply collect_fresh_rendered in Hcol; [|reflexivity].
    destruct Hcol as (ids & Hids & Hw1). exists ids. split.
    + rewrite <- Hr0, <- Hw1. destruct buf as [|r buf]; [now subst|].
      apply append_lines_ok in H. now destruct H as (_ & _ & H).
    + rewrite <- Hids. apply Permutation_map, completion_order_perm.
Qed.

End Model.

(** ** A small backend and concrete runs *)

(** Every paragraph of the story becomes one white page of 4 by 3 pixels;
    no call of the engine or the rasteriser fails, resizing keeps the
    page, a float margin counts as zero, and results come back in
    submission order. *)
Definition toy_backend : Backend := {|
  pixel := Z;
  luma := Raster.luma_id;
  pdf := list (Raster.image Z);
  accepts_styles := fun _ => true;
  build_pdf := fun _ _ story => Some (map (fun _ => Raster.white_page) story);
  rasterizes := fun _ _ => true;
  rasterize := fun doc _ => doc;
  resize_width := fun _ img => Ok img;
  float_bound := fun limit index _ => Ok (Z.min limit index);
  completion_order := fun _ l => l;
  completion_order_perm := fun _ l => reflexivity l
|}.

#[local] Existing Instance toy_backend.
#[local] Existing Instance Config.ascii_library.

Definition toy_config : Config.dict :=
  {[ "font-path"%string := Config.VStr "font.ttf" ]}.

Definition two_lines : Text.pystr :=
  Text.lit "Line one" ++ [Text.NEWLINE] ++ Text.lit "Line two".

Definition good_item : item :=
  Item (Some "t1"%string) (Some two_lines) None None ∅.

(** An item without identifier. *)
Definition bad_item : item :=
  Item None (Some two_lines) None None ∅.

Definition out_dir : path := ["out"%string].
Definition ledger : path := ["ledger.jsonl"%string].

(** A second valid item. *)
Definition other_item : item :=
  Item (Some "t2"%string) (Some two_lines) None None ∅.

(** A configuration file whose page size is a name where [load_config]
    expects numbers. *)
Definition named_size_config : Config.dict :=
  {[ "font-path"%string := Config.VStr "font.ttf";
     "page-size"%string := Config.VStr "A4" ]}.

Definition empty_world : world (B := toy_backend) := World ∅ ∅ [].

(** The world a previous run left: the directory of [t1] with one page
    (two dark pixels, to tell it from a fresh page), and a ledger line. *)
Definition old_page : Raster.image Z := Raster.dot_page.

Definition old_world : world (B := toy_backend) :=
  World {[ out_dir; out_dir ++ ["t1"%string] ]}
        {[ out_dir ++ ["t1"; "page_001.png"]%string := [PngData old_page];
           ledger := [Line (Some (set_image_paths good_item
                                    [out_dir ++ ["t1"; "page_001.png"]%string]))] ]}
        ["t1"%string].

(** [load_config] leaves [toy_config] as it is. *)
Lemma toy_config_loads : Config.load_config toy_config = Some toy_config.
Proof. vm_compute. reflexivity. Qed.

Definition recover_globals : globals :=
  {| GLOBAL_CONFIG := toy_config; OUTPUT_DIR := out_dir; recover := true |}.

Lemma ledger_outside_item : ¬ (out_dir ++ ["t1"%string]) `prefix_of` ledger.
Proof. intros [k Hk]. discriminate. Qed.


Lemma bad_item_not_in_ledger : ¬ in_ledger empty_world ledger bad_item.
Proof. intros (recs & Hrecs & _). discriminate. Qed.

Lemma invalid_item_aborts_batch_witness :
  bad_item ∈ [good_item; bad_item]
  /\ invalid_id bad_item
  /\ exists e,
       (batch_process_to_images (Some toy_config) (Some [good_item; bad_item])
          out_dir ledger false 100 empty_world).1 = Raise e.
Proof.
  assert (Hin : bad_item ∈ [good_item; bad_item])
    by (apply elem_of_cons; right; apply elem_of_cons; now left).
  assert (Hbad : invalid_id bad_item) by (left; reflexivity).
  split; [exact Hin|]. split; [exact Hbad|].
  exact (proj2 (proj2 (invalid_item_aborts_batch toy_config [good_item; bad_item]
                         out_dir ledger false 100 bad_item empty_world Hin
                         (or_introl (conj Hbad (fun _ => bad_item_not_in_ledger)))))).
Defined.

(** C5 as worded fails. A batch of an item without identifier and a valid
    item, run without recovery, ends in an assertion error and writes no
    ledger, whichever of the two comes first: the failure is not handed
    on as a result, and the result of the valid item is lost with it.
    Without the invalid item the same run returns and writes the ledger
    line of [t1]. *)
Lemma invalid_item_not_isolated :
  let run := batch_process_to_images (Some toy_config)
               (Some [bad_item; good_item]) out_dir ledger false 100 empty_world in
  let alone := batch_process_to_images (Some toy_config)
                 (Some [good_item]) out_dir ledger false 100 empty_world in
  let late := batch_process_to_images (Some toy_config)
                (Some [good_item; bad_item]) out_dir ledger false 100 empty_world in
  run.1 = Raise AssertionError
  /\ isfile run.2 ledger = false
  /\ late.1 = Raise AssertionError
  /\ isfile late.2 ledger = false
  /\ alone.1 = Ok tt
  /\ (length <$> files alone.2 !! ledger) = Some 1%nat.
Proof. cbv zeta. repeat split; vm_compute; reflexivity. Qed.

Definition toy_run : outcome (list path) * world :=
  text_to_images two_lines out_dir toy_config "t1" empty_world.

Lemma toy_run_paths : toy_run.1 = Ok [out_dir ++ ["t1"; "page_001.png"]%string].
Proof. vm_compute. reflexivity. Qed.

Lemma page_files_named_witness :
  text_to_images two_lines out_dir toy_config "t1" empty_world
  = (Ok [out_dir ++ ["t1"; "page_001.png"]%string], toy_run.2)
  /\ Forall (fun p => isfile toy_run.2 p = true)
            [out_dir ++ ["t1"; "page_001.png"]%string].
Proof.
  assert (H : text_to_images two_lines out_dir toy_config "t1" empty_world
              = (Ok [out_dir ++ ["t1"; "page_001.png"]%string], toy_run.2)).
  { rewrite <- toy_run_paths. unfold toy_run.
    now destruct (text_to_images two_lines out_dir toy_config "t1" empty_world). }
  split; [exact H|].
  destruct (proj1 (page_files_named two_lines out_dir toy_config "t1" empty_world
                     _ _ H)) as (config & doc & _ & _ & _ & Hfiles).
  exact Hfiles.
Defined.

(** C9 as worded fails from page 1000 on, where the index has four
    digits. *)
Lemma page_name_beyond_999 :
  Naming.page_name 1 = "page_001.png"%string
  /\ Naming.page_name 999 = "page_999.png"%string
  /\ Naming.page_name 1000 = "page_1000.png"%string
  /\ String.length (Naming.format_03d 1000) = 4%nat.
Proof. repeat split; vm_compute; reflexivity. Qed.



(** The old page and the old ledger line are gone after a run without
    recovery: the page file of [t1] is the fresh one and the ledger holds
    the one line of this run. *)
Example fresh_run_replaces_old_files :
  let run := batch_process_to_images (Some toy_config) (Some [good_item])
               out_dir ledger false 100 old_world in
  run.1 = Ok tt
  /\ rendered run.2 = ["t1"; "t1"]%string
  /\ (length <$> files run.2 !! ledger) = Some 1%nat
  /\ (fmap (M := list)
        (fun r => match r with
                  | PngData img => Some (Raster.px img 3 4)
                  | Line _ => None
                  end)
        <$> files run.2 !! (out_dir ++ ["t1"; "page_001.png"]%string))
     = Some [Some 255].
Proof. cbv zeta. repeat split; vm_compute; reflexivity. Qed.

(** A page whose only foreground pixel lies in the top row, as the last
    page with the vertical trim on and a vertical margin of 0: the trim
    leaves no row, and [img.save] refuses the page. *)
Definition top_dot_page : Raster.image Z :=
  Raster.page_of 10 10 (fun y x => (y =? 0) && (x =? 4)).

Definition tight_settings : page_settings :=
  {| horizontal_scale := Config.VFloat "1.0";
     auto_crop_width := false; auto_crop_last_page := true;
     margin_x := Config.VNum 0; margin_y := Config.VNum 0 |}.

Example empty_page_not_saved :
  let w := World {[ out_dir; out_dir ++ ["t1"%string] ]} ∅ [] in
  Raster.height
    (Raster.axis_crop Raster.luma_id false true 0 0 1 1 top_dot_page) = 0
  /\ (render_page tight_settings (out_dir ++ ["t1"%string]) 1 1 top_dot_page w).1
     = Raise ValueError
  /\ isfile (render_page tight_settings (out_dir ++ ["t1"%string]) 1 1
               top_dot_page w).2
       (out_dir ++ ["t1"; "page_001.png"]%string) = false.
Proof. cbv zeta. repeat split; vm_compute; reflexivity. Qed.

(** ** More concrete runs *)

(** A document of 45 pages. *)
Definition toy_doc : pdf := replicate 45 Raster.white_page.

Lemma batches_cover_pages_witness :
  0 < 20
  /\ concat (map (fun start =>
                    convert_from_bytes toy_doc (Config.VNum 72) start
                      (Z.min (start + 20 - 1)
                         (Z.of_nat (length (rasterize toy_doc (Config.VNum 72))))))
                 (batch_starts
                    (Z.of_nat (length (rasterize toy_doc (Config.VNum 72)))) 20))
     = rasterize toy_doc (Config.VNum 72)
  /\ batch_starts 45 20 = [1; 21; 41].
Proof.
  assert (H : 0 < 20) by lia.
  split; [exact H|]. split; [|reflexivity].
  exact (proj1 (batches_cover_pages toy_doc (Config.VNum 72) 20 H)).
Defined.

(** No font path, and a page size given by name: the page size is
    converted first. *)
Definition fontless_named_size : Config.dict :=
  {[ "page-size"%string := Config.VStr "A4" ]}.

Lemma text_to_images_fails_early_witness :
  text_to_images two_lines out_dir ∅ "t1" empty_world
  = (Raise AssertionError,
     {| dirs := dirs empty_world; files := files empty_world;
        rendered := rendered empty_world ++ ["t1"%string] |})
  /\ text_to_images two_lines out_dir fontless_named_size "t1" empty_world
     = (Raise ValueError,
        {| dirs := dirs empty_world; files := files empty_world;
           rendered := rendered empty_world ++ ["t1"%string] |}).
Proof.
  split.
  - apply (proj1 (text_to_images_fails_early two_lines out_dir ∅ "t1" empty_world)).
    vm_compute. reflexivity.
  - apply (proj1 (text_to_images_fails_early two_lines out_dir fontless_named_size
                    "t1" empty_world)).
    vm_compute. reflexivity.
Defined.

Definition fresh_globals : globals :=
  {| GLOBAL_CONFIG := toy_config; OUTPUT_DIR := out_dir; recover := false |}.

Definition first_pass : outcome item * world :=
  process_one fresh_globals good_item empty_world.

Lemma first_pass_ok :
  first_pass.1
  = Ok (set_image_paths good_item [out_dir ++ ["t1"; "page_001.png"]%string]).
Proof. vm_compute. reflexivity. Qed.

Lemma first_pass_run :
  process_one fresh_globals good_item empty_world
  = (Ok (set_image_paths good_item [out_dir ++ ["t1"; "page_001.png"]%string]),
     first_pass.2).
Proof.
  rewrite <- first_pass_ok. unfold first_pass.
  now destruct (process_one fresh_globals good_item empty_world).
Qed.

Lemma processed_item_skipped_on_resume_witness :
  process_one fresh_globals good_item empty_world
  = (Ok (set_image_paths good_item [out_dir ++ ["t1"; "page_001.png"]%string]),
     first_pass.2)
  /\ process_one recover_globals good_item first_pass.2
     = (Ok (set_image_paths good_item []), first_pass.2).
Proof.
  split; [exact first_pass_run|].
  exact (processed_item_skipped_on_resume fresh_globals recover_globals good_item
           empty_world _ first_pass.2 first_pass_run eq_refl eq_refl).
Defined.

Lemma toy_run_ok :
  text_to_images two_lines out_dir toy_config "t1" empty_world
  = (Ok [out_dir ++ ["t1"; "page_001.png"]%string], toy_run.2).
Proof.
  rewrite <- toy_run_paths. unfold toy_run.
  now destruct (text_to_images two_lines out_dir toy_config "t1" empty_world).
Qed.

Lemma returned_paths_distinct_witness :
  text_to_images two_lines out_dir toy_config "t1" empty_world
  = (Ok [out_dir ++ ["t1"; "page_001.png"]%string], toy_run.2)
  /\ NoDup [out_dir ++ ["t1"; "page_001.png"]%string].
Proof.
  split; [exact toy_run_ok|].
  exact (proj1 (returned_paths_distinct two_lines out_dir toy_config "t1"
                  empty_world _ _ toy_run_ok)).
Defined.

Definition toy_batch : outcome unit * world :=
  batch_process_to_images (Some toy_config) (Some [good_item]) out_dir ledger
    false 100 empty_world.

Lemma toy_batch_ok : toy_batch.1 = Ok tt.
Proof. vm_compute. reflexivity. Qed.

Lemma toy_batch_run :
  batch_process_to_images (Some toy_config) (Some [good_item]) out_dir ledger
    false 100 empty_world = (Ok tt, toy_batch.2).
Proof.
  rewrite <- toy_batch_ok. unfold toy_batch.
  now destruct (batch_process_to_images (Some toy_config) (Some [good_item])
                  out_dir ledger false 100 empty_world).
Qed.

Lemma ledger_outside_output : ¬ out_dir `prefix_of` ledger.
Proof. intros [k Hk]. discriminate. Qed.

Lemma ledger_one_line_per_item_witness :
  (¬ out_dir `prefix_of` ledger)
  /\ toy_batch.1 = Ok tt
  /\ exists results,
       Forall2 is_result [good_item] results
       /\ ledger_lines toy_batch.2 ledger = map line_of results.
Proof.
  split; [exact ledger_outside_output|]. split; [exact toy_batch_ok|].
  destruct (ledger_one_line_per_item toy_config [good_item] out_dir ledger false
              100 empty_world toy_batch.2 ledger_outside_output toy_batch_run)
    as (results & HF & Heq & _).
  exists results. split; [exact HF|exact Heq].
Defined.

(** A ledger that lists [t1], and no output directory. *)
Definition ledger_only_world : world (B := toy_backend) :=
  World ∅ {[ ledger := [Line (Some (set_image_paths good_item []))] ]} [].

Lemma ledger_listed_never_rendered_witness :
  files ledger_only_world !! ledger
  = Some [Line (Some (set_image_paths good_item []))]
  /\ exists new,
       rendered (batch_process_to_images (Some toy_config) (Some [good_item])
                   out_dir ledger true 100 ledger_only_world).2
       = rendered ledger_only_world ++ new
       /\ "t1"%string ∉ new.
Proof.
  assert (Hf : files ledger_only_world !! ledger
               = Some [Line (Some (set_image_paths good_item []))])
    by apply lookup_singleton_eq.
  split; [exact Hf|].
  apply (ledger_listed_never_rendered (Some toy_config) (Some [good_item])
           out_dir ledger 100 "t1" _ ledger_only_world Hf).
  apply list_elem_of_here.
Defined.

Lemma resumed_run_after_success_is_idle_witness :
  (¬ out_dir `prefix_of` ledger)
  /\ isdir empty_world ledger = false
  /\ batch_process_to_images (Some toy_config) (Some [good_item]) out_dir ledger
       true 7 toy_batch.2 = (Ok tt, toy_batch.2).
Proof.
  assert (Hd : isdir empty_world ledger = false) by (vm_compute; reflexivity).
  split; [exact ledger_outside_output|]. split; [exact Hd|].
  exact (proj2 (resumed_run_after_success_is_idle toy_config toy_config [good_item]
                  out_dir ledger false 100 7 empty_world toy_batch.2
                  ledger_outside_output Hd toy_batch_run)
               (or_introl eq_refl)).
Defined.

Lemma fresh_run_renders_each_once_witness :
  batch_process_to_images (Some toy_config) (Some [good_item]) out_dir ledger
    false 100 empty_world = (Ok tt, toy_batch.2)
  /\ exists ids,
       rendered toy_batch.2 = rendered empty_world ++ ids
       /\ map Some ids ≡ₚ map unique_id [good_item].
Proof.
  split; [exact toy_batch_run|].
  exact (fresh_run_renders_each_once toy_config [good_item] out_dir ledger 100
           empty_world toy_batch.2 toy_batch_run).
Defined.

End Pipeline.
